(** * eRPC: the Rpc endpoint (src/rpc.h) as a shallow embedding

    The development follows [src/src/rpc.h]: the MsgBuffer management
    functions, the datapath helpers of a client session slot, the release of a
    response handle, the compile-time size checks, and the early session
    management handler [handle_session_connect_req] kept at the end of that
    file.

    Unsigned 64-bit values ([size_t]) are integers in [Z] with the wrap-around
    written out; pointers are integers with [0] for [nullptr]; C arrays and
    [std::vector]s are lists; functions that assert or throw return a
    [result]. *)

From Stdlib Require Import ZArith Lia Bool String.
From stdpp Require Import base list gmap.

Local Open Scope Z_scope.

(** ** size_t arithmetic *)

Module SizeT.

Definition modulus : Z := 2 ^ 64.

Definition wrap (z : Z) : Z := z mod modulus.

Definition add (a b : Z) : Z := wrap (a + b).
Definition sub (a b : Z) : Z := wrap (a - b).
Definition mul (a b : Z) : Z := wrap (a * b).
Definition div (a b : Z) : Z := a / b.
Definition rem (a b : Z) : Z := a mod b.
(** [1ull << n], defined for [n < 64] *)
Definition shl1 (n : Z) : Z := wrap (Z.shiftl 1 n).

Definition in_range (z : Z) : Prop := 0 <= z < modulus.

End SizeT.

(** ** Build configuration

    The constants and feature switches that [rpc.h] takes from headers that are
    not part of the verified sources ([common.h], [pkthdr.h], the transport and
    [util/huge_alloc.h]).  Every definition below is parametric in them. *)

Record Config := {
  NDEBUG : bool;                 (* assertions compiled out *)
  kTesting : bool;
  kCcPacing : bool;
  kCcOptWheelBypass : bool;
  kSessionCredits : Z;
  kMaxDataPerPkt : Z;            (* TTr::kMaxDataPerPkt *)
  sizeof_pkthdr : Z;             (* sizeof(pkthdr_t) *)
  kMaxClassSize : Z;             (* HugeAlloc::kMaxClassSize *)
  kPktNumBits : Z;
  kMsgSizeBits : Z;
  kPktHdrMagic : Z;
}.

(** ** Outcomes of fallible code *)

Inductive result (A : Type) : Type :=
| Ok (a : A)
| AssertFail            (* an [assert] failed: the process aborts *)
| Throw                 (* a C++ exception leaves the function *)
| Undefined.            (* a null or dangling pointer is dereferenced *)
Arguments Ok {A} a.
Arguments AssertFail {A}.
Arguments Throw {A}.
Arguments Undefined {A}.

Global Instance result_ret : MRet result := fun A a => Ok a.

Global Instance result_bind : MBind result := fun A B k m =>
  match m with
  | Ok a => k a
  | AssertFail => AssertFail
  | Throw => Throw
  | Undefined => Undefined
  end.

(** dereferencing a pointer whose target may be missing *)
Definition deref {A} (o : option A) : result A :=
  match o with Some a => Ok a | None => Undefined end.

(** [assert(c)]: checked unless the build defines NDEBUG *)
Definition assert (cfg : Config) (c : bool) : result unit :=
  if NDEBUG cfg then Ok tt else if c then Ok tt else AssertFail.

(** [rt_assert(c)]: always checked, throws *)
Definition rt_assert (c : bool) : result unit :=
  if c then Ok tt else Throw.

Definition is_ok {A} (r : result A) : bool :=
  match r with Ok _ => true | _ => false end.

(** ** Compile-time constants of [Rpc] (rpc.h, lines 40-46) *)

Definition kMaxMsgSize (cfg : Config) : Z :=
  SizeT.sub (kMaxClassSize cfg)
            (SizeT.mul (SizeT.div (kMaxClassSize cfg) (kMaxDataPerPkt cfg))
                       (sizeof_pkthdr cfg)).

(** the two [static_assert]s, as the compiler evaluates them on [size_t] *)
Definition static_assert_msg_size (cfg : Config) : bool :=
  kMaxMsgSize cfg <=? SizeT.shl1 (kMsgSizeBits cfg).

Definition static_assert_pkt_num (cfg : Config) : bool :=
  SizeT.mul 2 (kMaxMsgSize cfg) <?
  SizeT.mul (SizeT.shl1 (kPktNumBits cfg)) (kMaxDataPerPkt cfg).

(** The constants are values of their C++ types, the divisor is not zero and
    the shift counts are below the width of [unsigned long long]: anything else
    is rejected by the compiler before the assertions are looked at. *)
Definition constants_well_formed (cfg : Config) : Prop :=
  SizeT.in_range (kMaxClassSize cfg) /\
  0 < kMaxDataPerPkt cfg < SizeT.modulus /\
  SizeT.in_range (sizeof_pkthdr cfg) /\
  0 <= kPktNumBits cfg < 64 /\
  0 <= kMsgSizeBits cfg < 64.

Definition compiles (cfg : Config) : Prop :=
  constants_well_formed cfg /\
  static_assert_msg_size cfg = true /\
  static_assert_pkt_num cfg = true.

(** ** Packet counts (rpc.h, lines 754-757) *)

Definition data_size_to_num_pkts (cfg : Config) (data_size : Z) : Z :=
  if data_size <=? kMaxDataPerPkt cfg then 1
  else SizeT.div
         (SizeT.sub (SizeT.add data_size (kMaxDataPerPkt cfg)) 1)
         (kMaxDataPerPkt cfg).

(** The mathematical ceiling of [a / b], and the packet count as the
    specification words it: the ceiling with a floor of one. *)
Definition ceil_div (a b : Z) : Z := - ((- a) / b).

Definition num_pkts_spec (cfg : Config) (data_size : Z) : Z :=
  Z.max 1 (ceil_div data_size (kMaxDataPerPkt cfg)).

(** [wire_pkts] (rpc.h, lines 362-365), on the two packet counts *)
Definition wire_pkts (req_num_pkts resp_num_pkts : Z) : Z :=
  SizeT.sub (SizeT.add req_num_pkts resp_num_pkts) 1.

(** [resp_ntoi] (rpc.h, lines 334-336) *)
Definition resp_ntoi (pkt_num num_req_pkts : Z) : Z :=
  SizeT.sub pkt_num (SizeT.sub num_req_pkts 1).

(** ** Buffers and MsgBuffers *)

(** Modelled from the spec: the [Buffer] of util/buffer.h, which is not among
    the sources.  A hugepage allocation: its address ([0] when the allocation
    failed) and the size of the allocation class it was taken from. *)
Module Buffer.
Record t := { buf : Z; class_size : Z }.
End Buffer.

(** Modelled from the spec: the [MsgBuffer] of msg_buffer.h, which is not
    among the sources.  Section 3 of the specification: a MsgBuffer carries a
    payload pointer, a maximum data size, a current data size and a packet
    count; the payload is preceded by the zeroth packet header. *)
Module MsgBuffer.
Record t := {
  buffer : Buffer.t;       (* the backing allocation *)
  buf : Z;                 (* the payload pointer *)
  max_data_size : Z;
  data_size : Z;
  max_num_pkts : Z;
  num_pkts : Z;
}.

Definition set_buf (m : t) (p : Z) : t :=
  {| buffer := buffer m; buf := p; max_data_size := max_data_size m;
     data_size := data_size m; max_num_pkts := max_num_pkts m;
     num_pkts := num_pkts m |}.

(** rpc.h, line 82: the MsgBuffer is invalid, i.e., its [buf] is null *)
Definition is_valid (m : t) : bool := negb (buf m =? 0).

(** the address of the zeroth packet header, just before the payload *)
Definition pkthdr_0 (cfg : Config) (m : t) : Z :=
  SizeT.sub (buf m) (sizeof_pkthdr cfg).

(** [resize(new_data_size, new_num_pkts)]: section 4.1, recomputes the
    packet count without touching the headers *)
Definition resize (m : t) (new_data_size new_num_pkts : Z) : t :=
  {| buffer := buffer m; buf := buf m; max_data_size := max_data_size m;
     data_size := new_data_size; max_num_pkts := max_num_pkts m;
     num_pkts := new_num_pkts |}.
End MsgBuffer.

(** The part of memory the MsgBuffer functions write: the magic field of
    the packet header stored at an address. *)
Abbreviation hdr_memory := (gmap Z Z).

(** Modelled from the spec: the constructor
    [MsgBuffer(buffer, max_data_size, max_num_pkts)] of msg_buffer.h.  Section
    4.1: the headers are laid down in the allocation and the zeroth one is
    magic-stamped; the data size starts at its maximum. *)
Definition MsgBuffer_of_buffer (cfg : Config) (buffer : Buffer.t)
    (max_data_size max_num_pkts : Z) (mem : hdr_memory)
  : MsgBuffer.t * hdr_memory :=
  ({| MsgBuffer.buffer := buffer;
      MsgBuffer.buf := SizeT.add (Buffer.buf buffer) (sizeof_pkthdr cfg);
      MsgBuffer.max_data_size := max_data_size;
      MsgBuffer.data_size := max_data_size;
      MsgBuffer.max_num_pkts := max_num_pkts;
      MsgBuffer.num_pkts := max_num_pkts |},
   <[Buffer.buf buffer := kPktHdrMagic cfg]> mem).

(** The hugepage allocator is an external collaborator: [alloc] returns a
    buffer, which is null when memory ran out, or throws. *)
Class HugeAlloc (H : Type) := {
  alloc : H -> Z -> result Buffer.t * H;
  free_buf : H -> Buffer.t -> H;
}.

(** What the callers rely on when [alloc h size] answers: a buffer that is not
    null holds at least the requested bytes, all of them addressable. *)
Definition alloc_sound_at `{HugeAlloc H} (h : H) (size : Z) : Prop :=
  forall (b : Buffer.t) (h' : H),
    alloc h size = (Ok b, h') ->
    Buffer.buf b <> 0 ->
    0 < Buffer.buf b /\ size <= Buffer.class_size b /\
    Buffer.buf b + Buffer.class_size b <= SizeT.modulus.

(** ** MsgBuffer management (rpc.h, lines 89-134)

    [lock_cond]/[unlock_cond] only serialise the threads that share the
    allocator and have no effect on the values computed. *)
Section MsgBufferManagement.
Context {H : Type} `{HugeAlloc H}.
Variable cfg : Config.

(** [uninit] stands for the indeterminate contents of the default-constructed
    local on the out-of-memory path. *)
Definition alloc_msg_buffer (uninit : MsgBuffer.t) (max_data_size : Z)
    (huge_alloc : H) (mem : hdr_memory)
  : result (MsgBuffer.t * H * hdr_memory) :=
  assert cfg (0 <? max_data_size) ;;
  let max_num_pkts := data_size_to_num_pkts cfg max_data_size in
  let '(r, huge_alloc') :=
    alloc huge_alloc
      (SizeT.add max_data_size (SizeT.mul max_num_pkts (sizeof_pkthdr cfg))) in
  buffer ← r ;
  if Buffer.buf buffer =? 0 then
    Ok (MsgBuffer.set_buf uninit 0, huge_alloc', mem)
  else
    let '(msg_buffer, mem') :=
      MsgBuffer_of_buffer cfg buffer max_data_size max_num_pkts mem in
    Ok (msg_buffer, huge_alloc', mem').

Definition alloc_msg_buffer_or_die (uninit : MsgBuffer.t) (max_data_size : Z)
    (huge_alloc : H) (mem : hdr_memory)
  : result (MsgBuffer.t * H * hdr_memory) :=
  r ← alloc_msg_buffer uninit max_data_size huge_alloc mem ;
  rt_assert (negb (MsgBuffer.buf r.1.1 =? 0)) ;;
  Ok r.

Definition resize_msg_buffer (msg_buffer : MsgBuffer.t) (new_data_size : Z)
  : result MsgBuffer.t :=
  assert cfg (MsgBuffer.is_valid msg_buffer) ;;
  assert cfg (new_data_size <=? MsgBuffer.max_data_size msg_buffer) ;;
  let new_num_pkts := data_size_to_num_pkts cfg new_data_size in
  Ok (MsgBuffer.resize msg_buffer new_data_size new_num_pkts).

Definition free_msg_buffer (msg_buffer : MsgBuffer.t) (huge_alloc : H) : H :=
  free_buf huge_alloc (MsgBuffer.buffer msg_buffer).

End MsgBufferManagement.

(** A bump allocator over the addresses [base, limit), to run the functions
    on: it returns a null buffer once the region is used up and throws for a
    request above the largest class. *)
Record bump_alloc := { bump_next : Z; bump_limit : Z; bump_max_class : Z }.

Global Instance bump_HugeAlloc : HugeAlloc bump_alloc := {|
  alloc h size :=
    if bump_max_class h <? size then (Throw, h)
    else if bump_limit h <? bump_next h + size then
      (Ok {| Buffer.buf := 0; Buffer.class_size := 0 |}, h)
    else
      (Ok {| Buffer.buf := bump_next h; Buffer.class_size := size |},
       {| bump_next := bump_next h + size; bump_limit := bump_limit h;
          bump_max_class := bump_max_class h |});
  free_buf h _ := h;
|}.

Definition sample_heap : bump_alloc :=
  {| bump_next := 4096; bump_limit := 4096 + 1056; bump_max_class := 8388608 |}.

Definition garbage_msgbuf : MsgBuffer.t :=
  {| MsgBuffer.buffer := {| Buffer.buf := 0; Buffer.class_size := 0 |};
     MsgBuffer.buf := 77; MsgBuffer.max_data_size := 5;
     MsgBuffer.data_size := 5; MsgBuffer.max_num_pkts := 1;
     MsgBuffer.num_pkts := 1 |}.

(** ** Packet headers, session slots, sessions *)

(** Modelled from the spec: the fields of [pkthdr_t] (pkthdr.h is not among
    the sources), as listed in section 3. *)
Module pkthdr.
Record t := {
  req_type : Z;
  msg_size : Z;
  dest_session_num : Z;
  pkt_type : Z;
  pkt_num : Z;
  req_num : Z;
  magic : Z;
}.
End pkthdr.

(** A [SSlot *] or response handle: the session number and the index of the
    slot in that session's [sslot_arr]. *)
Definition sslot_ref : Type := Z * Z.

(** Indexing a [std::vector] or array by a [size_t] *)
Definition at_index {A} (l : list A) (i : Z) : option A :=
  if i <? 0 then None else l !! Z.to_nat i.

Definition set_index {A} (l : list A) (i : Z) (x : A) : list A :=
  if i <? 0 then l else <[Z.to_nat i := x]> l.

(** Modelled from the spec: [enq_req_args_t], the saved arguments of an
    [enqueue_request] call (rpc.h, lines 479-482 name its fields). *)
Module enq_req_args.
Record t := {
  session_num : Z;
  req_type : Z;
  req_msgbuf : MsgBuffer.t;
  resp_msgbuf : Z;
  cont_func : Z;
  tag : Z;
  cont_etid : Z;
}.
End enq_req_args.

(** Modelled from the spec: the client part of [SSlot] (session.h is not among
    the sources); the fields are those rpc.h reads and writes. *)
Module SSlot.
Record client_info_t := {
  num_tx : Z;
  num_rx : Z;
  in_wheel : list bool;        (* bool in_wheel[kSessionCredits] *)
  wheel_count : Z;
  resp_msgbuf : Z;
  cont_func : Z;
  tag : Z;
  cont_etid : Z;
}.

Record t := {
  index : Z;
  session : option Z;          (* Session *, by session number *)
  cur_req_num : Z;
  tx_msgbuf : option MsgBuffer.t;
  client_info : client_info_t;
}.

Definition set_client_info (s : t) (ci : client_info_t) : t :=
  {| index := index s; session := session s; cur_req_num := cur_req_num s;
     tx_msgbuf := tx_msgbuf s; client_info := ci |}.
End SSlot.

Module Session.
Inductive Role := kServer | kClient.
Inductive State :=
| kUninit | kConnectInProgress | kConnected | kDisconnectInProgress
| kDisconnected | kResetInProgress.

Record client_info_t := {
  credits : Z;
  sslot_free_vec : list Z;
  enq_req_backlog : list enq_req_args.t;    (* std::queue: front is the head *)
  num_re_tx : Z;
  cc_rate : Z;                 (* current sending rate *)
  cc_link_rate : Z;            (* the link capacity threshold *)
}.

Record t := {
  role : Role;
  state : State;
  local_session_num : Z;
  client_info : client_info_t;
  sslot_arr : list SSlot.t;
}.

Definition is_client (s : t) : bool :=
  match role s with kClient => true | kServer => false end.

Definition is_connected (s : t) : bool :=
  match state s with kConnected => true | _ => false end.

(** Modelled from the spec: section 4.3, a session is uncongested when its
    sending rate is at least the link capacity threshold. *)
Definition is_uncongested (s : t) : bool :=
  cc_link_rate (client_info s) <=? cc_rate (client_info s).

Definition set_client_info (s : t) (ci : client_info_t) : t :=
  {| role := role s; state := state s;
     local_session_num := local_session_num s;
     client_info := ci; sslot_arr := sslot_arr s |}.

Definition set_sslot_arr (s : t) (a : list SSlot.t) : t :=
  {| role := role s; state := state s;
     local_session_num := local_session_num s;
     client_info := client_info s; sslot_arr := a |}.

Definition set_credits (ci : client_info_t) (c : Z) : client_info_t :=
  {| credits := c; sslot_free_vec := sslot_free_vec ci;
     enq_req_backlog := enq_req_backlog ci; num_re_tx := num_re_tx ci;
     cc_rate := cc_rate ci; cc_link_rate := cc_link_rate ci |}.

Definition set_sslot_free_vec (ci : client_info_t) (v : list Z)
  : client_info_t :=
  {| credits := credits ci; sslot_free_vec := v;
     enq_req_backlog := enq_req_backlog ci; num_re_tx := num_re_tx ci;
     cc_rate := cc_rate ci; cc_link_rate := cc_link_rate ci |}.

Definition set_enq_req_backlog (ci : client_info_t)
    (q : list enq_req_args.t) : client_info_t :=
  {| credits := credits ci; sslot_free_vec := sslot_free_vec ci;
     enq_req_backlog := q; num_re_tx := num_re_tx ci;
     cc_rate := cc_rate ci; cc_link_rate := cc_link_rate ci |}.
End Session.

(** ** Datapath helpers (rpc.h, lines 338-381 and 643-647) *)

(** [in_order_client]: the verdict and the new value of
    [pkt_loss_stats.still_in_wheel_during_retx]. *)
Definition in_order_client (cfg : Config) (sslot : SSlot.t) (hdr : pkthdr.t)
    (still_in_wheel_during_retx : Z) : bool * Z :=
  if negb (pkthdr.req_num hdr =? SSlot.cur_req_num sslot) then
    (false, still_in_wheel_during_retx)
  else
    let ci := SSlot.client_info sslot in
    if negb (pkthdr.pkt_num hdr =? SSlot.num_rx ci) then
      (false, still_in_wheel_during_retx)
    else if SSlot.num_tx ci <=? pkthdr.pkt_num hdr then
      (false, still_in_wheel_during_retx)
    else if kCcPacing cfg &&
            (SSlot.in_wheel ci !!!
               Z.to_nat (SizeT.rem (pkthdr.pkt_num hdr) (kSessionCredits cfg)))
    then (false, SizeT.add still_in_wheel_during_retx 1)
    else (true, still_in_wheel_during_retx).

(** [req_pkts_pending]; a null [tx_msgbuf] has no defined behaviour *)
Definition req_pkts_pending (sslot : SSlot.t) : option bool :=
  m ← SSlot.tx_msgbuf sslot ;
  Some (SSlot.num_tx (SSlot.client_info sslot) <? MsgBuffer.num_pkts m).

(** [can_bypass_wheel]; [session] is the session [sslot->session] points to
    and [hard_wheel_bypass] the fault-injection switch of the endpoint. *)
Definition can_bypass_wheel (cfg : Config) (hard_wheel_bypass : bool)
    (sslot : SSlot.t) (session : Session.t) : bool :=
  if negb (kCcPacing cfg) then true
  else if kTesting cfg then hard_wheel_bypass
  else if kCcOptWheelBypass cfg then
    (SSlot.wheel_count (SSlot.client_info sslot) =? 0) &&
    Session.is_uncongested session
  else false.

(** [bump_credits] *)
Definition bump_credits (cfg : Config) (session : Session.t)
  : result Session.t :=
  assert cfg (Session.is_client session) ;;
  assert cfg (Session.credits (Session.client_info session)
              <? kSessionCredits cfg) ;;
  Ok (Session.set_client_info session
        (Session.set_credits (Session.client_info session)
           (SizeT.add (Session.credits (Session.client_info session)) 1))).

(** ** The timing wheel (rpc.h, lines 580-611) *)

(** Modelled from the spec: the [TimingWheel] of cc/timing_wheel.h is consumed
    as a priority structure over timestamps.  Its contents are the entries
    inserted and not yet released, each a [wheel_ent_t(sslot, pkt_num)] with
    its transmit timestamp. *)
Record wheel_ent := {
  ent_sslot : sslot_ref;
  ent_pkt_num : Z;
  ent_tx_tsc : Z;
}.

Definition wheel_insert (wheel : list wheel_ent) (sslot : sslot_ref)
    (pkt_num desired_tx_tsc : Z) : list wheel_ent :=
  wheel ++ [{| ent_sslot := sslot; ent_pkt_num := pkt_num;
               ent_tx_tsc := desired_tx_tsc |}].

Section Wheel.
Variable cfg : Config.
(** [MsgBuffer::get_pkt_size<kMaxDataPerPkt>] and
    [Session::cc_getupdate_tx_tsc], from headers that are not among the
    sources; they only decide the timestamp of the entry. *)
Variable get_pkt_size : MsgBuffer.t -> Z -> Z.
Variable cc_getupdate_tx_tsc : Session.t -> Z -> Z -> Z.

(** the two assignments that end both enqueue functions *)
Definition mark_in_wheel (sslot : SSlot.t) (pkt_num : Z) : SSlot.t :=
  let ci := SSlot.client_info sslot in
  SSlot.set_client_info sslot
    {| SSlot.num_tx := SSlot.num_tx ci; SSlot.num_rx := SSlot.num_rx ci;
       SSlot.in_wheel :=
         <[Z.to_nat (SizeT.rem pkt_num (kSessionCredits cfg)) := true]>
           (SSlot.in_wheel ci);
       SSlot.wheel_count := SizeT.add (SSlot.wheel_count ci) 1;
       SSlot.resp_msgbuf := SSlot.resp_msgbuf ci;
       SSlot.cont_func := SSlot.cont_func ci; SSlot.tag := SSlot.tag ci;
       SSlot.cont_etid := SSlot.cont_etid ci |}.

(** [enqueue_wheel_req_st(sslot, pkt_num)]: [ref] is the pointer [sslot],
    [session] what [sslot->session] points to, [ref_tsc] the value
    [dpath_rdtsc()] returns. *)
Definition enqueue_wheel_req_st (ref_tsc : Z) (ref : sslot_ref)
    (sslot : SSlot.t) (session : Session.t) (pkt_num : Z)
    (wheel : list wheel_ent) : result (SSlot.t * list wheel_ent) :=
  let pkt_idx := pkt_num in
  tx_msgbuf ← deref (SSlot.tx_msgbuf sslot) ;
  let pktsz := get_pkt_size tx_msgbuf pkt_idx in
  let desired_tx_tsc := cc_getupdate_tx_tsc session ref_tsc pktsz in
  Ok (mark_in_wheel sslot pkt_num,
      wheel_insert wheel ref pkt_num desired_tx_tsc).

(** [enqueue_wheel_rfr_st(sslot, pkt_num)]; [resp_msgbuf] is what
    [sslot->client_info.resp_msgbuf] points to. *)
Definition enqueue_wheel_rfr_st (ref_tsc : Z) (ref : sslot_ref)
    (sslot : SSlot.t) (session : Session.t) (resp_msgbuf : option MsgBuffer.t)
    (pkt_num : Z) (wheel : list wheel_ent)
  : result (SSlot.t * list wheel_ent) :=
  tx_msgbuf ← deref (SSlot.tx_msgbuf sslot) ;
  let pkt_idx := resp_ntoi pkt_num (MsgBuffer.num_pkts tx_msgbuf) in
  resp ← deref resp_msgbuf ;
  let pktsz := get_pkt_size resp pkt_idx in
  let desired_tx_tsc := cc_getupdate_tx_tsc session ref_tsc pktsz in
  Ok (mark_in_wheel sslot pkt_num,
      wheel_insert wheel ref pkt_num desired_tx_tsc).
End Wheel.

(** The pending wheel entries of one slot whose packet number has residue [i]
    modulo the number of session credits. *)
Definition pending_entries (cfg : Config) (wheel : list wheel_ent)
    (ref : sslot_ref) (i : Z) : list wheel_ent :=
  filter (fun e => ent_sslot e = ref /\
                   SizeT.rem (ent_pkt_num e) (kSessionCredits cfg) = i) wheel.

(** The wheel and a slot agree: for each residue the slot's bit is set when
    one entry of the slot with that residue is pending, and clear when none
    is. *)
Definition in_wheel_exact (cfg : Config) (wheel : list wheel_ent)
    (ref : sslot_ref) (sslot : SSlot.t) : Prop :=
  forall i, 0 <= i < kSessionCredits cfg ->
    length (pending_entries cfg wheel ref i) =
    (if (SSlot.in_wheel (SSlot.client_info sslot) !!! Z.to_nat i : bool)
     then 1%nat else 0%nat).

(** ** The endpoint *)

Module Rpc.
Record t := {
  creator_etid : Z;
  session_vec : list (option Session.t);   (* null for a buried session *)
  active_rpcs : list sslot_ref;             (* between the two sentinels *)
  bg_queues_enqueue_request : list enq_req_args.t;
  bg_queues_release_response : list sslot_ref;
}.

Definition set_session_vec (r : t) (v : list (option Session.t)) : t :=
  {| creator_etid := creator_etid r; session_vec := v;
     active_rpcs := active_rpcs r;
     bg_queues_enqueue_request := bg_queues_enqueue_request r;
     bg_queues_release_response := bg_queues_release_response r |}.

Definition set_active_rpcs (r : t) (l : list sslot_ref) : t :=
  {| creator_etid := creator_etid r; session_vec := session_vec r;
     active_rpcs := l;
     bg_queues_enqueue_request := bg_queues_enqueue_request r;
     bg_queues_release_response := bg_queues_release_response r |}.

Definition push_bg_enqueue_request (r : t) (a : enq_req_args.t) : t :=
  {| creator_etid := creator_etid r; session_vec := session_vec r;
     active_rpcs := active_rpcs r;
     bg_queues_enqueue_request := bg_queues_enqueue_request r ++ [a];
     bg_queues_release_response := bg_queues_release_response r |}.

Definition push_bg_release_response (r : t) (h : sslot_ref) : t :=
  {| creator_etid := creator_etid r; session_vec := session_vec r;
     active_rpcs := active_rpcs r;
     bg_queues_enqueue_request := bg_queues_enqueue_request r;
     bg_queues_release_response := bg_queues_release_response r ++ [h] |}.

(** [in_dispatch()], for the calling thread [etid] *)
Definition in_dispatch (r : t) (etid : Z) : bool := etid =? creator_etid r.

Definition get_session (r : t) (session_num : Z) : option Session.t :=
  at_index (session_vec r) session_num ≫= id.

Definition get_sslot (r : t) (ref : sslot_ref) : option SSlot.t :=
  s ← get_session r ref.1 ; at_index (Session.sslot_arr s) ref.2.

Definition put_session (r : t) (session_num : Z) (s : Session.t) : t :=
  set_session_vec r (set_index (session_vec r) session_num (Some s)).

(** [add_to_active_rpc_list]: the slot goes just before the tail sentinel *)
Definition add_to_active_rpc_list (r : t) (ref : sslot_ref) : t :=
  set_active_rpcs r (active_rpcs r ++ [ref]).
End Rpc.

(** ** Requests and the release of responses *)

(** The free-slot stack hands out its top, the last index pushed. *)
Definition pop_back {A} (l : list A) : option (list A * A) :=
  match reverse l with
  | [] => None
  | x :: r => Some (reverse r, x)
  end.

(** A slot taken for a new request: the request number advances by the number
    of session credits, both packet counters restart, the request buffer
    becomes the transmit buffer and the continuation is remembered. *)
Definition start_request (cfg : Config) (args : enq_req_args.t)
    (sslot : SSlot.t) : SSlot.t :=
  let ci := SSlot.client_info sslot in
  {| SSlot.index := SSlot.index sslot;
     SSlot.session := SSlot.session sslot;
     SSlot.cur_req_num :=
       SizeT.add (SSlot.cur_req_num sslot) (kSessionCredits cfg);
     SSlot.tx_msgbuf := Some (enq_req_args.req_msgbuf args);
     SSlot.client_info :=
       {| SSlot.num_tx := 0; SSlot.num_rx := 0;
          SSlot.in_wheel := SSlot.in_wheel ci;
          SSlot.wheel_count := SSlot.wheel_count ci;
          SSlot.resp_msgbuf := enq_req_args.resp_msgbuf args;
          SSlot.cont_func := enq_req_args.cont_func args;
          SSlot.tag := enq_req_args.tag args;
          SSlot.cont_etid := enq_req_args.cont_etid args |} |}.

(** Modelled from the spec: [enqueue_request] is defined in rpc_req.cc, which
    is not among the sources.  Sections 4.4 and 4.8: a call from a background
    thread is handed to the dispatch thread; the session must be connected; if
    no slot is free the arguments go to the back of the session's backlog;
    otherwise a free slot is popped, set up for the request and threaded into
    the active-RPC list.  Writing the packet headers and the transmission
    itself are left out. *)
Definition enqueue_request (cfg : Config) (etid : Z) (args : enq_req_args.t)
    (rpc : Rpc.t) : result Rpc.t :=
  if negb (Rpc.in_dispatch rpc etid) then
    Ok (Rpc.push_bg_enqueue_request rpc args)
  else
    let session_num := enq_req_args.session_num args in
    session ← deref (Rpc.get_session rpc session_num) ;
    assert cfg (Session.is_connected session) ;;
    let ci := Session.client_info session in
    match pop_back (Session.sslot_free_vec ci) with
    | None =>
        Ok (Rpc.put_session rpc session_num
              (Session.set_client_info session
                 (Session.set_enq_req_backlog ci
                    (Session.enq_req_backlog ci ++ [args]))))
    | Some (free_vec', sslot_i) =>
        sslot ← deref (at_index (Session.sslot_arr session) sslot_i) ;
        let session' :=
          Session.set_sslot_arr
            (Session.set_client_info session
               (Session.set_sslot_free_vec ci free_vec'))
            (set_index (Session.sslot_arr session) sslot_i
               (start_request cfg args sslot)) in
        Ok (Rpc.add_to_active_rpc_list
              (Rpc.put_session rpc session_num session')
              (session_num, sslot_i))
    end.

(** [release_response] (rpc.h, lines 461-485), called by thread [etid] *)
Definition release_response (cfg : Config) (etid : Z) (resp_handle : sslot_ref)
    (rpc : Rpc.t) : result Rpc.t :=
  if negb (Rpc.in_dispatch rpc etid) then
    Ok (Rpc.push_bg_release_response rpc resp_handle)
  else
    sslot ← deref (Rpc.get_sslot rpc resp_handle) ;
    assert cfg (bool_decide (SSlot.tx_msgbuf sslot = None)) ;;
    let session_ptr := SSlot.session sslot in
    assert cfg (match session_ptr ≫= Rpc.get_session rpc with
                | Some session => Session.is_client session
                | None => false
                end) ;;
    session_num ← deref session_ptr ;
    session ← deref (Rpc.get_session rpc session_num) ;
    let ci := Session.client_info session in
    let ci1 :=
      Session.set_sslot_free_vec ci
        (Session.sslot_free_vec ci ++ [SSlot.index sslot]) in
    let rpc1 :=
      Rpc.put_session rpc session_num (Session.set_client_info session ci1) in
    match Session.enq_req_backlog ci1 with
    | [] => Ok rpc1
    | args :: _ =>
        assert cfg (length (Session.sslot_free_vec ci1) =? 1)%nat ;;
        rpc2 ← enqueue_request cfg etid args rpc1 ;
        session2 ← deref (Rpc.get_session rpc2 session_num) ;
        let ci2 := Session.client_info session2 in
        Ok (Rpc.put_session rpc2 session_num
              (Session.set_client_info session2
                 (Session.set_enq_req_backlog ci2
                    (tail (Session.enq_req_backlog ci2)))))
    end.

(** ** Session management: the connect-request handler
    (rpc.h, lines 1033-1125, namespace [ERpc]) *)

(** [strcmp]: zero exactly for equal strings, else the sign of the first
    difference. *)
Definition strcmp (a b : string) : Z :=
  match String.compare a b with
  | Eq => 0
  | Lt => -1
  | Gt => 1
  end.

(** a C integer used as a condition *)
Definition truthy (z : Z) : bool := negb (z =? 0).

Module ERpc.
Inductive SessionMgmtPktType :=
| kConnectReq | kConnectResp | kDisconnectReq | kDisconnectResp.

Global Instance SessionMgmtPktType_eq_dec : EqDecision SessionMgmtPktType.
Proof. solve_decision. Defined.

(** Modelled from the spec: the endpoint description carried by a session
    management packet and kept in a session; the handler reads these
    fields. *)
Record SessionMetadata := {
  hostname : string;
  app_tid : Z;
  fdev_port_index : Z;
  session_num : Z;
}.

Record SessionMgmtPkt := {
  pkt_type : SessionMgmtPktType;
  client : SessionMetadata;
  server : SessionMetadata;
}.

Record Session := {
  s_client : SessionMetadata;
  s_server : SessionMetadata;
}.

(** The endpoint state the handler can reach and what it leaves behind:
    the sessions it obtained with [new], the duplicate notices it printed
    and the session management packets handed to the network. *)
Record Rpc := {
  rpc_app_tid : Z;
  nexus_hostname : string;
  session_vec : list Session;
  new_sessions : list Session;
  dup_notices : list Session;
  sm_pkts_sent : list SessionMgmtPkt;
}.

Definition add_new_session (r : Rpc) (s : Session) : Rpc :=
  {| rpc_app_tid := rpc_app_tid r; nexus_hostname := nexus_hostname r;
     session_vec := session_vec r;
     new_sessions := new_sessions r ++ [s];
     dup_notices := dup_notices r; sm_pkts_sent := sm_pkts_sent r |}.

Definition add_dup_notice (r : Rpc) (s : Session) : Rpc :=
  {| rpc_app_tid := rpc_app_tid r; nexus_hostname := nexus_hostname r;
     session_vec := session_vec r;
     new_sessions := new_sessions r;
     dup_notices := dup_notices r ++ [s]; sm_pkts_sent := sm_pkts_sent r |}.

(** the test of the loop at line 1091 *)
Definition is_existing (existing_session : Session) (pkt : SessionMgmtPkt)
  : bool :=
  truthy (strcmp (hostname (s_client existing_session))
                 (hostname (client pkt))) &&
  (app_tid (s_client existing_session) =? app_tid (client pkt)).

(** The loop over [session_vec]: [Ok (Some s)] when it returns from the
    handler at session [s], [Ok None] when it runs to its end. *)
Fixpoint find_existing (cfg : Config) (sessions : list Session)
    (pkt : SessionMgmtPkt) : result (option Session) :=
  match sessions with
  | [] => Ok None
  | existing_session :: rest =>
      if is_existing existing_session pkt then
        assert cfg (session_num (s_client existing_session)
                    =? session_num (client pkt)) ;;
        Ok (Some existing_session)
      else find_existing cfg rest pkt
  end.

(** [handle_session_connect_req(pkt)]; [None] is a null [pkt].  The result
    of [is_fdev_port_managed] selects an empty statement and is left out. *)
Definition handle_session_connect_req (cfg : Config)
    (pkt : option SessionMgmtPkt) (rpc : Rpc) : result Rpc :=
  assert cfg (bool_decide (is_Some pkt)) ;;
  pkt ← deref pkt ;
  assert cfg (bool_decide (pkt_type pkt = kConnectReq)) ;;
  assert cfg (app_tid (server pkt) =? rpc_app_tid rpc) ;;
  assert cfg (truthy (strcmp (hostname (server pkt))
                             (nexus_hostname rpc))) ;;
  found ← find_existing cfg (session_vec rpc) pkt ;
  match found with
  | Some existing_session => Ok (add_dup_notice rpc existing_session)
  | None =>
      Ok (add_new_session rpc
            {| s_client := client pkt; s_server := server pkt |})
  end.
End ERpc.

(** A sample build: an 8 MB largest allocation class, 1 KB of data per packet,
    16-byte headers, 14 packet-number bits, 24 message-size bits and 8 credits
    per session. *)
Definition sample_config : Config := {|
  NDEBUG := false;
  kTesting := false;
  kCcPacing := true;
  kCcOptWheelBypass := true;
  kSessionCredits := 8;
  kMaxDataPerPkt := 1024;
  sizeof_pkthdr := 16;
  kMaxClassSize := 8 * 1024 * 1024;
  kPktNumBits := 14;
  kMsgSizeBits := 24;
  kPktHdrMagic := 11;
|}.

(** A build with pacing, in testing mode or not, with the wheel-bypass
    optimisation or not. *)
Definition pacing_config (testing opt : bool) : Config := {|
  NDEBUG := false;
  kTesting := testing;
  kCcPacing := true;
  kCcOptWheelBypass := opt;
  kSessionCredits := 8;
  kMaxDataPerPkt := 1024;
  sizeof_pkthdr := 16;
  kMaxClassSize := 8 * 1024 * 1024;
  kPktNumBits := 14;
  kMsgSizeBits := 24;
  kPktHdrMagic := 11;
|}.

(** Slot 0 of session 0, its response received, with [wheel_count] packets
    in the wheel. *)
Definition sample_sslot (wheel_count : Z) : SSlot.t := {|
  SSlot.index := 0;
  SSlot.session := Some 0;
  SSlot.cur_req_num := 8;
  SSlot.tx_msgbuf := None;
  SSlot.client_info :=
    {| SSlot.num_tx := 1; SSlot.num_rx := 1;
       SSlot.in_wheel := replicate 8 false;
       SSlot.wheel_count := wheel_count;
       SSlot.resp_msgbuf := 0; SSlot.cont_func := 0; SSlot.tag := 0;
       SSlot.cont_etid := 0 |};
|}.

(** A connected client session with that one slot, a sending rate against a
    link threshold of 100, and the given backlog and free slots. *)
Definition sample_session (rate : Z) (backlog : list enq_req_args.t)
    (free_vec : list Z) : Session.t := {|
  Session.role := Session.kClient;
  Session.state := Session.kConnected;
  Session.local_session_num := 0;
  Session.client_info :=
    {| Session.credits := 8; Session.sslot_free_vec := free_vec;
       Session.enq_req_backlog := backlog; Session.num_re_tx := 0;
       Session.cc_rate := rate; Session.cc_link_rate := 100 |};
  Session.sslot_arr := [sample_sslot 0];
|}.

Definition sample_args (tag : Z) : enq_req_args.t := {|
  enq_req_args.session_num := 0;
  enq_req_args.req_type := 1;
  enq_req_args.req_msgbuf := garbage_msgbuf;
  enq_req_args.resp_msgbuf := 0;
  enq_req_args.cont_func := 0;
  enq_req_args.tag := tag;
  enq_req_args.cont_etid := 0;
|}.

(** An endpoint created by thread 0 that holds that session with two
    requests waiting. *)
Definition sample_rpc : Rpc.t := {|
  Rpc.creator_etid := 0;
  Rpc.session_vec :=
    [Some (sample_session 100 [sample_args 41; sample_args 42] [])];
  Rpc.active_rpcs := [];
  Rpc.bg_queues_enqueue_request := [];
  Rpc.bg_queues_release_response := [];
|}.

(** The same build with assertions compiled out. *)
Definition release_config : Config := {|
  NDEBUG := true;
  kTesting := false;
  kCcPacing := true;
  kCcOptWheelBypass := true;
  kSessionCredits := 8;
  kMaxDataPerPkt := 1024;
  sizeof_pkthdr := 16;
  kMaxClassSize := 8 * 1024 * 1024;
  kPktNumBits := 14;
  kMsgSizeBits := 24;
  kPktHdrMagic := 11;
|}.

(** A server endpoint that already holds the session of client thread 7 on
    host "alpha", and that client's connect request arriving once more. *)
Definition alpha_client : ERpc.SessionMetadata := {|
  ERpc.hostname := "alpha";
  ERpc.app_tid := 7;
  ERpc.fdev_port_index := 0;
  ERpc.session_num := 3;
|}.

Definition beta_server : ERpc.SessionMetadata := {|
  ERpc.hostname := "beta";
  ERpc.app_tid := 1;
  ERpc.fdev_port_index := 0;
  ERpc.session_num := 0;
|}.

Definition alpha_session : ERpc.Session :=
  {| ERpc.s_client := alpha_client; ERpc.s_server := beta_server |}.

Definition beta_rpc : ERpc.Rpc := {|
  ERpc.rpc_app_tid := 1;
  ERpc.nexus_hostname := "beta";
  ERpc.session_vec := [alpha_session];
  ERpc.new_sessions := [];
  ERpc.dup_notices := [];
  ERpc.sm_pkts_sent := [];
|}.

(** The same endpoint before any session exists. *)
Definition fresh_beta_rpc : ERpc.Rpc := {|
  ERpc.rpc_app_tid := 1;
  ERpc.nexus_hostname := "beta";
  ERpc.session_vec := [];
  ERpc.new_sessions := [];
  ERpc.dup_notices := [];
  ERpc.sm_pkts_sent := [];
|}.

Definition repeated_connect_req : ERpc.SessionMgmtPkt := {|
  ERpc.pkt_type := ERpc.kConnectReq;
  ERpc.client := alpha_client;
  ERpc.server := beta_server;
|}.

(** ** Receive-ring entries (rpc.h, lines 312-327 and 774-777)

    [avail] is the endpoint's [ring_entries_available] and [kNumRxRingEntries]
    the transport's constant of that name. *)

Definition have_ring_entries (cfg : Config) (avail : Z) : bool :=
  kSessionCredits cfg <=? avail.

Definition alloc_ring_entries (cfg : Config) (avail : Z) : result Z :=
  assert cfg (have_ring_entries cfg avail) ;;
  Ok (SizeT.sub avail (kSessionCredits cfg)).

Definition free_ring_entries (cfg : Config) (kNumRxRingEntries avail : Z)
  : result Z :=
  let avail' := SizeT.add avail (kSessionCredits cfg) in
  assert cfg (avail' <=? kNumRxRingEntries) ;;
  Ok avail'.

Definition get_max_num_sessions (cfg : Config) (kNumRxRingEntries : Z) : Z :=
  SizeT.div kNumRxRingEntries (kSessionCredits cfg).

(** [n] sessions taking their ring entries one after the other *)
Fixpoint alloc_ring_entries_n (cfg : Config) (n : nat) (avail : Z)
  : result Z :=
  match n with
  | O => Ok avail
  | S n' =>
      avail' ← alloc_ring_entries cfg avail ;
      alloc_ring_entries_n cfg n' avail'
  end.

(** ** Copying packet data (rpc.h, lines 649-655) *)

(** [memcpy(&dst[offset], src, n)] on byte sequences: [dst] and [src] are the
    two memory regions to the end of their allocations; a copy that leaves
    either has no defined behaviour. *)
Definition memcpy (dst : list Z) (offset : Z) (src : list Z) (n : Z)
  : result (list Z) :=
  if (Z.of_nat (length src) <? n) || (Z.of_nat (length dst) <? offset + n)
  then Undefined
  else Ok (take (Z.to_nat offset) dst ++ take (Z.to_nat n) src
           ++ drop (Z.to_nat (offset + n)) dst).

(** [copy_data_to_msgbuf(msgbuf, pkt_idx, pkthdr)]: [payload] is the memory at
    [msgbuf->buf], [msg_size] the header's field, [pkt_data] the bytes that
    follow the header in the receive buffer. *)
Definition copy_data_to_msgbuf (cfg : Config) (payload : list Z) (pkt_idx : Z)
    (msg_size : Z) (pkt_data : list Z) : result (list Z) :=
  let offset := SizeT.mul pkt_idx (kMaxDataPerPkt cfg) in
  let to_copy :=
    Z.min (kMaxDataPerPkt cfg) (SizeT.sub msg_size offset) in
  memcpy payload offset pkt_data to_copy.

(** The packets of a message copied one after the other, starting at packet
    index [pkt_idx]. *)
Fixpoint copy_pkts (cfg : Config) (payload : list Z) (msg_size pkt_idx : Z)
    (pkts : list (list Z)) : result (list Z) :=
  match pkts with
  | [] => Ok payload
  | pkt_data :: rest =>
      payload' ← copy_data_to_msgbuf cfg payload pkt_idx msg_size pkt_data ;
      copy_pkts cfg payload' msg_size (pkt_idx + 1) rest
  end.

(** The data bytes of a message that belong to packet [pkt_idx]. *)
Definition pkt_chunk (cfg : Config) (data : list Z) (pkt_idx : Z) : list Z :=
  take (Z.to_nat (kMaxDataPerPkt cfg))
    (drop (Z.to_nat (pkt_idx * kMaxDataPerPkt cfg)) data).

(** A build with four data bytes per packet, to run the copy functions on. *)
Definition tiny_config : Config := {|
  NDEBUG := false;
  kTesting := false;
  kCcPacing := true;
  kCcOptWheelBypass := true;
  kSessionCredits := 8;
  kMaxDataPerPkt := 4;
  sizeof_pkthdr := 2;
  kMaxClassSize := 64;
  kPktNumBits := 14;
  kMsgSizeBits := 24;
  kPktHdrMagic := 11;
|}.

(** ** The TX batch (rpc.h, lines 383-388 and 514-635) *)

(** The transport's constants and the congestion-control switches the batch
    code reads. *)
Record TxConfig := {
  kPostlist : Z;                 (* TTr::kPostlist *)
  kCcRTT : bool;
  kCcOptBatchTsc : bool;
}.

(** [Transport::tx_burst_item_t], with the fields rpc.h assigns; [tx_ts] is a
    pointer to a [size_t], [0] for null. *)
Module tx_burst_item.
Record t := {
  routing_info : Z;
  msg_buffer : option MsgBuffer.t;
  pkt_idx : Z;
  tx_ts : Z;
  drop : bool;
}.

Definition set_packet (item : t) (ri : Z) (m : option MsgBuffer.t) (idx : Z)
  : t :=
  {| routing_info := ri; msg_buffer := m; pkt_idx := idx;
     tx_ts := tx_ts item; drop := drop item |}.

Definition set_tx_ts (item : t) (p : Z) : t :=
  {| routing_info := routing_info item; msg_buffer := msg_buffer item;
     pkt_idx := pkt_idx item; tx_ts := p; drop := drop item |}.

Definition set_drop (item : t) (d : bool) : t :=
  {| routing_info := routing_info item; msg_buffer := msg_buffer item;
     pkt_idx := pkt_idx item; tx_ts := tx_ts item; drop := d |}.
End tx_burst_item.

(** The transport is an external collaborator: the calls made to it are
    recorded, a burst with the items it was given. *)
Inductive transport_call :=
| tx_burst (items : list tx_burst_item.t)
| tx_flush.

(** The members of the endpoint the batch code touches, the clock readings
    and random numbers drawn so far, and the [size_t] slots that [tx_ts]
    pointers address. *)
Module Tx.
Record t := {
  tx_burst_arr : list tx_burst_item.t;
  tx_batch_i : Z;
  transport_calls : list transport_call;
  tsc_reads : nat;
  tsc_slots : gmap Z Z;
  rand_reads : nat;
  pkt_drop_thresh_billion : Z;
  pkthdr_tx_queue : list pkthdr.t;
  tx_burst_calls : Z;
  pkts_tx : Z;
}.

Definition set_batch (st : t) (arr : list tx_burst_item.t) (i : Z) : t :=
  {| tx_burst_arr := arr; tx_batch_i := i;
     transport_calls := transport_calls st; tsc_reads := tsc_reads st;
     tsc_slots := tsc_slots st; rand_reads := rand_reads st;
     pkt_drop_thresh_billion := pkt_drop_thresh_billion st;
     pkthdr_tx_queue := pkthdr_tx_queue st;
     tx_burst_calls := tx_burst_calls st; pkts_tx := pkts_tx st |}.

Definition add_transport_call (st : t) (c : transport_call) : t :=
  {| tx_burst_arr := tx_burst_arr st; tx_batch_i := tx_batch_i st;
     transport_calls := transport_calls st ++ [c];
     tsc_reads := tsc_reads st;
     tsc_slots := tsc_slots st; rand_reads := rand_reads st;
     pkt_drop_thresh_billion := pkt_drop_thresh_billion st;
     pkthdr_tx_queue := pkthdr_tx_queue st;
     tx_burst_calls := tx_burst_calls st; pkts_tx := pkts_tx st |}.

Definition set_tsc (st : t) (reads : nat) (slots : gmap Z Z) : t :=
  {| tx_burst_arr := tx_burst_arr st; tx_batch_i := tx_batch_i st;
     transport_calls := transport_calls st; tsc_reads := reads;
     tsc_slots := slots; rand_reads := rand_reads st;
     pkt_drop_thresh_billion := pkt_drop_thresh_billion st;
     pkthdr_tx_queue := pkthdr_tx_queue st;
     tx_burst_calls := tx_burst_calls st; pkts_tx := pkts_tx st |}.

Definition set_testing (st : t) (reads : nat) (q : list pkthdr.t) : t :=
  {| tx_burst_arr := tx_burst_arr st; tx_batch_i := tx_batch_i st;
     transport_calls := transport_calls st; tsc_reads := tsc_reads st;
     tsc_slots := tsc_slots st; rand_reads := reads;
     pkt_drop_thresh_billion := pkt_drop_thresh_billion st;
     pkthdr_tx_queue := q;
     tx_burst_calls := tx_burst_calls st; pkts_tx := pkts_tx st |}.

Definition set_stats (st : t) (calls pkts : Z) : t :=
  {| tx_burst_arr := tx_burst_arr st; tx_batch_i := tx_batch_i st;
     transport_calls := transport_calls st; tsc_reads := tsc_reads st;
     tsc_slots := tsc_slots st; rand_reads := rand_reads st;
     pkt_drop_thresh_billion := pkt_drop_thresh_billion st;
     pkthdr_tx_queue := pkthdr_tx_queue st;
     tx_burst_calls := calls; pkts_tx := pkts |}.

(** The packets accepted for transmission so far, in the order the transport
    is given them: those of the bursts made, then those waiting in the
    batch. *)
Definition burst_items (c : transport_call) : list tx_burst_item.t :=
  match c with tx_burst items => items | tx_flush => [] end.

Definition accepted (st : t) : list tx_burst_item.t :=
  concat (map burst_items (transport_calls st))
  ++ take (Z.to_nat (tx_batch_i st)) (tx_burst_arr st).
End Tx.

(** [roll_pkt_drop] on the value [fast_rand.next_u32()] returned *)
Definition roll_pkt_drop (next_u32 pkt_drop_thresh_billion : Z) : bool :=
  SizeT.rem next_u32 1000000000 <? pkt_drop_thresh_billion.

Section TxBatch.
Variable cfg : Config.
Variable txc : TxConfig.
(** The clock and the random generator: the value of the [k]-th reading. *)
Variable dpath_rdtsc : nat -> Z.
Variable next_u32 : nat -> Z.
(** Methods of [MsgBuffer] and [Session], the push of the testing queue and
    the statistics macro, all from headers that are not among the sources. *)
Variable is_req is_resp is_expl_cr is_rfr : MsgBuffer.t -> bool.
Variable get_pkthdr_n : MsgBuffer.t -> Z -> pkthdr.t.
Variable remote_routing_info : Session.t -> Z.
Variable queue_push : list pkthdr.t -> pkthdr.t -> list pkthdr.t.
Variable dpath_stat_inc : Z -> Z -> Z.

(** the timestamp loop of [do_tx_burst_st] over the first [tx_batch_i] items *)
Fixpoint stamp_items (batch_tsc : Z) (items : list tx_burst_item.t)
    (reads : nat) (slots : gmap Z Z) : nat * gmap Z Z :=
  match items with
  | [] => (reads, slots)
  | item :: rest =>
      if tx_burst_item.tx_ts item =? 0 then
        stamp_items batch_tsc rest reads slots
      else if kCcOptBatchTsc txc then
        stamp_items batch_tsc rest reads
          (<[tx_burst_item.tx_ts item := batch_tsc]> slots)
      else
        stamp_items batch_tsc rest (S reads)
          (<[tx_burst_item.tx_ts item := dpath_rdtsc reads]> slots)
  end.

Definition do_tx_burst_st (in_dispatch : bool) (st : Tx.t) : result Tx.t :=
  assert cfg in_dispatch ;;
  assert cfg (0 <? Tx.tx_batch_i st) ;;
  let st1 :=
    Tx.set_stats st (dpath_stat_inc (Tx.tx_burst_calls st) 1)
      (dpath_stat_inc (Tx.pkts_tx st) (Tx.tx_batch_i st)) in
  let batch := take (Z.to_nat (Tx.tx_batch_i st1)) (Tx.tx_burst_arr st1) in
  let st2 :=
    if kCcRTT txc then
      let '(batch_tsc, reads) :=
        if kCcOptBatchTsc txc
        then (dpath_rdtsc (Tx.tsc_reads st1), S (Tx.tsc_reads st1))
        else (0, Tx.tsc_reads st1) in
      let '(reads', slots') :=
        stamp_items batch_tsc batch reads (Tx.tsc_slots st1) in
      Tx.set_tsc st1 reads' slots'
    else st1 in
  let st3 := Tx.add_transport_call st2 (tx_burst batch) in
  Ok (Tx.set_batch st3 (Tx.tx_burst_arr st3) 0).

(** What both enqueue functions do with the item at [tx_batch_i], once they
    have the message buffer pointer and the packet index. *)
Definition fill_item (msg_buffer : option MsgBuffer.t) (pkt_idx tx_ts : Z)
    (session : Session.t) (in_dispatch : bool) (st : Tx.t) : result Tx.t :=
  item ← deref (at_index (Tx.tx_burst_arr st) (Tx.tx_batch_i st)) ;
  let item1 :=
    tx_burst_item.set_packet item (remote_routing_info session) msg_buffer
      pkt_idx in
  let item2 :=
    if kCcRTT txc then tx_burst_item.set_tx_ts item1 tx_ts else item1 in
  '(item3, st1) ←
    (if kTesting cfg then
       let d := roll_pkt_drop (next_u32 (Tx.rand_reads st))
                  (Tx.pkt_drop_thresh_billion st) in
       m ← deref msg_buffer ;
       Ok (tx_burst_item.set_drop item2 d,
           Tx.set_testing st (S (Tx.rand_reads st))
             (queue_push (Tx.pkthdr_tx_queue st) (get_pkthdr_n m pkt_idx)))
     else Ok (item2, st)) ;
  let st2 :=
    Tx.set_batch st1
      (set_index (Tx.tx_burst_arr st1) (Tx.tx_batch_i st1) item3)
      (SizeT.add (Tx.tx_batch_i st1) 1) in
  if Tx.tx_batch_i st2 =? kPostlist txc
  then do_tx_burst_st in_dispatch st2
  else Ok st2.

(** the assertion on the kind of the buffer, which reads its zeroth header *)
Definition assert_kind (kind : MsgBuffer.t -> bool)
    (msg_buffer : option MsgBuffer.t) : result unit :=
  if NDEBUG cfg then Ok tt
  else m ← deref msg_buffer ; if kind m then Ok tt else AssertFail.

(** [enqueue_pkt_tx_burst_st(sslot, pkt_idx, tx_ts)]; [sslot] and [session]
    are what the pointers [sslot] and [sslot->session] address. *)
Definition enqueue_pkt_tx_burst_st (in_dispatch : bool) (sslot : SSlot.t)
    (session : Session.t) (pkt_idx tx_ts : Z) (st : Tx.t) : result Tx.t :=
  assert cfg in_dispatch ;;
  let tx_msgbuf := SSlot.tx_msgbuf sslot in
  assert_kind (fun m => is_req m || is_resp m) tx_msgbuf ;;
  fill_item tx_msgbuf pkt_idx tx_ts session in_dispatch st.

(** [enqueue_hdr_tx_burst_st(sslot, ctrl_msgbuf, tx_ts)] *)
Definition enqueue_hdr_tx_burst_st (in_dispatch : bool)
    (session : Session.t) (ctrl_msgbuf : option MsgBuffer.t) (tx_ts : Z)
    (st : Tx.t) : result Tx.t :=
  assert cfg in_dispatch ;;
  assert_kind (fun m => is_expl_cr m || is_rfr m) ctrl_msgbuf ;;
  fill_item ctrl_msgbuf 0 tx_ts session in_dispatch st.

(** [drain_tx_batch_and_dma_queue] *)
Definition drain_tx_batch_and_dma_queue (in_dispatch : bool) (st : Tx.t)
  : result Tx.t :=
  st1 ← (if 0 <? Tx.tx_batch_i st then do_tx_burst_st in_dispatch st
          else Ok st) ;
  Ok (Tx.add_transport_call st1 tx_flush).

End TxBatch.

(** The batch array has [kPostlist] items and [tx_batch_i] is an index of
    it. *)
Definition batch_ok (txc : TxConfig) (st : Tx.t) : Prop :=
  Z.of_nat (length (Tx.tx_burst_arr st)) = kPostlist txc /\
  0 <= Tx.tx_batch_i st < kPostlist txc.

(** A batch of two items with RTT timestamps taken once per burst, and an
    endpoint state with that batch empty. *)
Definition sample_txc : TxConfig :=
  {| kPostlist := 2; kCcRTT := true; kCcOptBatchTsc := true |}.

Definition blank_item : tx_burst_item.t :=
  {| tx_burst_item.routing_info := 0; tx_burst_item.msg_buffer := None;
     tx_burst_item.pkt_idx := 0; tx_burst_item.tx_ts := 0;
     tx_burst_item.drop := false |}.

Definition sample_tx : Tx.t := {|
  Tx.tx_burst_arr := [blank_item; blank_item];
  Tx.tx_batch_i := 0;
  Tx.transport_calls := [];
  Tx.tsc_reads := 0;
  Tx.tsc_slots := ∅;
  Tx.rand_reads := 0;
  Tx.pkt_drop_thresh_billion := 0;
  Tx.pkthdr_tx_queue := [];
  Tx.tx_burst_calls := 0;
  Tx.pkts_tx := 0;
|}.

(** The same state with one packet waiting whose timestamp goes to slot 64. *)
Definition sample_tx_waiting : Tx.t := {|
  Tx.tx_burst_arr :=
    [tx_burst_item.set_tx_ts
       (tx_burst_item.set_packet blank_item 9 (Some garbage_msgbuf) 0) 64;
     blank_item];
  Tx.tx_batch_i := 1;
  Tx.transport_calls := [];
  Tx.tsc_reads := 0;
  Tx.tsc_slots := ∅;
  Tx.rand_reads := 0;
  Tx.pkt_drop_thresh_billion := 0;
  Tx.pkthdr_tx_queue := [];
  Tx.tx_burst_calls := 0;
  Tx.pkts_tx := 0;
|}.

Definition blank_pkthdr : pkthdr.t :=
  {| pkthdr.req_type := 0; pkthdr.msg_size := 0; pkthdr.dest_session_num := 0;
     pkthdr.pkt_type := 0; pkthdr.pkt_num := 0; pkthdr.req_num := 0;
     pkthdr.magic := 0 |}.

(** ** The active-RPC list as linked in memory (rpc.h, lines 390-405 and
    949-954)

    A node is a session slot or one of the two sentinels, named by its
    address; the heap holds the [prev] and [next] members of each node's
    [client_info]. *)
Module ActiveList.

Record links := { prev : Z; next : Z }.

Abbreviation heap := (gmap Z links).

Definition get_prev (h : heap) (a : Z) : result Z :=
  l ← deref (h !! a) ; Ok (prev l).

Definition get_next (h : heap) (a : Z) : result Z :=
  l ← deref (h !! a) ; Ok (next l).

Definition set_prev (h : heap) (a v : Z) : result heap :=
  l ← deref (h !! a) ; Ok (<[a := {| prev := v; next := next l |}]> h).

Definition set_next (h : heap) (a v : Z) : result heap :=
  l ← deref (h !! a) ; Ok (<[a := {| prev := prev l; next := v |}]> h).

(** [add_to_active_rpc_list(sslot)]; [tail] is the address of
    [active_rpcs_tail_sentinel] *)
Definition add_to_active_rpc_list (tail sslot : Z) (h : heap) : result heap :=
  prev_tail ← get_prev h tail ;
  h1 ← set_next h prev_tail sslot ;
  h2 ← set_prev h1 sslot prev_tail ;
  h3 ← set_next h2 sslot tail ;
  set_prev h3 tail sslot.

(** [delete_from_active_rpc_list(sslot)]: two assignments, each reading the
    slot's members before it writes *)
Definition delete_from_active_rpc_list (sslot : Z) (h : heap) : result heap :=
  p ← get_prev h sslot ;
  n ← get_next h sslot ;
  h1 ← set_next h p n ;
  n' ← get_next h1 sslot ;
  p' ← get_prev h1 sslot ;
  set_prev h1 n' p'.

(** The list the links describe: from [a], following [next] through the
    nodes of [l] to [tail], with every [prev] pointing back. *)
Definition nxt (h : heap) (a : Z) : option Z := next <$> h !! a.
Definition prv (h : heap) (a : Z) : option Z := prev <$> h !! a.

Definition linked (h : heap) (a b : Z) : Prop :=
  nxt h a = Some b /\ prv h b = Some a.

Fixpoint chain (h : heap) (a : Z) (l : list Z) (tail : Z) : Prop :=
  match l with
  | [] => linked h a tail
  | b :: l' => linked h a b /\ chain h b l' tail
  end.

Definition is_active_list (h : heap) (root tail : Z) (l : list Z) : Prop :=
  NoDup (root :: l ++ [tail]) /\ chain h root l tail.

End ActiveList.

(** Two sentinels at addresses 1 and 2 and a slot at address 10 that is not
    in the list. *)
Definition sample_links : gmap Z ActiveList.links :=
  <[1 := {| ActiveList.prev := 0; ActiveList.next := 2 |}]>
    (<[2 := {| ActiveList.prev := 1; ActiveList.next := 0 |}]>
       (<[10 := {| ActiveList.prev := 0; ActiveList.next := 0 |}]> ∅)).

(** The same list with the slots at addresses 10 and 11 active *)
Definition sample_links_busy : gmap Z ActiveList.links :=
  <[1 := {| ActiveList.prev := 0; ActiveList.next := 10 |}]>
    (<[10 := {| ActiveList.prev := 1; ActiveList.next := 11 |}]>
       (<[11 := {| ActiveList.prev := 10; ActiveList.next := 2 |}]>
          (<[2 := {| ActiveList.prev := 11; ActiveList.next := 0 |}]> ∅))).

(** ** Session management events (rpc.h, lines 1041-1073) *)

Module SmHook.
(** Modelled from the spec: the type of the [sm_hook] member, shared with the
    Nexus, is declared outside the sources; the fields are the three that
    [handle_session_management] reads and writes.  The mutex is [true] while
    it is held. *)
Record t := {
  session_mgmt_ev_counter : Z;
  session_mgmt_mutex : bool;
  session_mgmt_pkt_list : list (option ERpc.SessionMgmtPkt);
}.

(** [session_mgmt_mutex.lock()]: locking a mutex the thread already holds
    has no defined behaviour *)
Definition lock (h : t) : result t :=
  if session_mgmt_mutex h then Undefined
  else Ok {| session_mgmt_ev_counter := session_mgmt_ev_counter h;
             session_mgmt_mutex := true;
             session_mgmt_pkt_list := session_mgmt_pkt_list h |}.

Definition unlock (h : t) : t :=
  {| session_mgmt_ev_counter := session_mgmt_ev_counter h;
     session_mgmt_mutex := false;
     session_mgmt_pkt_list := session_mgmt_pkt_list h |}.

Definition clear_pkt_list (h : t) : t :=
  {| session_mgmt_ev_counter := session_mgmt_ev_counter h;
     session_mgmt_mutex := session_mgmt_mutex h;
     session_mgmt_pkt_list := [] |}.

Definition set_ev_counter (h : t) (v : Z) : t :=
  {| session_mgmt_ev_counter := v;
     session_mgmt_mutex := session_mgmt_mutex h;
     session_mgmt_pkt_list := session_mgmt_pkt_list h |}.
End SmHook.

(** [handle_session_connect_resp], [handle_session_disconnect_req] and
    [handle_session_disconnect_resp] (lines 1111-1124) only mark their
    argument as unused. *)
Definition handle_session_connect_resp (pkt : option ERpc.SessionMgmtPkt)
    (rpc : ERpc.Rpc) : result ERpc.Rpc := Ok rpc.

(** The body of the loop of [handle_session_management] for one entry of the
    list; the second component collects the packets given to [free]. *)
Definition handle_sm_pkt (cfg : Config)
    (st : ERpc.Rpc * list ERpc.SessionMgmtPkt)
    (sm_pkt : option ERpc.SessionMgmtPkt)
  : result (ERpc.Rpc * list ERpc.SessionMgmtPkt) :=
  let '(rpc, freed) := st in
  pkt ← deref sm_pkt ;
  rpc' ← match ERpc.pkt_type pkt with
         | ERpc.kConnectReq => ERpc.handle_session_connect_req cfg sm_pkt rpc
         | ERpc.kConnectResp => handle_session_connect_resp sm_pkt rpc
         | ERpc.kDisconnectReq => handle_session_connect_resp sm_pkt rpc
         | ERpc.kDisconnectResp => handle_session_connect_resp sm_pkt rpc
         end ;
  Ok (rpc', freed ++ [pkt]).

Fixpoint handle_sm_pkts (cfg : Config)
    (pkts : list (option ERpc.SessionMgmtPkt))
    (st : ERpc.Rpc * list ERpc.SessionMgmtPkt)
  : result (ERpc.Rpc * list ERpc.SessionMgmtPkt) :=
  match pkts with
  | [] => Ok st
  | sm_pkt :: rest =>
      st' ← handle_sm_pkt cfg st sm_pkt ;
      handle_sm_pkts cfg rest st'
  end.

(** [handle_session_management()] *)
Definition handle_session_management (cfg : Config)
    (st : ERpc.Rpc * SmHook.t * list ERpc.SessionMgmtPkt)
  : result (ERpc.Rpc * SmHook.t * list ERpc.SessionMgmtPkt) :=
  let '(rpc, sm_hook, freed) := st in
  assert cfg (0 <? SmHook.session_mgmt_ev_counter sm_hook) ;;
  sm_hook ← SmHook.lock sm_hook ;
  '(rpc, freed) ← handle_sm_pkts cfg (SmHook.session_mgmt_pkt_list sm_hook)
                     (rpc, freed) ;
  let sm_hook := SmHook.clear_pkt_list sm_hook in
  let sm_hook := SmHook.set_ev_counter sm_hook 0 in
  Ok (rpc, SmHook.unlock sm_hook, freed).

(** A connect request that meets no session of its client in [sessions], as
    the loop at line 1090 tests it. *)
Definition starts_session (sessions : list ERpc.Session)
    (pkt : ERpc.SessionMgmtPkt) : bool :=
  match ERpc.pkt_type pkt with
  | ERpc.kConnectReq =>
      negb (existsb (fun s => ERpc.is_existing s pkt) sessions)
  | _ => false
  end.

Definition session_of (pkt : ERpc.SessionMgmtPkt) : ERpc.Session :=
  {| ERpc.s_client := ERpc.client pkt; ERpc.s_server := ERpc.server pkt |}.

(** ** Burying server MsgBuffers (rpc.h, lines 161-189) *)

(** Modelled from the spec: [is_dynamic] of msg_buffer.h.  Section 3: a
    MsgBuffer is dynamic when it has a backing allocation and fake when it
    has none; rpc.h, line 185, marks a buried one by a null [buffer.buf]. *)
Definition is_dynamic (m : MsgBuffer.t) : bool :=
  negb (Buffer.buf (MsgBuffer.buffer m) =? 0).

(** the assignment [req_msgbuf.buffer.buf = p] *)
Definition set_buffer_buf (m : MsgBuffer.t) (p : Z) : MsgBuffer.t :=
  {| MsgBuffer.buffer :=
       {| Buffer.buf := p;
          Buffer.class_size := Buffer.class_size (MsgBuffer.buffer m) |};
     MsgBuffer.buf := MsgBuffer.buf m;
     MsgBuffer.max_data_size := MsgBuffer.max_data_size m;
     MsgBuffer.data_size := MsgBuffer.data_size m;
     MsgBuffer.max_num_pkts := MsgBuffer.max_num_pkts m;
     MsgBuffer.num_pkts := MsgBuffer.num_pkts m |}.

(** Modelled from the spec: the server part of [SSlot] (session.h is not among
    the sources); the fields are those the two functions read and write.
    [tx_msgbuf] is a pointer, [None] when null. *)
Module ServerSSlot.
Record t := {
  prealloc_used : bool;
  tx_msgbuf : option MsgBuffer.t;
  req_msgbuf : MsgBuffer.t;              (* server_info.req_msgbuf *)
}.

Definition set_tx_msgbuf (s : t) (m : option MsgBuffer.t) : t :=
  {| prealloc_used := prealloc_used s; tx_msgbuf := m;
     req_msgbuf := req_msgbuf s |}.

Definition set_req_msgbuf (s : t) (m : MsgBuffer.t) : t :=
  {| prealloc_used := prealloc_used s; tx_msgbuf := tx_msgbuf s;
     req_msgbuf := m |}.
End ServerSSlot.

Section Bury.
Context {H : Type} `{HugeAlloc H}.
Variable cfg : Config.

(** [bury_resp_msgbuf_server_st(sslot)]; [in_dispatch] is the value of
    [in_dispatch()] for the caller *)
Definition bury_resp_msgbuf_server_st (in_dispatch : bool)
    (sslot : ServerSSlot.t) (huge_alloc : H) : result (ServerSSlot.t * H) :=
  assert cfg in_dispatch ;;
  huge_alloc ←
    (if negb (ServerSSlot.prealloc_used sslot) then
       tx_msgbuf ← deref (ServerSSlot.tx_msgbuf sslot) ;
       Ok (free_msg_buffer tx_msgbuf huge_alloc)
     else Ok huge_alloc) ;
  Ok (ServerSSlot.set_tx_msgbuf sslot None, huge_alloc).

(** [bury_req_msgbuf_server_st(sslot)] *)
Definition bury_req_msgbuf_server_st (sslot : ServerSSlot.t) (huge_alloc : H)
  : ServerSSlot.t * H :=
  let req_msgbuf := ServerSSlot.req_msgbuf sslot in
  let '(req_msgbuf, huge_alloc) :=
    if is_dynamic req_msgbuf then
      (set_buffer_buf req_msgbuf 0, free_msg_buffer req_msgbuf huge_alloc)
    else (req_msgbuf, huge_alloc) in
  (ServerSSlot.set_req_msgbuf sslot (MsgBuffer.set_buf req_msgbuf 0),
   huge_alloc).
End Bury.

(** An allocator that only records the buffers given back to it, to count
    the calls of [free_buf]. *)
Record free_log := { freed_bufs : list Buffer.t }.

Global Instance free_log_HugeAlloc : HugeAlloc free_log := {|
  alloc h size := (Ok {| Buffer.buf := 0; Buffer.class_size := 0 |}, h);
  free_buf h b := {| freed_bufs := freed_bufs h ++ [b] |};
|}.

Definition sample_dynamic_msgbuf : MsgBuffer.t :=
  {| MsgBuffer.buffer := {| Buffer.buf := 4096; Buffer.class_size := 64 |};
     MsgBuffer.buf := 4112; MsgBuffer.max_data_size := 5;
     MsgBuffer.data_size := 5; MsgBuffer.max_num_pkts := 1;
     MsgBuffer.num_pkts := 1 |}.

Definition sample_server_sslot (prealloc : bool) : ServerSSlot.t :=
  {| ServerSSlot.prealloc_used := prealloc;
     ServerSSlot.tx_msgbuf := Some sample_dynamic_msgbuf;
     ServerSSlot.req_msgbuf := sample_dynamic_msgbuf |}.

(** ** Session accessors (rpc.h, lines 234-257 and 823-827) *)

(** [static_cast<size_t>(session_num)] of an [int] *)
Definition int_to_size_t (n : Z) : Z := SizeT.wrap n.

Definition is_int (n : Z) : Prop := - 2 ^ 31 <= n < 2 ^ 31.

(** [session_vec[static_cast<size_t>(session_num)]] followed by [->]: an index
    past the end and a null entry have no defined behaviour *)
Definition session_at (rpc : Rpc.t) (session_num : Z) : result Session.t :=
  p ← deref (at_index (Rpc.session_vec rpc) (int_to_size_t session_num)) ;
  deref p.

Definition set_num_re_tx (ci : Session.client_info_t) (v : Z)
  : Session.client_info_t :=
  {| Session.credits := Session.credits ci;
     Session.sslot_free_vec := Session.sslot_free_vec ci;
     Session.enq_req_backlog := Session.enq_req_backlog ci;
     Session.num_re_tx := v;
     Session.cc_rate := Session.cc_rate ci;
     Session.cc_link_rate := Session.cc_link_rate ci |}.

(** [is_connected(session_num)] *)
Definition is_connected (rpc : Rpc.t) (session_num : Z) : result bool :=
  session ← session_at rpc session_num ;
  Ok (Session.is_connected session).

(** [get_num_re_tx(session_num)] *)
Definition get_num_re_tx (rpc : Rpc.t) (session_num : Z) : result Z :=
  session ← session_at rpc session_num ;
  Ok (Session.num_re_tx (Session.client_info session)).

(** [reset_num_re_tx(session_num)] *)
Definition reset_num_re_tx (rpc : Rpc.t) (session_num : Z) : result Rpc.t :=
  session ← session_at rpc session_num ;
  Ok (Rpc.put_session rpc (int_to_size_t session_num)
        (Session.set_client_info session
           (set_num_re_tx (Session.client_info session) 0))).

(** [is_usr_session_num_in_range_st(session_num)], called from thread
    [etid] *)
Definition is_usr_session_num_in_range_st (cfg : Config) (rpc : Rpc.t)
    (etid : Z) (session_num : Z) : result bool :=
  assert cfg (Rpc.in_dispatch rpc etid) ;;
  Ok ((0 <=? session_num) &&
      (int_to_size_t session_num <? Z.of_nat (length (Rpc.session_vec rpc)))).

(** An endpoint with a session that saw three retransmissions, a buried
    session and a second live session. *)
Definition sample_rpc_retx : Rpc.t := {|
  Rpc.creator_etid := 0;
  Rpc.session_vec :=
    [Some (Session.set_client_info (sample_session 100 [] [])
             (set_num_re_tx (Session.client_info (sample_session 100 [] []))
                3));
     None;
     Some (sample_session 50 [] [])];
  Rpc.active_rpcs := [];
  Rpc.bg_queues_enqueue_request := [];
  Rpc.bg_queues_release_response := [];
|}.

(** ** Theorems *)

#[local] Set Warnings "-clear-no-such-hyp".

Lemma wrap_small z : SizeT.in_range z -> SizeT.wrap z = z.
Proof. unfold SizeT.in_range, SizeT.wrap. intros. by apply Z.mod_small. Qed.

Lemma wrap_range z : SizeT.in_range (SizeT.wrap z).
Proof.
  unfold SizeT.in_range, SizeT.wrap, SizeT.modulus.
  apply Z.mod_pos_bound. lia.
Qed.

Lemma wrap_le z : 0 <= z -> SizeT.wrap z <= z.
Proof.
  intros. unfold SizeT.wrap, SizeT.modulus. apply Z.mod_le; lia.
Qed.

Lemma ceil_div_spec a b :
  0 < b -> ceil_div a b = (a + b - 1) / b.
Proof.
  intros Hb. unfold ceil_div.
  pose proof (Z.div_mod (- a) b ltac:(lia)) as H1.
  pose proof (Z.mod_pos_bound (- a) b Hb) as H2.
  apply Z.div_unique_pos with (r := b - 1 - (- a) mod b); lia.
Qed.

Lemma ceil_div_bounds a b :
  0 < b -> b * (ceil_div a b - 1) < a <= b * ceil_div a b.
Proof.
  intros Hb. unfold ceil_div.
  pose proof (Z.div_mod (- a) b ltac:(lia)) as H1.
  pose proof (Z.mod_pos_bound (- a) b Hb) as H2.
  lia.
Qed.

Example data_size_to_num_pkts_sample :
  map (data_size_to_num_pkts sample_config) [0; 1; 1024; 1025; 2048; 2049]
  = [1; 1; 1; 2; 2; 3].
Proof. reflexivity. Qed.

Lemma sub_add_one a b :
  SizeT.sub (SizeT.add a b) 1 = SizeT.wrap (a + b - 1).
Proof.
  unfold SizeT.sub, SizeT.add, SizeT.wrap.
  by rewrite Zminus_mod_idemp_l.
Qed.

(** Without wrap-around the source expression is the ceiling, floored at 1. *)
Lemma data_size_to_num_pkts_no_wrap cfg data_size :
  0 < kMaxDataPerPkt cfg ->
  0 <= data_size <= SizeT.modulus - kMaxDataPerPkt cfg ->
  data_size_to_num_pkts cfg data_size = num_pkts_spec cfg data_size.
Proof.
  intros HD Hsz. unfold data_size_to_num_pkts, num_pkts_spec.
  set (D := kMaxDataPerPkt cfg) in *.
  pose proof (ceil_div_bounds data_size D HD) as Hc.
  destruct (Z.leb_spec data_size D) as [Hle | Hgt].
  - assert (ceil_div data_size D <= 1) by nia. lia.
  - rewrite sub_add_one, wrap_small by (unfold SizeT.in_range; lia).
    unfold SizeT.div. rewrite <- ceil_div_spec by done.
    assert (2 <= ceil_div data_size D) by nia. lia.
Qed.

Lemma data_size_to_num_pkts_small cfg data_size :
  data_size <= kMaxDataPerPkt cfg -> data_size_to_num_pkts cfg data_size = 1.
Proof.
  intros Hle. unfold data_size_to_num_pkts.
  by destruct (Z.leb_spec data_size (kMaxDataPerPkt cfg)); [|lia].
Qed.

Lemma alloc_msg_buffer_num_pkts `{HugeAlloc H} cfg uninit max_data_size
    (h h' : H) mem mem' m :
  alloc_msg_buffer cfg uninit max_data_size h mem = Ok (m, h', mem') ->
  MsgBuffer.is_valid m = true ->
  MsgBuffer.num_pkts m = data_size_to_num_pkts cfg max_data_size /\
  MsgBuffer.data_size m = max_data_size /\
  MsgBuffer.max_data_size m = max_data_size.
Proof.
  unfold alloc_msg_buffer. intros Hrun Hvalid.
  destruct (assert cfg (0 <? max_data_size)); simpl in Hrun; try done.
  destruct (alloc h _) as [[b | | |] h1]; simpl in Hrun; try done.
  destruct (Buffer.buf b =? 0) eqn:Hnull.
  - injection Hrun as <- <- <-. unfold MsgBuffer.is_valid in Hvalid. done.
  - by injection Hrun as <- <- <-.
Qed.

Lemma resize_msg_buffer_num_pkts cfg m new_data_size m' :
  resize_msg_buffer cfg m new_data_size = Ok m' ->
  MsgBuffer.num_pkts m' = data_size_to_num_pkts cfg new_data_size /\
  MsgBuffer.data_size m' = new_data_size.
Proof.
  unfold resize_msg_buffer. intros Hrun.
  destruct (assert cfg (MsgBuffer.is_valid m)); simpl in Hrun; try done.
  destruct (assert cfg (new_data_size <=? _)); simpl in Hrun; try done.
  by injection Hrun as <-.
Qed.

(** C3, as stated, fails: the claim is for every [data_size], and for a
    [data_size] within [kMaxDataPerPkt - 1] of the largest [size_t] the sum
    [data_size + kMaxDataPerPkt - 1] wraps around.  With 1024 data bytes per
    packet, [data_size_to_num_pkts (2^64 - 1)] is 0, neither the ceiling
    (2^54) nor at least 1. *)
Lemma data_size_to_num_pkts_wraps :
  data_size_to_num_pkts sample_config (2 ^ 64 - 1) = 0 /\
  num_pkts_spec sample_config (2 ^ 64 - 1) = 2 ^ 54 /\
  data_size_to_num_pkts sample_config (2 ^ 64 - 1)
    <> num_pkts_spec sample_config (2 ^ 64 - 1).
Proof. by vm_compute. Qed.

(** C3, amended: for every [data_size] of at most [2^64 - kMaxDataPerPkt]
    (every size for which [data_size + kMaxDataPerPkt - 1] is a [size_t]),
    [data_size_to_num_pkts data_size] is the ceiling of
    [data_size / kMaxDataPerPkt] with a floor of 1; it is 1 for every
    [data_size] from 0 up to and including [kMaxDataPerPkt]; and it is the
    [num_pkts] of the MsgBuffer that [alloc_msg_buffer] returns for that
    maximum data size and of the one [resize_msg_buffer] leaves for that new
    data size. *)
Theorem data_size_to_num_pkts_is_ceiling `{HugeAlloc H} cfg data_size :
  0 < kMaxDataPerPkt cfg ->
  0 <= data_size <= SizeT.modulus - kMaxDataPerPkt cfg ->
  data_size_to_num_pkts cfg data_size = num_pkts_spec cfg data_size /\
  (data_size <= kMaxDataPerPkt cfg ->
   data_size_to_num_pkts cfg data_size = 1) /\
  (forall uninit (h h' : H) mem mem' m,
     alloc_msg_buffer cfg uninit data_size h mem = Ok (m, h', mem') ->
     MsgBuffer.is_valid m = true ->
     MsgBuffer.num_pkts m = num_pkts_spec cfg data_size) /\
  (forall m m',
     resize_msg_buffer cfg m data_size = Ok m' ->
     MsgBuffer.num_pkts m' = num_pkts_spec cfg data_size).
Proof.
  intros HD Hsz.
  pose proof (data_size_to_num_pkts_no_wrap cfg data_size HD Hsz) as Heq.
  split; [done |]. split; [apply data_size_to_num_pkts_small |]. split.
  - intros uninit h h' mem mem' m Hrun Hvalid.
    rewrite <- Heq. by eapply alloc_msg_buffer_num_pkts.
  - intros m m' Hrun. rewrite <- Heq. by eapply resize_msg_buffer_num_pkts.
Qed.

Lemma data_size_to_num_pkts_is_ceiling_witness :
  data_size_to_num_pkts sample_config 2049 = num_pkts_spec sample_config 2049
  /\ num_pkts_spec sample_config 2049 = 3.
Proof.
  split; [| reflexivity].
  apply (@data_size_to_num_pkts_is_ceiling bump_alloc _ sample_config 2049).
  - reflexivity.
  - split; vm_compute; discriminate.
Defined.

(** ** The compile-time size checks *)

Lemma shl1_pow n : 0 <= n < 64 -> SizeT.shl1 n = 2 ^ n.
Proof.
  intros Hn. unfold SizeT.shl1. rewrite Z.shiftl_1_l.
  apply wrap_small. unfold SizeT.in_range, SizeT.modulus.
  split; [apply Z.pow_nonneg; lia | apply Z.pow_lt_mono_r; lia].
Qed.

Lemma num_pkts_spec_mono cfg a b :
  0 < kMaxDataPerPkt cfg -> a <= b ->
  num_pkts_spec cfg a <= num_pkts_spec cfg b.
Proof.
  intros HD Hab. unfold num_pkts_spec.
  pose proof (ceil_div_bounds a _ HD). pose proof (ceil_div_bounds b _ HD).
  assert (ceil_div a (kMaxDataPerPkt cfg) <= ceil_div b (kMaxDataPerPkt cfg))
    by nia.
  lia.
Qed.

(** What the second check buys: twice the packet count of a largest message,
    less one, is within the range of the packet-number field. *)
Lemma max_wire_pkts_fit cfg M :
  0 < kMaxDataPerPkt cfg -> 0 <= kPktNumBits cfg -> 0 <= M ->
  2 * M < 2 ^ kPktNumBits cfg * kMaxDataPerPkt cfg ->
  2 * num_pkts_spec cfg M - 1 <= 2 ^ kPktNumBits cfg.
Proof.
  intros HD HP HM Hlt. unfold num_pkts_spec.
  pose proof (ceil_div_bounds M _ HD) as Hc.
  assert (0 < 2 ^ kPktNumBits cfg) by (apply Z.pow_pos_nonneg; lia).
  destruct (Z.max_spec 1 (ceil_div M (kMaxDataPerPkt cfg))) as [[? ->] | [? ->]].
  - nia.
  - lia.
Qed.

Lemma data_size_to_num_pkts_spec_upto cfg data_size :
  0 < kMaxDataPerPkt cfg < SizeT.modulus ->
  0 <= data_size <= 2 ^ 63 ->
  data_size_to_num_pkts cfg data_size = num_pkts_spec cfg data_size.
Proof.
  intros HD Hsz. unfold SizeT.modulus in HD.
  destruct (Z.le_gt_cases data_size (kMaxDataPerPkt cfg)) as [Hle | Hgt].
  - rewrite data_size_to_num_pkts_small by done. unfold num_pkts_spec.
    pose proof (ceil_div_bounds data_size (kMaxDataPerPkt cfg)) as Hc.
    assert (ceil_div data_size (kMaxDataPerPkt cfg) <= 1) by nia. lia.
  - apply data_size_to_num_pkts_no_wrap; unfold SizeT.modulus; lia.
Qed.

Lemma kMaxMsgSize_unfold cfg :
  kMaxMsgSize cfg =
  (kMaxClassSize cfg
   - kMaxClassSize cfg / kMaxDataPerPkt cfg * sizeof_pkthdr cfg)
  mod 2 ^ 64.
Proof.
  unfold kMaxMsgSize, SizeT.sub, SizeT.mul, SizeT.div, SizeT.wrap,
    SizeT.modulus.
  by rewrite Zminus_mod_idemp_r.
Qed.

(** C8: in every build that passes the two [static_assert]s of rpc.h (with a
    message-size field narrower than 63 bits, so that [2 * kMaxMsgSize] is a
    [size_t]), the constants satisfy
    [(1 << kPktNumBits) * kMaxDataPerPkt > 2 * kMaxMsgSize] and
    [(1 << kMsgSizeBits) >= kMaxMsgSize] as integers, where [kMaxMsgSize] is
    [kMaxClassSize - (kMaxClassSize / kMaxDataPerPkt) * sizeof(pkthdr_t)];
    so every packet number of an RPC whose request and response are at most
    [kMaxMsgSize] bytes is below [2^kPktNumBits], and the packet-number field
    holds it unchanged: packet numbers never alias within one RPC. *)
Theorem static_asserts_bound_packet_numbers cfg :
  compiles cfg ->
  kMsgSizeBits cfg < 63 ->
  2 ^ kPktNumBits cfg * kMaxDataPerPkt cfg > 2 * kMaxMsgSize cfg /\
  2 ^ kMsgSizeBits cfg >= kMaxMsgSize cfg /\
  kMaxMsgSize cfg =
    (kMaxClassSize cfg
     - kMaxClassSize cfg / kMaxDataPerPkt cfg * sizeof_pkthdr cfg)
    mod 2 ^ 64 /\
  (forall req_size resp_size pkt_num,
     0 <= req_size <= kMaxMsgSize cfg ->
     0 <= resp_size <= kMaxMsgSize cfg ->
     0 <= pkt_num < wire_pkts (data_size_to_num_pkts cfg req_size)
                              (data_size_to_num_pkts cfg resp_size) ->
     pkt_num mod 2 ^ kPktNumBits cfg = pkt_num).
Proof.
  intros (Hwf & Hsa1 & Hsa2) Hbits.
  destruct Hwf as (_ & HD & _ & HP & HB).
  unfold static_assert_msg_size in Hsa1.
  unfold static_assert_pkt_num in Hsa2.
  apply Z.leb_le in Hsa1. apply Z.ltb_lt in Hsa2.
  rewrite shl1_pow in Hsa1 by done. rewrite shl1_pow in Hsa2 by done.
  set (M := kMaxMsgSize cfg) in *.
  assert (HM : 0 <= M < SizeT.modulus) by apply wrap_range.
  assert (Hpow : 2 ^ kMsgSizeBits cfg <= 2 ^ 62)
    by (apply Z.pow_le_mono_r; lia).
  assert (HPpos : 0 < 2 ^ kPktNumBits cfg) by (apply Z.pow_pos_nonneg; lia).
  assert (H2M : 2 * M < 2 ^ kPktNumBits cfg * kMaxDataPerPkt cfg).
  { unfold SizeT.mul in Hsa2.
    rewrite (wrap_small (2 * M)) in Hsa2
      by (unfold SizeT.in_range, SizeT.modulus; lia).
    pose proof (wrap_le (2 ^ kPktNumBits cfg * kMaxDataPerPkt cfg)
                  ltac:(nia)). lia. }
  split; [lia |]. split; [lia |]. split; [apply kMaxMsgSize_unfold |].
  intros req_size resp_size pkt_num Hreq Hresp Hpkt.
  apply Z.mod_small. split; [lia |].
  rewrite !data_size_to_num_pkts_spec_upto in Hpkt by lia.
  pose proof (num_pkts_spec_mono cfg req_size M ltac:(lia) ltac:(lia)).
  pose proof (num_pkts_spec_mono cfg resp_size M ltac:(lia) ltac:(lia)).
  pose proof (max_wire_pkts_fit cfg M ltac:(lia) ltac:(lia) ltac:(lia) H2M).
  assert (1 <= num_pkts_spec cfg req_size /\ 1 <= num_pkts_spec cfg resp_size)
    as [? ?] by (unfold num_pkts_spec; lia).
  unfold wire_pkts in Hpkt. rewrite sub_add_one, wrap_small in Hpkt.
  - lia.
  - unfold SizeT.in_range, SizeT.modulus.
    assert (2 ^ kPktNumBits cfg <= 2 ^ 63) by (apply Z.pow_le_mono_r; lia).
    lia.
Qed.

Lemma static_asserts_bound_packet_numbers_witness :
  2 ^ kPktNumBits sample_config * kMaxDataPerPkt sample_config
    > 2 * kMaxMsgSize sample_config /\
  2 ^ kMsgSizeBits sample_config >= kMaxMsgSize sample_config.
Proof.
  assert (Hc : compiles sample_config).
  { unfold compiles, constants_well_formed, SizeT.in_range, SizeT.modulus.
    vm_compute. intuition discriminate. }
  destruct (static_asserts_bound_packet_numbers sample_config Hc eq_refl)
    as (H1 & H2 & _).
  exact (conj H1 H2).
Defined.

(** ** Allocation of MsgBuffers *)

(** the size [alloc_msg_buffer] asks the allocator for *)
Lemma alloc_msg_buffer_unfold `{HugeAlloc H} cfg uninit max_data_size
    (h : H) mem :
  0 < max_data_size ->
  alloc_msg_buffer cfg uninit max_data_size h mem =
  let n := data_size_to_num_pkts cfg max_data_size in
  let '(r, h') :=
    alloc h (SizeT.add max_data_size (SizeT.mul n (sizeof_pkthdr cfg))) in
  match r with
  | Ok buffer =>
      if Buffer.buf buffer =? 0 then Ok (MsgBuffer.set_buf uninit 0, h', mem)
      else Ok ((MsgBuffer_of_buffer cfg buffer max_data_size n mem).1, h',
               (MsgBuffer_of_buffer cfg buffer max_data_size n mem).2)
  | AssertFail => AssertFail
  | Throw => Throw
  | Undefined => Undefined
  end.
Proof.
  intros Hpos. unfold alloc_msg_buffer, assert.
  assert ((0 <? max_data_size) = true) as -> by (apply Z.ltb_lt; lia).
  destruct (NDEBUG cfg); simpl;
    destruct (alloc h _) as [[b | | |] h1]; simpl; try done;
    by destruct (Buffer.buf b =? 0).
Qed.

(** C5, as stated, fails twice over.  The size handed to the allocator is
    computed in [size_t]: for [max_data_size = 18162948011037097984], with
    1024 data bytes per packet and 16-byte headers, the sum of the data size
    and the headers wraps to 1024, the allocator is asked for 1024 bytes and
    answers, and the function returns a valid MsgBuffer that announces the
    whole [max_data_size] on a 1024-byte buffer.  And out of memory is not the
    only other outcome: a largest-class request makes the allocator throw,
    and the function throws with it. *)
Theorem alloc_msg_buffer_size_wraps :
  SizeT.add 18162948011037097984
    (SizeT.mul (data_size_to_num_pkts sample_config 18162948011037097984)
       (sizeof_pkthdr sample_config)) = 1024 /\
  (exists m h' mem',
     alloc_msg_buffer sample_config garbage_msgbuf 18162948011037097984
       sample_heap ∅ = Ok (m, h', mem') /\
     MsgBuffer.is_valid m = true /\
     MsgBuffer.max_data_size m = 18162948011037097984 /\
     Buffer.class_size (MsgBuffer.buffer m) = 1024) /\
  alloc_msg_buffer sample_config garbage_msgbuf 8388608 sample_heap ∅
  = Throw.
Proof.
  split; [by vm_compute |]. split; [| by vm_compute].
  do 3 eexists. split; [by vm_compute |]. by vm_compute.
Qed.

(** C5, amended: take [max_data_size > 0] in the range where neither the
    packet count nor the requested size, [max_data_size] plus one packet
    header per packet, wraps around in [size_t], and an allocator whose
    buffers hold what was asked for.  Then [alloc_msg_buffer max_data_size]
    has three outcomes.  When the allocator is out of memory (it returns a
    null buffer), the function returns, without throwing, an invalid MsgBuffer
    whose [buf] is null, and leaves the headers in memory alone.  When the
    allocator returns a buffer, the result is a valid MsgBuffer on that
    buffer, which holds [max_data_size] data bytes and one packet header for
    each of its [data_size_to_num_pkts max_data_size] packets, with the magic
    written into the zeroth header just before the payload.  The function
    throws exactly when the allocator throws. *)
Theorem alloc_msg_buffer_outcomes `{HugeAlloc H} cfg uninit max_data_size
    (h : H) mem :
  let n := data_size_to_num_pkts cfg max_data_size in
  let size := max_data_size + n * sizeof_pkthdr cfg in
  0 < kMaxDataPerPkt cfg ->
  0 <= sizeof_pkthdr cfg ->
  0 < max_data_size <= SizeT.modulus - kMaxDataPerPkt cfg ->
  size < SizeT.modulus ->
  alloc_sound_at h size ->
  (forall b h', alloc h size = (Ok b, h') -> Buffer.buf b = 0 ->
     exists m,
       alloc_msg_buffer cfg uninit max_data_size h mem = Ok (m, h', mem) /\
       MsgBuffer.buf m = 0 /\ MsgBuffer.is_valid m = false) /\
  (forall b h', alloc h size = (Ok b, h') -> Buffer.buf b <> 0 ->
     exists m mem',
       alloc_msg_buffer cfg uninit max_data_size h mem = Ok (m, h', mem') /\
       MsgBuffer.is_valid m = true /\
       MsgBuffer.buffer m = b /\
       MsgBuffer.max_data_size m = max_data_size /\
       MsgBuffer.data_size m = max_data_size /\
       MsgBuffer.num_pkts m = n /\
       max_data_size + MsgBuffer.num_pkts m * sizeof_pkthdr cfg
         <= Buffer.class_size b /\
       MsgBuffer.buf m = Buffer.buf b + sizeof_pkthdr cfg /\
       MsgBuffer.pkthdr_0 cfg m = Buffer.buf b /\
       mem' !! MsgBuffer.pkthdr_0 cfg m = Some (kPktHdrMagic cfg)) /\
  (alloc_msg_buffer cfg uninit max_data_size h mem = Throw <->
   exists h', alloc h size = (Throw, h')).
Proof.
  intros n size HD Hhdr Hsz Hsize Hsound.
  assert (Hn : 1 <= n).
  { unfold n. rewrite data_size_to_num_pkts_no_wrap by lia.
    unfold num_pkts_spec. lia. }
  assert (Hreq : SizeT.add max_data_size (SizeT.mul n (sizeof_pkthdr cfg))
                 = size).
  { unfold SizeT.add, SizeT.mul.
    rewrite (wrap_small (n * _)) by (unfold SizeT.in_range; nia).
    apply wrap_small. unfold SizeT.in_range, size. nia. }
  pose proof (alloc_msg_buffer_unfold cfg uninit max_data_size h mem
                ltac:(lia)) as Hrun.
  cbv zeta in Hrun. fold n in Hrun. rewrite Hreq in Hrun.
  split; [| split].
  - intros b h' Halloc Hnull. rewrite Halloc in Hrun.
    assert ((Buffer.buf b =? 0) = true) as Hz by (apply Z.eqb_eq; done).
    rewrite Hz in Hrun. eexists. split; [exact Hrun |].
    by unfold MsgBuffer.is_valid.
  - intros b h' Halloc Hnn. rewrite Halloc in Hrun.
    assert ((Buffer.buf b =? 0) = false) as Hz by (apply Z.eqb_neq; done).
    rewrite Hz in Hrun.
    destruct (Hsound b h' Halloc Hnn) as (Hpos & Hclass & Hend).
    assert (Hbuf : SizeT.add (Buffer.buf b) (sizeof_pkthdr cfg)
                   = Buffer.buf b + sizeof_pkthdr cfg).
    { apply wrap_small. unfold SizeT.in_range, size in *. nia. }
    do 2 eexists. split; [exact Hrun |]. simpl.
    unfold MsgBuffer.is_valid, MsgBuffer.pkthdr_0. simpl. rewrite Hbuf.
    assert (Hhdr0 : SizeT.sub (Buffer.buf b + sizeof_pkthdr cfg)
                      (sizeof_pkthdr cfg) = Buffer.buf b).
    { unfold SizeT.sub. replace (_ + _ - _) with (Buffer.buf b) by lia.
      apply wrap_small. unfold SizeT.in_range, size in *. nia. }
    rewrite Hhdr0. repeat split; try done.
    + apply negb_true_iff, Z.eqb_neq. lia.
    + apply lookup_insert_eq.
  - split.
    + intros Hthrow. rewrite Hthrow in Hrun.
      destruct (alloc h size) as [[b | | |] h1]; try done; eauto.
      by destruct (Buffer.buf b =? 0).
    + intros [h' Halloc]. by rewrite Halloc in Hrun.
Qed.

Lemma alloc_msg_buffer_outcomes_witness :
  exists m h' mem',
    alloc_msg_buffer sample_config garbage_msgbuf 1024 sample_heap ∅
      = Ok (m, h', mem') /\
    MsgBuffer.is_valid m = true /\
    mem' !! MsgBuffer.pkthdr_0 sample_config m = Some 11.
Proof.
  assert (Hsound : alloc_sound_at sample_heap (1024 + 1 * 16)).
  { intros b h' Halloc _. vm_compute in Halloc.
    injection Halloc as <- <-. vm_compute. intuition discriminate. }
  destruct (alloc_msg_buffer_outcomes sample_config garbage_msgbuf 1024
              sample_heap ∅
              eq_refl
              ltac:(vm_compute; discriminate)
              ltac:(vm_compute; intuition discriminate)
              eq_refl Hsound) as (_ & Hsome & _).
  destruct (Hsome {| Buffer.buf := 4096; Buffer.class_size := 1040 |}
              {| bump_next := 5136; bump_limit := 5152;
                 bump_max_class := 8388608 |} eq_refl
              ltac:(vm_compute; discriminate))
    as (m & mem' & Hrun & Hvalid & _ & _ & _ & _ & _ & _ & _ & Hmagic).
  exists m, {| bump_next := 5136; bump_limit := 5152;
               bump_max_class := 8388608 |}, mem'.
  exact (conj Hrun (conj Hvalid Hmagic)).
Defined.

(** C10: in a build that checks assertions, [alloc_msg_buffer 0] fails its
    assertion [max_data_size > 0], although [data_size_to_num_pkts 0] is 1 and
    [resize_msg_buffer] takes a valid MsgBuffer down to data size 0; every
    valid MsgBuffer that [alloc_msg_buffer] returns has a positive data size,
    so a payload of zero bytes is only reached by allocating at least one byte
    and resizing, which succeeds and leaves one packet. *)
Theorem alloc_msg_buffer_needs_positive_size `{HugeAlloc H} cfg :
  NDEBUG cfg = false ->
  0 <= kMaxDataPerPkt cfg ->
  (forall uninit (h : H) mem,
     alloc_msg_buffer cfg uninit 0 h mem = AssertFail) /\
  data_size_to_num_pkts cfg 0 = 1 /\
  (forall m,
     MsgBuffer.is_valid m = true -> 0 <= MsgBuffer.max_data_size m ->
     resize_msg_buffer cfg m 0 = Ok (MsgBuffer.resize m 0 1)) /\
  (forall uninit max_data_size (h h' : H) mem mem' m,
     alloc_msg_buffer cfg uninit max_data_size h mem = Ok (m, h', mem') ->
     MsgBuffer.is_valid m = true ->
     0 < max_data_size /\ MsgBuffer.data_size m = max_data_size) /\
  (forall uninit max_data_size (h h' : H) mem mem' m,
     alloc_msg_buffer cfg uninit max_data_size h mem = Ok (m, h', mem') ->
     MsgBuffer.is_valid m = true ->
     exists m',
       resize_msg_buffer cfg m 0 = Ok m' /\
       MsgBuffer.data_size m' = 0 /\ MsgBuffer.num_pkts m' = 1 /\
       MsgBuffer.buf m' = MsgBuffer.buf m).
Proof.
  intros Hdebug HD.
  assert (Hzero : data_size_to_num_pkts cfg 0 = 1)
    by (by apply data_size_to_num_pkts_small).
  assert (Hresize : forall m,
            MsgBuffer.is_valid m = true -> 0 <= MsgBuffer.max_data_size m ->
            resize_msg_buffer cfg m 0 = Ok (MsgBuffer.resize m 0 1)).
  { intros m Hvalid Hmax. unfold resize_msg_buffer, assert.
    rewrite Hdebug, Hvalid. simpl.
    assert ((0 <=? MsgBuffer.max_data_size m) = true) as ->
      by (by apply Z.leb_le).
    simpl. by rewrite Hzero. }
  assert (Hpos : forall uninit max_data_size (h h' : H) mem mem' m,
            alloc_msg_buffer cfg uninit max_data_size h mem
              = Ok (m, h', mem') ->
            MsgBuffer.is_valid m = true ->
            0 < max_data_size /\ MsgBuffer.data_size m = max_data_size).
  { intros uninit max_data_size h h' mem mem' m Hrun Hvalid.
    split; [| by eapply alloc_msg_buffer_num_pkts].
    unfold alloc_msg_buffer, assert in Hrun. rewrite Hdebug in Hrun.
    destruct (Z.ltb_spec 0 max_data_size); [done | by simpl in Hrun]. }
  split; [| split; [done | split; [done | split; [done |]]]].
  - intros uninit h mem. unfold alloc_msg_buffer, assert.
    by rewrite Hdebug.
  - intros uninit max_data_size h h' mem mem' m Hrun Hvalid.
    destruct (Hpos _ _ _ _ _ _ _ Hrun Hvalid) as [Hgt _].
    destruct (alloc_msg_buffer_num_pkts _ _ _ _ _ _ _ _ Hrun Hvalid)
      as (_ & _ & Hmax).
    exists (MsgBuffer.resize m 0 1). split; [| done].
    apply Hresize; [done | lia].
Qed.

Lemma alloc_msg_buffer_needs_positive_size_witness :
  alloc_msg_buffer sample_config garbage_msgbuf 0 sample_heap ∅ = AssertFail.
Proof.
  apply (@alloc_msg_buffer_needs_positive_size bump_alloc _ sample_config
           eq_refl ltac:(vm_compute; discriminate)).
Defined.

(** ** Datapath helpers *)

(** C1: [in_order_client sslot pkthdr] returns true exactly when the header's
    request number is the slot's [cur_req_num], its packet number is the
    slot's [num_rx] and is below [num_tx], and, when pacing is compiled in,
    [in_wheel[pkt_num mod kSessionCredits]] is false; otherwise it returns
    false.  The counter [still_in_wheel_during_retx] goes up by one exactly
    when the packet passes the first three tests and is refused by the pacing
    test; in every other case it is left as it was. *)
Theorem in_order_client_spec cfg sslot hdr stats :
  let ci := SSlot.client_info sslot in
  let bit :=
    SSlot.in_wheel ci !!!
      Z.to_nat (pkthdr.pkt_num hdr mod kSessionCredits cfg) in
  let matches :=
    pkthdr.req_num hdr = SSlot.cur_req_num sslot /\
    pkthdr.pkt_num hdr = SSlot.num_rx ci /\
    pkthdr.pkt_num hdr < SSlot.num_tx ci in
  let r := in_order_client cfg sslot hdr stats in
  (r.1 = true <-> matches /\ (kCcPacing cfg = true -> bit = false)) /\
  (r.1 = false <-> ~ (matches /\ (kCcPacing cfg = true -> bit = false))) /\
  (matches /\ kCcPacing cfg = true /\ bit = true ->
   r = (false, SizeT.add stats 1)) /\
  (~ (matches /\ kCcPacing cfg = true /\ bit = true) -> r.2 = stats).
Proof.
  cbv zeta. unfold in_order_client, SizeT.rem.
  destruct (Z.eqb_spec (pkthdr.req_num hdr) (SSlot.cur_req_num sslot));
    simpl; [| intuition congruence].
  destruct (Z.eqb_spec (pkthdr.pkt_num hdr)
              (SSlot.num_rx (SSlot.client_info sslot)));
    simpl; [| intuition congruence].
  destruct (Z.leb_spec (SSlot.num_tx (SSlot.client_info sslot))
              (pkthdr.pkt_num hdr));
    simpl; [intuition (try congruence; try lia) |].
  destruct (kCcPacing cfg); simpl.
  - destruct (SSlot.in_wheel _ !!! _); simpl; intuition congruence.
  - intuition congruence.
Qed.

(** C4, as stated, fails: in a testing build with pacing, the fault-injection
    switch [hard_wheel_bypass] alone decides, so [can_bypass_wheel] is true for
    a slot with a packet in the wheel on a congested session; and in a
    non-testing build with pacing but without the bypass optimisation it is
    false for an idle slot of an uncongested session. *)
Lemma can_bypass_wheel_ignores_congestion :
  (can_bypass_wheel (pacing_config true true) true
     (sample_sslot 1) (sample_session 50 [] []) = true /\
   Session.is_uncongested (sample_session 50 [] []) = false /\
   SSlot.wheel_count (SSlot.client_info (sample_sslot 1)) <> 0) /\
  (can_bypass_wheel (pacing_config false false) false
     (sample_sslot 0) (sample_session 100 [] []) = false /\
   Session.is_uncongested (sample_session 100 [] []) = true /\
   SSlot.wheel_count (SSlot.client_info (sample_sslot 0)) = 0).
Proof. by vm_compute. Qed.

(** C4, amended: [can_bypass_wheel sslot] returns true exactly when pacing is
    disabled, or, with pacing, in a testing build when the fault-injection
    switch [hard_wheel_bypass] is set, and in a non-testing build when the
    wheel-bypass optimisation is compiled in, the session is uncongested and
    no packet of the slot is in the wheel ([wheel_count == 0]); otherwise it
    returns false. *)
Theorem can_bypass_wheel_spec cfg hard_wheel_bypass sslot session :
  can_bypass_wheel cfg hard_wheel_bypass sslot session = true <->
  kCcPacing cfg = false \/
  (kTesting cfg = true /\ hard_wheel_bypass = true) \/
  (kTesting cfg = false /\ kCcOptWheelBypass cfg = true /\
   Session.is_uncongested session = true /\
   SSlot.wheel_count (SSlot.client_info sslot) = 0).
Proof.
  unfold can_bypass_wheel.
  destruct (kCcPacing cfg), (kTesting cfg), (kCcOptWheelBypass cfg),
    hard_wheel_bypass, (Session.is_uncongested session),
    (Z.eqb_spec (SSlot.wheel_count (SSlot.client_info sslot)) 0);
    simpl; intuition congruence.
Qed.

(** ** Releasing a response *)

Lemma at_index_set_index_eq {A} (l : list A) i x :
  is_Some (at_index l i) -> at_index (set_index l i x) i = Some x.
Proof.
  unfold at_index, set_index. destruct (i <? 0); [by intros [? ?] |].
  intros Hsome. apply list_lookup_insert_eq. by apply lookup_lt_is_Some.
Qed.

Lemma at_index_set_index_ne {A} (l : list A) i j x :
  i <> j -> at_index (set_index l i x) j = at_index l j.
Proof.
  unfold at_index, set_index. intros Hne.
  destruct (Z.ltb_spec j 0); [done |].
  destruct (Z.ltb_spec i 0); [done |].
  apply list_lookup_insert_ne. lia.
Qed.

Lemma get_session_put_session_eq rpc sn s s0 :
  Rpc.get_session rpc sn = Some s0 ->
  Rpc.get_session (Rpc.put_session rpc sn s) sn = Some s.
Proof.
  unfold Rpc.get_session, Rpc.put_session. simpl. intros Hget.
  rewrite at_index_set_index_eq; [done |].
  destruct (at_index (Rpc.session_vec rpc) sn); [eauto | done].
Qed.

Lemma get_session_put_session_ne rpc sn sn' s :
  sn <> sn' ->
  Rpc.get_session (Rpc.put_session rpc sn s) sn' = Rpc.get_session rpc sn'.
Proof.
  unfold Rpc.get_session, Rpc.put_session. simpl. intros Hne.
  by rewrite at_index_set_index_ne.
Qed.

Lemma pop_back_snoc {A} (l : list A) x : pop_back (l ++ [x]) = Some (l, x).
Proof.
  unfold pop_back. rewrite reverse_app. simpl.
  by rewrite reverse_involutive.
Qed.

Lemma bind_Ok {A B} (a : A) (k : A -> result B) : Ok a ≫= k = k a.
Proof. reflexivity. Qed.

Lemma deref_Some {A} (a : A) : deref (Some a) = Ok a.
Proof. reflexivity. Qed.

Lemma get_session_add_to_active_rpc_list rpc ref sn :
  Rpc.get_session (Rpc.add_to_active_rpc_list rpc ref) sn
  = Rpc.get_session rpc sn.
Proof. reflexivity. Qed.

Lemma assert_true cfg : assert cfg true = Ok tt.
Proof. unfold assert. by destruct (NDEBUG cfg). Qed.

Lemma assert_one_free_slot cfg (fv : list Z) i :
  NDEBUG cfg = true \/ fv = [] ->
  assert cfg (length (fv ++ [i]) =? 1)%nat = Ok tt.
Proof.
  unfold assert. intros [-> | ->]; [done |]. by destruct (NDEBUG cfg).
Qed.

(** With a free slot on top of the stack, the modelled [enqueue_request]
    starts the request in that slot and leaves the backlog alone. *)
Lemma enqueue_request_free_slot cfg etid args rpc session fv i sslot :
  Rpc.in_dispatch rpc etid = true ->
  Rpc.get_session rpc (enq_req_args.session_num args) = Some session ->
  Session.is_connected session = true ->
  Session.sslot_free_vec (Session.client_info session) = fv ++ [i] ->
  at_index (Session.sslot_arr session) i = Some sslot ->
  enqueue_request cfg etid args rpc =
  Ok (Rpc.add_to_active_rpc_list
        (Rpc.put_session rpc (enq_req_args.session_num args)
           (Session.set_sslot_arr
              (Session.set_client_info session
                 (Session.set_sslot_free_vec (Session.client_info session) fv))
              (set_index (Session.sslot_arr session) i
                 (start_request cfg args sslot))))
        (enq_req_args.session_num args, i)).
Proof.
  intros Hdisp Hget Hconn Hfree Hslot. unfold enqueue_request.
  rewrite Hdisp, Hget. simpl. rewrite Hconn, assert_true. simpl.
  rewrite Hfree, pop_back_snoc, Hslot. done.
Qed.

(** With no free slot it queues the arguments behind those already waiting. *)
Lemma enqueue_request_no_free_slot cfg etid args rpc session :
  Rpc.in_dispatch rpc etid = true ->
  Rpc.get_session rpc (enq_req_args.session_num args) = Some session ->
  Session.is_connected session = true ->
  Session.sslot_free_vec (Session.client_info session) = [] ->
  enqueue_request cfg etid args rpc =
  Ok (Rpc.put_session rpc (enq_req_args.session_num args)
        (Session.set_client_info session
           (Session.set_enq_req_backlog (Session.client_info session)
              (Session.enq_req_backlog (Session.client_info session)
               ++ [args])))).
Proof.
  intros Hdisp Hget Hconn Hfree. unfold enqueue_request.
  rewrite Hdisp, Hget. simpl. rewrite Hconn, assert_true. simpl.
  by rewrite Hfree.
Qed.

Lemma release_response_prologue cfg etid rpc sn i session sslot :
  Rpc.in_dispatch rpc etid = true ->
  Rpc.get_session rpc sn = Some session ->
  Session.is_client session = true ->
  at_index (Session.sslot_arr session) i = Some sslot ->
  SSlot.session sslot = Some sn ->
  SSlot.tx_msgbuf sslot = None ->
  release_response cfg etid (sn, i) rpc =
  let ci := Session.client_info session in
  let ci1 :=
    Session.set_sslot_free_vec ci
      (Session.sslot_free_vec ci ++ [SSlot.index sslot]) in
  let rpc1 :=
    Rpc.put_session rpc sn (Session.set_client_info session ci1) in
  match Session.enq_req_backlog ci with
  | [] => Ok rpc1
  | args :: _ =>
      assert cfg (length (Session.sslot_free_vec ci1) =? 1)%nat ;;
      rpc2 ← enqueue_request cfg etid args rpc1 ;
      session2 ← deref (Rpc.get_session rpc2 sn) ;
      Ok (Rpc.put_session rpc2 sn
            (Session.set_client_info session2
               (Session.set_enq_req_backlog (Session.client_info session2)
                  (tail (Session.enq_req_backlog
                           (Session.client_info session2))))))
  end.
Proof.
  intros Hdisp Hget Hclient Hslot Hptr Htx. unfold release_response.
  rewrite Hdisp. simpl.
  unfold Rpc.get_sslot. simpl. rewrite Hget. simpl. rewrite Hslot. simpl.
  rewrite Htx, Hptr. simpl. rewrite Hget, Hclient.
  rewrite !assert_true. simpl. done.
Qed.

(** C9: when [release_response] runs in the dispatch thread for a slot of a
    client session whose response was received, the slot's index is pushed on
    the session's free-slot stack; with an empty backlog nothing else changes;
    with a backlog, its oldest entry, and only that one, is taken off and
    started by [enqueue_request] in the slot just freed, which joins the
    active-RPC list, the rest of the backlog keeps its order, and the other
    sessions are untouched.  (A build that checks assertions stops if another
    slot was free while requests were waiting.)  Since a request that finds no
    free slot is queued behind the entries already waiting, the backlog is
    served first-in first-out. *)
Theorem release_response_drains_backlog cfg etid rpc sn i session sslot :
  Rpc.in_dispatch rpc etid = true ->
  Rpc.get_session rpc sn = Some session ->
  Session.is_client session = true ->
  Session.is_connected session = true ->
  at_index (Session.sslot_arr session) i = Some sslot ->
  SSlot.session sslot = Some sn ->
  SSlot.index sslot = i ->
  SSlot.tx_msgbuf sslot = None ->
  let ci := Session.client_info session in
  (Session.enq_req_backlog ci = [] ->
   release_response cfg etid (sn, i) rpc =
   Ok (Rpc.put_session rpc sn
         (Session.set_client_info session
            (Session.set_sslot_free_vec ci
               (Session.sslot_free_vec ci ++ [i]))))) /\
  (forall args rest,
     Session.enq_req_backlog ci = args :: rest ->
     enq_req_args.session_num args = sn ->
     NDEBUG cfg = true \/ Session.sslot_free_vec ci = [] ->
     exists rpc' session',
       release_response cfg etid (sn, i) rpc = Ok rpc' /\
       Rpc.get_session rpc' sn = Some session' /\
       Session.enq_req_backlog (Session.client_info session') = rest /\
       Session.sslot_free_vec (Session.client_info session')
         = Session.sslot_free_vec ci /\
       at_index (Session.sslot_arr session') i
         = Some (start_request cfg args sslot) /\
       (forall j, j <> i ->
          at_index (Session.sslot_arr session') j
            = at_index (Session.sslot_arr session) j) /\
       Rpc.active_rpcs rpc' = Rpc.active_rpcs rpc ++ [(sn, i)] /\
       (forall sn', sn' <> sn ->
          Rpc.get_session rpc' sn' = Rpc.get_session rpc sn')) /\
  (Session.enq_req_backlog ci <> [] ->
   NDEBUG cfg = false ->
   Session.sslot_free_vec ci <> [] ->
   release_response cfg etid (sn, i) rpc = AssertFail) /\
  (forall args,
     enq_req_args.session_num args = sn ->
     Session.sslot_free_vec ci = [] ->
     exists rpc' session',
       enqueue_request cfg etid args rpc = Ok rpc' /\
       Rpc.get_session rpc' sn = Some session' /\
       Session.enq_req_backlog (Session.client_info session')
         = Session.enq_req_backlog ci ++ [args] /\
       Session.sslot_arr session' = Session.sslot_arr session /\
       Rpc.active_rpcs rpc' = Rpc.active_rpcs rpc).
Proof.
  intros Hdisp Hget Hclient Hconn Hslot Hptr Hidx Htx ci.
  pose proof (release_response_prologue cfg etid rpc sn i session sslot
                Hdisp Hget Hclient Hslot Hptr Htx) as Hrun.
  cbv zeta in Hrun. rewrite Hidx in Hrun. fold ci in Hrun.
  split; [| split; [| split]].
  - intros Hempty. by rewrite Hempty in Hrun.
  - intros args rest Hbacklog Hsn Hfree.
    rewrite Hbacklog in Hrun.
    cbn [Session.sslot_free_vec Session.set_sslot_free_vec] in Hrun.
    rewrite (assert_one_free_slot cfg (Session.sslot_free_vec ci) i Hfree),
      bind_Ok in Hrun.
    set (session1 :=
           Session.set_client_info session
             (Session.set_sslot_free_vec ci
                (Session.sslot_free_vec ci ++ [i]))) in *.
    set (rpc1 := Rpc.put_session rpc sn session1) in *.
    assert (Hget1 : Rpc.get_session rpc1 sn = Some session1)
      by (by eapply get_session_put_session_eq).
    assert (Hget1' : Rpc.get_session rpc1 (enq_req_args.session_num args)
                     = Some session1) by (by rewrite Hsn).
    rewrite (enqueue_request_free_slot cfg etid args rpc1 session1
               (Session.sslot_free_vec ci) i sslot
               Hdisp Hget1' Hconn eq_refl Hslot), bind_Ok, Hsn in Hrun.
    rewrite get_session_add_to_active_rpc_list in Hrun.
    erewrite get_session_put_session_eq in Hrun by exact Hget1.
    rewrite deref_Some, bind_Ok in Hrun.
    do 2 eexists. split; [exact Hrun |].
    split.
    { eapply get_session_put_session_eq.
      rewrite get_session_add_to_active_rpc_list.
      by eapply get_session_put_session_eq. }
    simpl. fold ci. rewrite Hbacklog. simpl.
    repeat split; try done.
    + apply at_index_set_index_eq. eauto.
    + intros j Hj. by apply at_index_set_index_ne.
    + intros sn' Hne.
      rewrite get_session_put_session_ne by done.
      rewrite get_session_add_to_active_rpc_list.
      rewrite get_session_put_session_ne by done.
      unfold rpc1. by rewrite get_session_put_session_ne.
  - intros Hbacklog Hdebug Hfree.
    destruct (Session.enq_req_backlog ci) as [| args rest]; [done |].
    cbn [Session.sslot_free_vec Session.set_sslot_free_vec] in Hrun.
    unfold assert in Hrun. rewrite Hdebug in Hrun.
    destruct (Session.sslot_free_vec ci) as [| x [| y fv]]; done.
  - intros args Hsn Hfree.
    rewrite <- Hsn in Hget.
    rewrite (enqueue_request_no_free_slot cfg etid args rpc session
               Hdisp Hget Hconn Hfree).
    do 2 eexists. split; [done |].
    split; [rewrite <- Hsn; by eapply get_session_put_session_eq |].
    done.
Qed.

Lemma release_response_drains_backlog_witness :
  exists rpc' session',
    release_response sample_config 0 (0, 0) sample_rpc = Ok rpc' /\
    Rpc.get_session rpc' 0 = Some session' /\
    Session.enq_req_backlog (Session.client_info session')
      = [sample_args 42] /\
    at_index (Session.sslot_arr session') 0
      = Some (start_request sample_config (sample_args 41) (sample_sslot 0)).
Proof.
  destruct (release_response_drains_backlog sample_config 0 sample_rpc 0 0
              (sample_session 100 [sample_args 41; sample_args 42] [])
              (sample_sslot 0)
              eq_refl eq_refl eq_refl eq_refl eq_refl eq_refl eq_refl eq_refl)
    as (_ & Hbacklog & _ & _).
  destruct (Hbacklog (sample_args 41) [sample_args 42]
              eq_refl eq_refl (or_intror eq_refl))
    as (rpc' & session' & Hrun & Hget & Hrest & _ & Hslot & _).
  exists rpc', session'. exact (conj Hrun (conj Hget (conj Hrest Hslot))).
Defined.

(** ** The connect-request handler *)

Lemma string_compare_refl s : String.compare s s = Eq.
Proof.
  pose proof (String.compare_antisym s s) as H.
  destruct (String.compare s s); simpl in H; congruence.
Qed.

Lemma strcmp_zero_iff a b : strcmp a b = 0 <-> a = b.
Proof.
  unfold strcmp. split.
  - destruct (String.compare a b) eqn:Hcmp; try done.
    intros _. by apply String.compare_eq_iff.
  - intros ->. by rewrite string_compare_refl.
Qed.

(** The loop's test holds only for a session of another host. *)
Lemma is_existing_other_host s pkt :
  ERpc.is_existing s pkt = true ->
  ERpc.hostname (ERpc.s_client s) <> ERpc.hostname (ERpc.client pkt) /\
  ERpc.app_tid (ERpc.s_client s) = ERpc.app_tid (ERpc.client pkt).
Proof.
  unfold ERpc.is_existing, truthy. intros [Hcmp Htid]%andb_true_iff.
  split; [| by apply Z.eqb_eq].
  intros Heq%strcmp_zero_iff. rewrite Heq in Hcmp. done.
Qed.

Lemma find_existing_same_client cfg sessions pkt :
  Forall (fun s => ERpc.hostname (ERpc.s_client s)
                   = ERpc.hostname (ERpc.client pkt)) sessions ->
  ERpc.find_existing cfg sessions pkt = Ok None.
Proof.
  induction 1 as [| s rest Hs _ IH]; [done |]. simpl.
  destruct (ERpc.is_existing s pkt) eqn:Hex; [| done].
  by apply is_existing_other_host in Hex as [? _].
Qed.

(** The handler hands nothing to the network and stores no session, whatever
    it is given. *)
Lemma handle_session_connect_req_sends_nothing cfg pkt rpc rpc' :
  ERpc.handle_session_connect_req cfg pkt rpc = Ok rpc' ->
  ERpc.sm_pkts_sent rpc' = ERpc.sm_pkts_sent rpc /\
  ERpc.session_vec rpc' = ERpc.session_vec rpc.
Proof.
  unfold ERpc.handle_session_connect_req. intros Hrun.
  repeat match type of Hrun with
         | (?m ≫= _) = Ok _ =>
             destruct m as [? | | |]; simpl in Hrun; try done
         end.
  match type of Hrun with
  | match ?found with _ => _ end = _ => destruct found
  end; by injection Hrun as <-.
Qed.

(** C6, on the failing input: the server of host "beta" holds the session of
    client thread 7 on host "alpha" and receives that client's connect request
    again.  With assertions compiled out, the handler finds no existing
    session, because the loop's [strcmp] test is true for differing host
    names, and allocates a second session; it sends nothing.  The same happens
    when the request reaches an endpoint without sessions twice: the handler
    never stores the session it allocates, so the second copy allocates
    another.  With assertions checked, the request stops at the assertion on
    the server host name, which is inverted in the same way. *)
Theorem handle_session_connect_req_repeated :
  ERpc.handle_session_connect_req release_config
    (Some repeated_connect_req) beta_rpc
  = Ok (ERpc.add_new_session beta_rpc alpha_session) /\
  ERpc.new_sessions (ERpc.add_new_session beta_rpc alpha_session)
  = [alpha_session] /\
  ERpc.sm_pkts_sent (ERpc.add_new_session beta_rpc alpha_session) = [] /\
  (rpc1 ← ERpc.handle_session_connect_req release_config
            (Some repeated_connect_req) fresh_beta_rpc ;
   ERpc.handle_session_connect_req release_config
     (Some repeated_connect_req) rpc1)
  = Ok {| ERpc.rpc_app_tid := 1; ERpc.nexus_hostname := "beta";
          ERpc.session_vec := [];
          ERpc.new_sessions := [alpha_session; alpha_session];
          ERpc.dup_notices := []; ERpc.sm_pkts_sent := [] |} /\
  ERpc.handle_session_connect_req sample_config
    (Some repeated_connect_req) beta_rpc
  = AssertFail.
Proof. by vm_compute. Qed.

(** ** Credits *)

(** [bump_credits] goes through exactly for a client session with fewer than
    [kSessionCredits] credits; it then adds one credit, which keeps the
    credits at or below [kSessionCredits], and changes nothing else: the
    result is the session given, field for field, but for the credit count.
    In a build that checks assertions every other call stops at an
    assertion. *)
Theorem bump_credits_spec cfg session :
  NDEBUG cfg = false ->
  0 <= Session.credits (Session.client_info session) ->
  kSessionCredits cfg < SizeT.modulus ->
  let ci := Session.client_info session in
  (Session.is_client session = true /\
   Session.credits ci < kSessionCredits cfg ->
   bump_credits cfg session
   = Ok {| Session.role := Session.role session;
           Session.state := Session.state session;
           Session.local_session_num := Session.local_session_num session;
           Session.client_info :=
             {| Session.credits := Session.credits ci + 1;
                Session.sslot_free_vec := Session.sslot_free_vec ci;
                Session.enq_req_backlog := Session.enq_req_backlog ci;
                Session.num_re_tx := Session.num_re_tx ci;
                Session.cc_rate := Session.cc_rate ci;
                Session.cc_link_rate := Session.cc_link_rate ci |};
           Session.sslot_arr := Session.sslot_arr session |} /\
   Session.credits ci + 1 <= kSessionCredits cfg) /\
  (~ (Session.is_client session = true /\
      Session.credits ci < kSessionCredits cfg) ->
   bump_credits cfg session = AssertFail).
Proof.
  intros Hdebug Hnonneg HK ci. unfold bump_credits, assert.
  rewrite Hdebug. fold ci. split.
  - intros [-> Hlt]. simpl.
    assert ((Session.credits ci <? kSessionCredits cfg) = true) as ->
      by (by apply Z.ltb_lt).
    simpl. subst ci. split; [| lia].
    unfold Session.set_client_info, Session.set_credits, SizeT.add.
    unfold SizeT.modulus in HK.
    rewrite wrap_small by (unfold SizeT.in_range, SizeT.modulus; lia).
    reflexivity.
  - intros Hnot. destruct (Session.is_client session); simpl; [| done].
    destruct (Z.ltb_spec (Session.credits ci) (kSessionCredits cfg));
      [| done].
    exfalso. by apply Hnot.
Qed.

Lemma bump_credits_spec_witness :
  bump_credits sample_config
    (Session.set_client_info (sample_session 100 [] [])
       (Session.set_credits
          (Session.client_info (sample_session 100 [] [])) 7))
  = Ok (sample_session 100 [] []).
Proof.
  destruct (bump_credits_spec sample_config
              (Session.set_client_info (sample_session 100 [] [])
                 (Session.set_credits
                    (Session.client_info (sample_session 100 [] [])) 7))
              eq_refl ltac:(vm_compute; discriminate) eq_refl) as [Hok _].
  destruct (Hok (conj eq_refl eq_refl)) as [Hrun _].
  exact Hrun.
Defined.

(** ** The timing wheel *)

Lemma pending_entries_insert cfg wheel ref pkt_num tsc ref' i :
  pending_entries cfg (wheel_insert wheel ref pkt_num tsc) ref' i =
  pending_entries cfg wheel ref' i ++
  (if decide (ref = ref' /\ pkt_num mod kSessionCredits cfg = i)
   then [{| ent_sslot := ref; ent_pkt_num := pkt_num; ent_tx_tsc := tsc |}]
   else []).
Proof.
  unfold pending_entries, wheel_insert. rewrite filter_app. reflexivity.
Qed.

Lemma in_wheel_exact_iff cfg wheel ref sslot i :
  in_wheel_exact cfg wheel ref sslot ->
  0 <= i < kSessionCredits cfg ->
  SSlot.in_wheel (SSlot.client_info sslot) !!! Z.to_nat i = true <->
  length (pending_entries cfg wheel ref i) = 1%nat.
Proof.
  intros Hinv Hi. rewrite (Hinv i Hi).
  by destruct (SSlot.in_wheel _ !!! _).
Qed.

(** Both enqueue functions insert one entry for the slot and the packet
    number, set [in_wheel[pkt_num mod kSessionCredits]], leave the other bits
    alone and add one to [wheel_count]; the slot has one more pending entry of
    that residue, and if the bit was clear and wheel and slot agreed, they
    still agree. *)
Theorem enqueue_wheel_st_marks_slot cfg get_pkt_size cc_getupdate_tx_tsc
    ref_tsc ref sslot session pkt_num wheel tx_msgbuf :
  SSlot.tx_msgbuf sslot = Some tx_msgbuf ->
  0 < kSessionCredits cfg ->
  0 <= pkt_num ->
  length (SSlot.in_wheel (SSlot.client_info sslot))
    = Z.to_nat (kSessionCredits cfg) ->
  0 <= SSlot.wheel_count (SSlot.client_info sslot) < SizeT.modulus - 1 ->
  let r := pkt_num mod kSessionCredits cfg in
  let sslot' := mark_in_wheel cfg sslot pkt_num in
  enqueue_wheel_req_st cfg get_pkt_size cc_getupdate_tx_tsc ref_tsc ref sslot
    session pkt_num wheel
  = Ok (sslot',
        wheel_insert wheel ref pkt_num
          (cc_getupdate_tx_tsc session ref_tsc
             (get_pkt_size tx_msgbuf pkt_num))) /\
  (forall resp_msgbuf,
     enqueue_wheel_rfr_st cfg get_pkt_size cc_getupdate_tx_tsc ref_tsc ref
       sslot session (Some resp_msgbuf) pkt_num wheel
     = Ok (sslot',
           wheel_insert wheel ref pkt_num
             (cc_getupdate_tx_tsc session ref_tsc
                (get_pkt_size resp_msgbuf
                   (resp_ntoi pkt_num (MsgBuffer.num_pkts tx_msgbuf)))))) /\
  SSlot.in_wheel (SSlot.client_info sslot') !!! Z.to_nat r = true /\
  (forall j, j <> Z.to_nat r ->
     SSlot.in_wheel (SSlot.client_info sslot') !!! j
     = SSlot.in_wheel (SSlot.client_info sslot) !!! j) /\
  SSlot.wheel_count (SSlot.client_info sslot')
    = SSlot.wheel_count (SSlot.client_info sslot) + 1 /\
  (forall tsc,
     length (pending_entries cfg (wheel_insert wheel ref pkt_num tsc) ref r)
     = S (length (pending_entries cfg wheel ref r))) /\
  (forall tsc,
     SSlot.in_wheel (SSlot.client_info sslot) !!! Z.to_nat r = false ->
     in_wheel_exact cfg wheel ref sslot ->
     in_wheel_exact cfg (wheel_insert wheel ref pkt_num tsc) ref sslot').
Proof.
  intros Htx HK Hpkt Hlen Hcount r sslot'.
  assert (Hr : 0 <= r < kSessionCredits cfg) by (by apply Z.mod_pos_bound).
  assert (Hrlen : (Z.to_nat r
                   < length (SSlot.in_wheel (SSlot.client_info sslot)))%nat)
    by lia.
  assert (Hbit : SSlot.in_wheel (SSlot.client_info sslot') !!! Z.to_nat r
                 = true).
  { simpl. unfold SizeT.rem. fold r.
    by apply list_lookup_total_insert_eq. }
  assert (Hother : forall j, j <> Z.to_nat r ->
            SSlot.in_wheel (SSlot.client_info sslot') !!! j
            = SSlot.in_wheel (SSlot.client_info sslot) !!! j).
  { intros j Hj. simpl. unfold SizeT.rem. fold r.
    by apply list_lookup_total_insert_ne. }
  assert (Hpending : forall tsc,
            length (pending_entries cfg (wheel_insert wheel ref pkt_num tsc)
                      ref r)
            = S (length (pending_entries cfg wheel ref r))).
  { intros tsc. rewrite pending_entries_insert. fold r.
    rewrite decide_True by done. rewrite length_app. simpl. lia. }
  split; [| split; [| split; [done | split; [done | split;
    [| split; [done |]]]]]].
  - unfold enqueue_wheel_req_st. by rewrite Htx.
  - intros resp_msgbuf. unfold enqueue_wheel_rfr_st. by rewrite Htx.
  - simpl. unfold SizeT.add. apply wrap_small.
    unfold SizeT.in_range. lia.
  - intros tsc Hclear Hinv i Hi.
    destruct (decide (i = r)) as [-> | Hne].
    + rewrite Hpending, Hbit. rewrite (Hinv r Hr), Hclear. done.
    + rewrite Hother by lia. rewrite pending_entries_insert. fold r.
      rewrite decide_False by (intros [_ ?]; done).
      rewrite app_nil_r. by apply Hinv.
Qed.

Lemma enqueue_wheel_st_marks_slot_witness :
  let sslot := start_request sample_config (sample_args 41) (sample_sslot 0) in
  enqueue_wheel_req_st sample_config
    (fun m _ => 16 + MsgBuffer.data_size m) (fun _ now sz => now + sz)
    1000 (0, 0) sslot (sample_session 50 [] []) 0 []
  = Ok (mark_in_wheel sample_config sslot 0,
        [{| ent_sslot := (0, 0); ent_pkt_num := 0; ent_tx_tsc := 1021 |}]).
Proof.
  apply (enqueue_wheel_st_marks_slot sample_config
           (fun m _ => 16 + MsgBuffer.data_size m) (fun _ now sz => now + sz)
           1000 (0, 0)
           (start_request sample_config (sample_args 41) (sample_sslot 0))
           (sample_session 50 [] []) 0 [] garbage_msgbuf
           eq_refl eq_refl ltac:(vm_compute; discriminate) eq_refl
           ltac:(vm_compute; split; [discriminate | reflexivity])).
Defined.

(** ** Further properties of the MsgBuffer functions *)

(** [alloc_msg_buffer_or_die] returns exactly the valid MsgBuffers that
    [alloc_msg_buffer] returns, with the same allocator and memory; where
    [alloc_msg_buffer] returns an invalid MsgBuffer or throws, it throws; it
    fails an assertion exactly when [alloc_msg_buffer] does. *)
Theorem alloc_msg_buffer_or_die_spec `{HugeAlloc H} cfg uninit max_data_size
    (h : H) mem :
  (forall m h' mem',
     alloc_msg_buffer_or_die cfg uninit max_data_size h mem = Ok (m, h', mem')
     <-> alloc_msg_buffer cfg uninit max_data_size h mem = Ok (m, h', mem')
         /\ MsgBuffer.is_valid m = true) /\
  (alloc_msg_buffer_or_die cfg uninit max_data_size h mem = Throw <->
   alloc_msg_buffer cfg uninit max_data_size h mem = Throw \/
   exists m h' mem',
     alloc_msg_buffer cfg uninit max_data_size h mem = Ok (m, h', mem') /\
     MsgBuffer.buf m = 0) /\
  (alloc_msg_buffer_or_die cfg uninit max_data_size h mem = AssertFail <->
   alloc_msg_buffer cfg uninit max_data_size h mem = AssertFail).
Proof.
  unfold alloc_msg_buffer_or_die.
  destruct (alloc_msg_buffer cfg uninit max_data_size h mem)
    as [[[m0 h0] mem0] | | |]; simpl.
  - unfold MsgBuffer.is_valid, rt_assert.
    destruct (Z.eqb_spec (MsgBuffer.buf m0) 0) as [Hz | Hnz]; simpl.
    + split; [| split].
      * intros m h' mem'. split; [done |].
        intros [[= <- <- <-] Hv]. rewrite Hz in Hv. done.
      * split; [| done]. intros _. right. by exists m0, h0, mem0.
      * done.
    + split; [| split].
      * intros m h' mem'. split.
        -- intros [= <- <- <-]. split; [done |].
           by apply negb_true_iff, Z.eqb_neq.
        -- by intros [[= <- <- <-] _].
      * split; [done |]. intros [? | (m & h' & mem' & [= <- <- <-] & ?)]; done.
      * done.
  - split; [| split]; [| | done].
    + intros m h' mem'. split; [done | by intros [? _]].
    + split; [done |]. intros [? | (m & h' & mem' & ? & _)]; done.
  - split; [| split]; [| | done].
    + intros m h' mem'. split; [done | by intros [? _]].
    + split; [intros _; by left | done].
  - split; [| split]; [| | done].
    + intros m h' mem'. split; [done | by intros [? _]].
    + split; [done |]. intros [? | (m & h' & mem' & ? & _)]; done.
Qed.

Lemma kMaxMsgSize_no_underflow cfg :
  constants_well_formed cfg ->
  sizeof_pkthdr cfg <= kMaxDataPerPkt cfg ->
  kMaxMsgSize cfg =
  kMaxClassSize cfg
  - kMaxClassSize cfg / kMaxDataPerPkt cfg * sizeof_pkthdr cfg.
Proof.
  intros (HC & HD & HH & _) Hle. rewrite kMaxMsgSize_unfold.
  unfold SizeT.in_range, SizeT.modulus in *.
  pose proof (Z.div_mod (kMaxClassSize cfg) (kMaxDataPerPkt cfg) ltac:(lia)).
  pose proof (Z.mod_pos_bound (kMaxClassSize cfg) (kMaxDataPerPkt cfg)
                ltac:(lia)).
  assert (0 <= kMaxClassSize cfg / kMaxDataPerPkt cfg)
    by (apply Z.div_pos; lia).
  apply Z.mod_small. nia.
Qed.

(** When a packet header is no larger than the data of a packet and the
    remainder of [kMaxClassSize / kMaxDataPerPkt] is at most the header bytes
    [kMaxMsgSize] sets aside (as when [kMaxDataPerPkt] divides
    [kMaxClassSize]), every message of up to [kMaxMsgSize] data bytes fits the
    largest allocation class together with its packet headers: the size
    [alloc_msg_buffer] asks the allocator for is at most [kMaxClassSize]
    (taken to be at most [2^63]). *)
Theorem max_msg_size_fits_max_class cfg data_size :
  constants_well_formed cfg ->
  kMaxClassSize cfg <= 2 ^ 63 ->
  sizeof_pkthdr cfg <= kMaxDataPerPkt cfg ->
  kMaxClassSize cfg mod kMaxDataPerPkt cfg
    <= kMaxClassSize cfg / kMaxDataPerPkt cfg * sizeof_pkthdr cfg ->
  0 < data_size <= kMaxMsgSize cfg ->
  data_size + data_size_to_num_pkts cfg data_size * sizeof_pkthdr cfg
    <= kMaxClassSize cfg /\
  SizeT.add data_size
    (SizeT.mul (data_size_to_num_pkts cfg data_size) (sizeof_pkthdr cfg))
  = data_size + data_size_to_num_pkts cfg data_size * sizeof_pkthdr cfg.
Proof.
  intros Hwf Hbig Hle Hrem Hsz.
  pose proof (kMaxMsgSize_no_underflow cfg Hwf Hle) as HM.
  destruct Hwf as (HC & HD & HH & _).
  unfold SizeT.in_range, SizeT.modulus in *.
  set (C := kMaxClassSize cfg) in *. set (D := kMaxDataPerPkt cfg) in *.
  set (Hs := sizeof_pkthdr cfg) in *.
  pose proof (Z.div_mod C D ltac:(lia)) as Hdm.
  pose proof (Z.mod_pos_bound C D ltac:(lia)) as Hmod.
  assert (Hq : 0 <= C / D) by (apply Z.div_pos; lia).
  assert (Hn : 1 <= data_size_to_num_pkts cfg data_size <= C / D).
  { rewrite data_size_to_num_pkts_spec_upto
      by (unfold SizeT.modulus; fold D; lia).
    unfold num_pkts_spec. fold D.
    pose proof (ceil_div_bounds data_size D ltac:(lia)) as Hc.
    assert (1 <= C / D) by nia.
    assert (ceil_div data_size D <= C / D) by nia. lia. }
  assert (Hfit : data_size + data_size_to_num_pkts cfg data_size * Hs <= C)
    by nia.
  split; [done |].
  unfold SizeT.add, SizeT.mul.
  rewrite (wrap_small (_ * _))
    by (unfold SizeT.in_range, SizeT.modulus; nia).
  apply wrap_small. unfold SizeT.in_range, SizeT.modulus. nia.
Qed.

Lemma max_msg_size_fits_max_class_witness :
  kMaxMsgSize sample_config
  + data_size_to_num_pkts sample_config (kMaxMsgSize sample_config) * 16
  <= 8 * 1024 * 1024.
Proof.
  apply (max_msg_size_fits_max_class sample_config (kMaxMsgSize sample_config)).
  - unfold constants_well_formed, SizeT.in_range, SizeT.modulus.
    vm_compute. intuition discriminate.
  - vm_compute. discriminate.
  - vm_compute. discriminate.
  - vm_compute. discriminate.
  - vm_compute. split; [reflexivity | discriminate].
Defined.

(** ** Receive-ring entries *)

(** Taking the ring entries of a session and giving them back restores the
    count, and so does giving back and taking again while the count stays
    within [kNumRxRingEntries]. *)
Theorem ring_entries_round_trip cfg kNumRxRingEntries avail :
  0 <= kSessionCredits cfg ->
  0 <= avail <= kNumRxRingEntries ->
  kNumRxRingEntries < SizeT.modulus ->
  (have_ring_entries cfg avail = true ->
   (avail' ← alloc_ring_entries cfg avail ;
    free_ring_entries cfg kNumRxRingEntries avail') = Ok avail) /\
  (avail + kSessionCredits cfg <= kNumRxRingEntries ->
   (avail' ← free_ring_entries cfg kNumRxRingEntries avail ;
    alloc_ring_entries cfg avail') = Ok avail).
Proof.
  intros HK Havail Hmax. unfold SizeT.modulus in Hmax.
  unfold alloc_ring_entries, free_ring_entries, have_ring_entries.
  split.
  - intros Hhave. rewrite Hhave, assert_true. simpl.
    apply Z.leb_le in Hhave.
    unfold SizeT.sub, SizeT.add.
    rewrite (wrap_small (avail - _))
      by (unfold SizeT.in_range, SizeT.modulus; lia).
    replace (avail - kSessionCredits cfg + kSessionCredits cfg) with avail
      by lia.
    rewrite wrap_small by (unfold SizeT.in_range, SizeT.modulus; lia).
    assert ((avail <=? kNumRxRingEntries) = true) as ->
      by (apply Z.leb_le; lia).
    by rewrite assert_true.
  - intros Hroom. cbv zeta. unfold SizeT.add.
    rewrite wrap_small by (unfold SizeT.in_range, SizeT.modulus; lia).
    assert ((avail + kSessionCredits cfg <=? kNumRxRingEntries) = true) as ->
      by (apply Z.leb_le; lia).
    rewrite assert_true. simpl.
    assert ((kSessionCredits cfg <=? avail + kSessionCredits cfg) = true)
      as -> by (apply Z.leb_le; lia).
    rewrite assert_true. simpl. f_equal. unfold SizeT.sub.
    replace (avail + kSessionCredits cfg - kSessionCredits cfg) with avail
      by lia.
    apply wrap_small. unfold SizeT.in_range, SizeT.modulus. lia.
Qed.

Lemma ring_entries_round_trip_witness :
  (avail' ← alloc_ring_entries sample_config 4096 ;
   free_ring_entries sample_config 4096 avail') = Ok 4096.
Proof.
  apply (ring_entries_round_trip sample_config 4096 4096
           ltac:(vm_compute; discriminate)
           ltac:(vm_compute; split; discriminate) eq_refl).
  reflexivity.
Defined.

Lemma alloc_ring_entries_n_ok cfg n avail :
  0 < kSessionCredits cfg ->
  0 <= avail < SizeT.modulus ->
  Z.of_nat n * kSessionCredits cfg <= avail ->
  alloc_ring_entries_n cfg n avail
  = Ok (avail - Z.of_nat n * kSessionCredits cfg).
Proof.
  intros HK. revert avail. induction n as [| n IH]; intros avail Havail Hn.
  - simpl. f_equal. lia.
  - cbn [alloc_ring_entries_n]. unfold alloc_ring_entries, have_ring_entries.
    assert ((kSessionCredits cfg <=? avail) = true) as ->
      by (apply Z.leb_le; nia).
    rewrite assert_true. simpl.
    unfold SizeT.sub.
    rewrite wrap_small by (unfold SizeT.in_range; nia).
    rewrite IH by nia. f_equal. lia.
Qed.

(** From the initial count [kNumRxRingEntries], exactly
    [get_max_num_sessions()] sessions can take their ring entries: the first
    that many allocations leave [have_ring_entries] false only after the last
    of them, and in a build that checks assertions one more allocation
    fails. *)
Theorem ring_entries_capacity cfg kNumRxRingEntries n :
  0 < kSessionCredits cfg ->
  0 <= kNumRxRingEntries < SizeT.modulus ->
  let max := get_max_num_sessions cfg kNumRxRingEntries in
  (Z.of_nat n <= max ->
   alloc_ring_entries_n cfg n kNumRxRingEntries
   = Ok (kNumRxRingEntries - Z.of_nat n * kSessionCredits cfg) /\
   (have_ring_entries cfg
      (kNumRxRingEntries - Z.of_nat n * kSessionCredits cfg) = true
    <-> Z.of_nat n < max)) /\
  (max < Z.of_nat n -> NDEBUG cfg = false ->
   alloc_ring_entries_n cfg n kNumRxRingEntries = AssertFail).
Proof.
  intros HK HN max. unfold get_max_num_sessions, SizeT.div in max.
  pose proof (Z.div_mod kNumRxRingEntries (kSessionCredits cfg) ltac:(lia))
    as Hdm.
  pose proof (Z.mod_pos_bound kNumRxRingEntries (kSessionCredits cfg) HK)
    as Hmod.
  fold max in Hdm. split.
  - intros Hle. split.
    + apply alloc_ring_entries_n_ok; [done | done | nia].
    + unfold have_ring_entries. rewrite Z.leb_le. split; intros ?; nia.
  - intros Hgt Hdebug.
    assert (0 <= max) by (apply Z.div_pos; lia).
    assert (Hsplit : exists k, n = (Z.to_nat max + S k)%nat).
    { exists (n - Z.to_nat max - 1)%nat. lia. }
    destruct Hsplit as [k ->].
    assert (Hrun : forall a b avail,
              alloc_ring_entries_n cfg (a + b) avail
              = (avail' ← alloc_ring_entries_n cfg a avail ;
                 alloc_ring_entries_n cfg b avail')).
    { induction a as [| a IH]; intros b avail; [done |].
      cbn [Nat.add alloc_ring_entries_n].
      destruct (alloc_ring_entries cfg avail); simpl; auto. }
    rewrite Hrun, alloc_ring_entries_n_ok by (try done; lia).
    simpl. unfold alloc_ring_entries, have_ring_entries, assert.
    rewrite Hdebug.
    assert ((kSessionCredits cfg
             <=? kNumRxRingEntries
                 - Z.of_nat (Z.to_nat max) * kSessionCredits cfg) = false)
      as -> by (apply Z.leb_gt; nia).
    done.
Qed.

Lemma ring_entries_capacity_witness :
  alloc_ring_entries_n sample_config 3 30 = Ok 6 /\
  alloc_ring_entries_n sample_config 4 30 = AssertFail.
Proof.
  destruct (ring_entries_capacity sample_config 30 3 eq_refl
              ltac:(vm_compute; split; [discriminate | reflexivity]))
    as [Hok _].
  destruct (ring_entries_capacity sample_config 30 4 eq_refl
              ltac:(vm_compute; split; [discriminate | reflexivity]))
    as [_ Hfail].
  split.
  - exact (proj1 (Hok ltac:(vm_compute; discriminate))).
  - exact (Hfail eq_refl eq_refl).
Defined.

(** ** Packet numbers and packet indices *)

(** For a request of [num_req_pkts] packets and a response of [num_resp_pkts]
    packets, [wire_pkts] is their sum less one, and [resp_ntoi] maps the packet
    numbers [num_req_pkts - 1 .. wire_pkts - 1] one-to-one onto the response
    packet indices [0 .. num_resp_pkts - 1]; a smaller packet number wraps
    around to an index beyond the response. *)
Theorem resp_ntoi_bijection num_req_pkts num_resp_pkts :
  1 <= num_req_pkts -> 1 <= num_resp_pkts ->
  num_req_pkts + num_resp_pkts - 1 < SizeT.modulus ->
  wire_pkts num_req_pkts num_resp_pkts = num_req_pkts + num_resp_pkts - 1 /\
  (forall pkt_num,
     num_req_pkts - 1 <= pkt_num < wire_pkts num_req_pkts num_resp_pkts ->
     0 <= resp_ntoi pkt_num num_req_pkts < num_resp_pkts /\
     resp_ntoi pkt_num num_req_pkts + (num_req_pkts - 1) = pkt_num) /\
  (forall idx,
     0 <= idx < num_resp_pkts ->
     num_req_pkts - 1 <= idx + (num_req_pkts - 1)
       < wire_pkts num_req_pkts num_resp_pkts /\
     resp_ntoi (idx + (num_req_pkts - 1)) num_req_pkts = idx) /\
  (forall pkt_num,
     0 <= pkt_num < num_req_pkts - 1 ->
     num_resp_pkts <= resp_ntoi pkt_num num_req_pkts).
Proof.
  intros Hreq Hresp Hsum. unfold SizeT.modulus in Hsum.
  assert (Hwire : wire_pkts num_req_pkts num_resp_pkts
                  = num_req_pkts + num_resp_pkts - 1).
  { unfold wire_pkts. rewrite sub_add_one. apply wrap_small.
    unfold SizeT.in_range, SizeT.modulus. lia. }
  assert (Hsub : SizeT.sub num_req_pkts 1 = num_req_pkts - 1).
  { apply wrap_small. unfold SizeT.in_range, SizeT.modulus. lia. }
  rewrite Hwire. unfold resp_ntoi. rewrite Hsub.
  split; [done |]. split; [| split].
  - intros pkt_num Hpkt. unfold SizeT.sub.
    rewrite wrap_small by (unfold SizeT.in_range, SizeT.modulus; lia). lia.
  - intros idx Hidx. split; [lia |]. unfold SizeT.sub.
    rewrite wrap_small by (unfold SizeT.in_range, SizeT.modulus; lia). lia.
  - intros pkt_num Hpkt. unfold SizeT.sub, SizeT.wrap, SizeT.modulus.
    replace (pkt_num - (num_req_pkts - 1))
      with (pkt_num - (num_req_pkts - 1) + 2 ^ 64 + (-1) * 2 ^ 64) by lia.
    rewrite Z.mod_add by lia. rewrite Z.mod_small by lia. lia.
Qed.

Lemma resp_ntoi_bijection_witness :
  wire_pkts 3 4 = 6 /\ resp_ntoi 2 3 = 0 /\ resp_ntoi 5 3 = 3.
Proof.
  destruct (resp_ntoi_bijection 3 4 ltac:(vm_compute; discriminate)
              ltac:(vm_compute; discriminate) eq_refl)
    as (Hwire & _ & Hidx & _).
  split; [exact Hwire |].
  split.
  - exact (proj2 (Hidx 0 ltac:(vm_compute; split;
                                 [discriminate | reflexivity]))).
  - exact (proj2 (Hidx 3 ltac:(vm_compute; split;
                                 [discriminate | reflexivity]))).
Defined.

(** ** Copying packet data into a MsgBuffer *)

Lemma copy_offsets cfg pkt_idx msg_size :
  0 < kMaxDataPerPkt cfg < SizeT.modulus ->
  0 <= msg_size <= 2 ^ 63 ->
  0 <= pkt_idx < data_size_to_num_pkts cfg msg_size ->
  let D := kMaxDataPerPkt cfg in
  let num := data_size_to_num_pkts cfg msg_size in
  SizeT.mul pkt_idx D = pkt_idx * D /\
  SizeT.sub msg_size (pkt_idx * D) = msg_size - pkt_idx * D /\
  0 <= msg_size - pkt_idx * D /\
  (pkt_idx + 1 < num -> D <= msg_size - pkt_idx * D) /\
  (pkt_idx + 1 = num -> msg_size - pkt_idx * D <= D).
Proof.
  intros HD Hsz Hidx D num. unfold SizeT.modulus in HD.
  assert (Hnum : num = num_pkts_spec cfg msg_size)
    by (apply data_size_to_num_pkts_spec_upto;
        [unfold SizeT.modulus |]; lia).
  unfold num_pkts_spec in Hnum. fold D in Hnum, HD.
  pose proof (ceil_div_bounds msg_size D ltac:(lia)) as Hc.
  fold num in Hidx.
  assert (Hoff : 0 <= pkt_idx * D <= msg_size) by nia.
  split; [apply wrap_small; unfold SizeT.in_range, SizeT.modulus; lia |].
  split; [apply wrap_small; unfold SizeT.in_range, SizeT.modulus; lia |].
  split; [lia |]. split; intros ?; nia.
Qed.

(** For a packet index below the packet count of [msg_size], with the message
    inside the payload region and a full packet in the receive buffer,
    [copy_data_to_msgbuf] is defined, writes only the bytes
    [pkt_idx * kMaxDataPerPkt .. + to_copy) of the payload, which lie inside
    the message, copies a full packet for every index but the last and ends
    exactly at [msg_size] for the last. *)
Theorem copy_data_to_msgbuf_in_bounds cfg payload pkt_idx msg_size pkt_data :
  0 < kMaxDataPerPkt cfg < SizeT.modulus ->
  0 <= msg_size <= 2 ^ 63 ->
  msg_size <= Z.of_nat (length payload) ->
  kMaxDataPerPkt cfg <= Z.of_nat (length pkt_data) ->
  0 <= pkt_idx < data_size_to_num_pkts cfg msg_size ->
  let offset := pkt_idx * kMaxDataPerPkt cfg in
  let to_copy := Z.min (kMaxDataPerPkt cfg) (msg_size - offset) in
  0 <= to_copy /\ offset + to_copy <= msg_size /\
  (pkt_idx + 1 < data_size_to_num_pkts cfg msg_size ->
   to_copy = kMaxDataPerPkt cfg) /\
  (pkt_idx + 1 = data_size_to_num_pkts cfg msg_size ->
   offset + to_copy = msg_size) /\
  exists payload',
    copy_data_to_msgbuf cfg payload pkt_idx msg_size pkt_data = Ok payload' /\
    length payload' = length payload /\
    (forall i : nat,
       payload' !! i =
       if decide (offset <= Z.of_nat i < offset + to_copy)
       then pkt_data !! (i - Z.to_nat offset)%nat
       else payload !! i).
Proof.
  intros HD Hsz Hlen Hpkt Hidx offset to_copy.
  destruct (copy_offsets cfg pkt_idx msg_size HD Hsz Hidx)
    as (Hmul & Hsub & Hnonneg & Hfull & Hlast).
  fold offset in Hmul, Hsub, Hnonneg, Hfull, Hlast.
  assert (Hoff : 0 <= offset) by (unfold offset; nia).
  split; [lia |]. split; [lia |]. split; [lia |]. split; [lia |].
  unfold copy_data_to_msgbuf, memcpy. rewrite Hmul. fold offset.
  rewrite Hsub. fold to_copy.
  assert ((Z.of_nat (length pkt_data) <? to_copy) = false) as ->
    by (apply Z.ltb_ge; lia).
  assert ((Z.of_nat (length payload) <? offset + to_copy) = false) as ->
    by (apply Z.ltb_ge; lia).
  simpl. eexists. split; [done |]. split.
  - rewrite !length_app, !length_take, length_drop. lia.
  - intros i. case_decide as Hi.
    + rewrite lookup_app_r by (rewrite length_take; lia).
      rewrite length_take.
      replace (Z.to_nat offset `min` length payload)%nat
        with (Z.to_nat offset) by lia.
      rewrite lookup_app_l by (rewrite length_take; lia).
      apply lookup_take_lt. lia.
    + destruct (decide (Z.of_nat i < offset)) as [Hlt | Hge].
      * rewrite lookup_app_l by (rewrite length_take; lia).
        apply lookup_take_lt. lia.
      * rewrite lookup_app_r by (rewrite length_take; lia).
        rewrite lookup_app_r by (rewrite !length_take; lia).
        rewrite !length_take, lookup_drop. f_equal. lia.
Qed.

Lemma copy_data_to_msgbuf_in_bounds_witness :
  exists payload',
    copy_data_to_msgbuf tiny_config [0; 0; 0; 0; 0; 0; 0; 0] 1 6 [5; 6; 7; 8]
      = Ok payload' /\
    length payload' = 8%nat.
Proof.
  destruct (copy_data_to_msgbuf_in_bounds tiny_config
              [0; 0; 0; 0; 0; 0; 0; 0] 1 6 [5; 6; 7; 8]
              ltac:(vm_compute; split; reflexivity)
              ltac:(vm_compute; split; discriminate)
              ltac:(vm_compute; discriminate)
              ltac:(vm_compute; discriminate)
              ltac:(vm_compute; split; [discriminate | reflexivity]))
    as (_ & _ & _ & _ & payload' & Hrun & Hlen & _).
  exists payload'. exact (conj Hrun Hlen).
Defined.

(** [copy_data_to_msgbuf] does not guard the packet index: for an index whose
    offset lies beyond [msg_size], the subtraction [msg_size - offset] wraps
    around and a full packet is copied to that offset, outside the message;
    if the payload region ends with the message the copy leaves it. *)
Theorem copy_data_to_msgbuf_past_end cfg payload pkt_idx msg_size pkt_data :
  0 < kMaxDataPerPkt cfg ->
  0 <= msg_size < pkt_idx * kMaxDataPerPkt cfg ->
  pkt_idx * kMaxDataPerPkt cfg + kMaxDataPerPkt cfg <= SizeT.modulus ->
  copy_data_to_msgbuf cfg payload pkt_idx msg_size pkt_data
  = memcpy payload (pkt_idx * kMaxDataPerPkt cfg) pkt_data
      (kMaxDataPerPkt cfg) /\
  (Z.of_nat (length payload) = msg_size ->
   copy_data_to_msgbuf cfg payload pkt_idx msg_size pkt_data = Undefined).
Proof.
  intros HD Hpast Hmax. unfold SizeT.modulus in Hmax.
  assert (Hrun : copy_data_to_msgbuf cfg payload pkt_idx msg_size pkt_data
                 = memcpy payload (pkt_idx * kMaxDataPerPkt cfg) pkt_data
                     (kMaxDataPerPkt cfg)).
  { unfold copy_data_to_msgbuf. unfold SizeT.mul.
    rewrite wrap_small by (unfold SizeT.in_range, SizeT.modulus; lia).
    f_equal. unfold SizeT.sub, SizeT.wrap, SizeT.modulus.
    replace (msg_size - pkt_idx * kMaxDataPerPkt cfg)
      with (msg_size - pkt_idx * kMaxDataPerPkt cfg + 2 ^ 64
            + (-1) * 2 ^ 64) by lia.
    rewrite Z.mod_add by lia. rewrite Z.mod_small by lia. lia. }
  split; [done |]. intros Hlen. rewrite Hrun. unfold memcpy.
  assert ((Z.of_nat (length payload)
           <? pkt_idx * kMaxDataPerPkt cfg + kMaxDataPerPkt cfg) = true)
    as -> by (apply Z.ltb_lt; lia).
  by rewrite orb_true_r.
Qed.

Lemma copy_data_to_msgbuf_past_end_witness :
  copy_data_to_msgbuf tiny_config [0; 0; 0; 0; 0; 0] 2 6 [5; 6; 7; 8]
  = Undefined.
Proof.
  apply (copy_data_to_msgbuf_past_end tiny_config [0; 0; 0; 0; 0; 0] 2 6
           [5; 6; 7; 8] eq_refl
           ltac:(vm_compute; split; [discriminate | reflexivity])
           ltac:(vm_compute; discriminate)).
  reflexivity.
Defined.

Lemma copy_data_to_msgbuf_step cfg payload0 data pkt_idx pkt_data :
  0 < kMaxDataPerPkt cfg < SizeT.modulus ->
  Z.of_nat (length data) <= 2 ^ 63 ->
  (length data <= length payload0)%nat ->
  0 <= pkt_idx < data_size_to_num_pkts cfg (Z.of_nat (length data)) ->
  pkt_chunk cfg data pkt_idx `prefix_of` pkt_data ->
  let o := Z.to_nat (pkt_idx * kMaxDataPerPkt cfg) in
  let o' := Z.to_nat (Z.min ((pkt_idx + 1) * kMaxDataPerPkt cfg)
                        (Z.of_nat (length data))) in
  copy_data_to_msgbuf cfg (take o data ++ drop o payload0) pkt_idx
    (Z.of_nat (length data)) pkt_data
  = Ok (take o' data ++ drop o' payload0).
Proof.
  intros HD Hsz Hlen Hidx [junk ->] o o'.
  destruct (copy_offsets cfg pkt_idx (Z.of_nat (length data)) HD
              ltac:(lia) Hidx) as (Hmul & Hsub & Hnonneg & _ & _).
  set (D := kMaxDataPerPkt cfg) in *.
  assert (Hoff : 0 <= pkt_idx * D) by nia.
  set (n := Z.min D (Z.of_nat (length data) - pkt_idx * D)).
  assert (Hchunk : length (pkt_chunk cfg data pkt_idx) = Z.to_nat n).
  { unfold pkt_chunk. fold D. rewrite length_take, length_drop. lia. }
  assert (Ho' : o' = (o + Z.to_nat n)%nat) by (unfold o, o', n; lia).
  unfold copy_data_to_msgbuf, memcpy. fold D. rewrite Hmul, Hsub. fold n.
  assert (Hdst : length (take o data ++ drop o payload0) = length payload0).
  { rewrite length_app, length_take, length_drop. lia. }
  rewrite Hdst, length_app, Hchunk.
  assert ((Z.of_nat (Z.to_nat n + length junk) <? n) = false) as ->
    by (apply Z.ltb_ge; lia).
  assert ((Z.of_nat (length payload0) <? pkt_idx * D + n) = false) as ->
    by (apply Z.ltb_ge; lia).
  simpl. f_equal. fold o.
  replace (Z.to_nat (pkt_idx * D + n)) with o' by lia.
  rewrite take_app_length' by (rewrite length_take; lia).
  rewrite take_app_length' by lia.
  rewrite drop_app_ge by (rewrite length_take; lia).
  rewrite length_take, drop_drop.
  replace (o `min` length data)%nat with o by lia.
  replace (o + (o' - o))%nat with o' by lia.
  rewrite app_assoc. f_equal.
  unfold pkt_chunk. fold D. fold o.
  rewrite take_take_drop, Ho'.
  destruct (Z.le_gt_cases D (Z.of_nat (length data) - pkt_idx * D))
    as [Hfull | Hpart].
  - f_equal. lia.
  - rewrite !take_ge by lia. done.
Qed.

Lemma copy_pkts_from cfg payload data rest pkt_idx :
  0 < kMaxDataPerPkt cfg < SizeT.modulus ->
  Z.of_nat (length data) <= 2 ^ 63 ->
  (length data <= length payload)%nat ->
  0 <= pkt_idx ->
  pkt_idx + Z.of_nat (length rest)
    = data_size_to_num_pkts cfg (Z.of_nat (length data)) ->
  (forall (i : nat) pkt_data,
     rest !! i = Some pkt_data ->
     pkt_chunk cfg data (pkt_idx + Z.of_nat i) `prefix_of` pkt_data) ->
  let o := Z.to_nat (Z.min (pkt_idx * kMaxDataPerPkt cfg)
                       (Z.of_nat (length data))) in
  copy_pkts cfg (take o data ++ drop o payload) (Z.of_nat (length data))
    pkt_idx rest
  = Ok (data ++ drop (length data) payload).
Proof.
  intros HD Hsz Hlen. revert pkt_idx.
  induction rest as [| pkt_data rest IH]; intros pkt_idx Hidx Hnum Hpkts o.
  - simpl. f_equal.
    assert (Hspec := data_size_to_num_pkts_spec_upto cfg
                       (Z.of_nat (length data)) HD ltac:(lia)).
    unfold num_pkts_spec in Hspec.
    pose proof (ceil_div_bounds (Z.of_nat (length data))
                  (kMaxDataPerPkt cfg) ltac:(lia)) as Hc.
    simpl in Hnum.
    assert (o = length data) as -> by (unfold o; nia).
    by rewrite take_ge by lia.
  - cbn [copy_pkts].
    assert (Hin : 0 <= pkt_idx
                  < data_size_to_num_pkts cfg (Z.of_nat (length data)))
      by (simpl in Hnum; lia).
    destruct (copy_offsets cfg pkt_idx (Z.of_nat (length data)) HD
                ltac:(lia) Hin) as (_ & _ & Hnonneg & _ & _).
    assert (o = Z.to_nat (pkt_idx * kMaxDataPerPkt cfg)) as ->
      by (unfold o; lia).
    rewrite (copy_data_to_msgbuf_step cfg payload data pkt_idx pkt_data
               HD Hsz Hlen Hin).
    + rewrite bind_Ok. apply IH; [lia | simpl in Hnum; lia |].
      intros i p Hp.
      replace (pkt_idx + 1 + Z.of_nat i) with (pkt_idx + Z.of_nat (S i))
        by lia.
      by apply Hpkts.
    + replace pkt_idx with (pkt_idx + Z.of_nat 0) by lia. by apply Hpkts.
Qed.

(** Reassembly: when the packets of a message arrive in order, one for each
    packet index below the packet count of the message size, and each carries
    its [kMaxDataPerPkt]-byte piece of the data (the last one what remains),
    copying them with [copy_data_to_msgbuf] leaves exactly the message at the
    start of the payload region and the bytes behind it untouched. *)
Theorem copy_pkts_reassembles cfg payload data pkts :
  0 < kMaxDataPerPkt cfg < SizeT.modulus ->
  Z.of_nat (length data) <= 2 ^ 63 ->
  (length data <= length payload)%nat ->
  Z.of_nat (length pkts)
    = data_size_to_num_pkts cfg (Z.of_nat (length data)) ->
  (forall (i : nat) pkt_data,
     pkts !! i = Some pkt_data ->
     pkt_chunk cfg data (Z.of_nat i) `prefix_of` pkt_data) ->
  copy_pkts cfg payload (Z.of_nat (length data)) 0 pkts
  = Ok (data ++ drop (length data) payload).
Proof.
  intros HD Hsz Hlen Hnum Hpkts.
  pose proof (copy_pkts_from cfg payload data pkts 0 HD Hsz Hlen
                ltac:(lia) ltac:(lia) Hpkts) as Hrun.
  cbv zeta in Hrun.
  replace (Z.to_nat (Z.min (0 * kMaxDataPerPkt cfg)
                       (Z.of_nat (length data)))) with 0%nat in Hrun by lia.
  by rewrite take_0, drop_0 in Hrun.
Qed.

Lemma copy_pkts_reassembles_witness :
  copy_pkts tiny_config [0; 0; 0; 0; 0; 0; 0; 9] 6 0 [[1; 2; 3; 4]; [5; 6; 0; 0]]
  = Ok [1; 2; 3; 4; 5; 6; 0; 9].
Proof.
  apply (copy_pkts_reassembles tiny_config [0; 0; 0; 0; 0; 0; 0; 9]
           [1; 2; 3; 4; 5; 6] [[1; 2; 3; 4]; [5; 6; 0; 0]]
           ltac:(vm_compute; split; reflexivity)
           ltac:(vm_compute; discriminate)
           ltac:(vm_compute; lia)
           eq_refl).
  intros [| [| i]] pkt_data Hp; simpl in Hp; try discriminate;
    injection Hp as <-.
  - by exists [].
  - by exists [0; 0].
Defined.

(** ** The TX batch *)

Section TxBatchFacts.
Variable cfg : Config.
Variable txc : TxConfig.
Variable dpath_rdtsc : nat -> Z.
Variable next_u32 : nat -> Z.
Variable is_req is_resp is_expl_cr is_rfr : MsgBuffer.t -> bool.
Variable get_pkthdr_n : MsgBuffer.t -> Z -> pkthdr.t.
Variable remote_routing_info : Session.t -> Z.
Variable queue_push : list pkthdr.t -> pkthdr.t -> list pkthdr.t.
Variable dpath_stat_inc : Z -> Z -> Z.

Lemma do_tx_burst_st_ok st :
  0 < Tx.tx_batch_i st ->
  exists st',
    do_tx_burst_st cfg txc dpath_rdtsc dpath_stat_inc true st = Ok st' /\
    Tx.tx_burst_arr st' = Tx.tx_burst_arr st /\
    Tx.tx_batch_i st' = 0 /\
    Tx.transport_calls st' =
      Tx.transport_calls st
      ++ [tx_burst (take (Z.to_nat (Tx.tx_batch_i st)) (Tx.tx_burst_arr st))]
    /\ Tx.pkthdr_tx_queue st' = Tx.pkthdr_tx_queue st /\
    Tx.rand_reads st' = Tx.rand_reads st /\
    Tx.pkt_drop_thresh_billion st' = Tx.pkt_drop_thresh_billion st.
Proof.
  intros Hpos. unfold do_tx_burst_st. rewrite assert_true.
  assert ((0 <? Tx.tx_batch_i st) = true) as -> by (by apply Z.ltb_lt).
  rewrite assert_true. simpl.
  destruct (kCcRTT txc); [| eexists; split; [done |]; done].
  destruct (kCcOptBatchTsc txc);
    destruct (stamp_items _ _ _ _ _ _) as [reads' slots'];
    (eexists; split; [done |]; done).
Qed.

Lemma accepted_after_burst st st' :
  Tx.tx_burst_arr st' = Tx.tx_burst_arr st ->
  Tx.tx_batch_i st' = 0 ->
  Tx.transport_calls st' =
    Tx.transport_calls st
    ++ [tx_burst (take (Z.to_nat (Tx.tx_batch_i st)) (Tx.tx_burst_arr st))] ->
  Tx.accepted st' = Tx.accepted st.
Proof.
  intros Harr Hi Hcalls. unfold Tx.accepted.
  rewrite Hcalls, Hi, map_app, concat_app. simpl.
  by rewrite take_0, !app_nil_r.
Qed.

Lemma accepted_after_fill st item :
  batch_ok txc st ->
  Tx.accepted
    (Tx.set_batch st
       (set_index (Tx.tx_burst_arr st) (Tx.tx_batch_i st) item)
       (Tx.tx_batch_i st + 1))
  = Tx.accepted st ++ [item].
Proof.
  intros [Hlen Hi]. unfold Tx.accepted, set_index. simpl.
  assert ((Tx.tx_batch_i st <? 0) = false) as -> by (apply Z.ltb_ge; lia).
  rewrite <- app_assoc. f_equal.
  replace (Z.to_nat (Tx.tx_batch_i st + 1))
    with (S (Z.to_nat (Tx.tx_batch_i st))) by lia.
  rewrite (take_S_r _ _ item)
    by (apply list_lookup_insert_eq; lia).
  by rewrite take_insert_ge by lia.
Qed.

Lemma fill_item_ok st msg_buffer pkt_idx tx_ts session :
  batch_ok txc st ->
  kPostlist txc < SizeT.modulus ->
  (kTesting cfg = true -> is_Some msg_buffer) ->
  exists st' item,
    fill_item cfg txc dpath_rdtsc next_u32 get_pkthdr_n remote_routing_info
      queue_push dpath_stat_inc msg_buffer pkt_idx tx_ts session true st
    = Ok st' /\
    batch_ok txc st' /\
    Tx.accepted st' = Tx.accepted st ++ [item] /\
    tx_burst_item.msg_buffer item = msg_buffer /\
    tx_burst_item.pkt_idx item = pkt_idx /\
    tx_burst_item.routing_info item = remote_routing_info session /\
    (kCcRTT txc = true -> tx_burst_item.tx_ts item = tx_ts) /\
    (kTesting cfg = true ->
     tx_burst_item.drop item
     = roll_pkt_drop (next_u32 (Tx.rand_reads st))
         (Tx.pkt_drop_thresh_billion st)) /\
    Tx.tx_batch_i st'
    = (if Tx.tx_batch_i st + 1 =? kPostlist txc then 0
       else Tx.tx_batch_i st + 1) /\
    Tx.pkt_drop_thresh_billion st' = Tx.pkt_drop_thresh_billion st.
Proof.
  intros Hok Hmax Hbuf. pose proof Hok as [Hlen Hi].
  unfold SizeT.modulus in Hmax. unfold fill_item.
  assert (Hsome : is_Some (at_index (Tx.tx_burst_arr st) (Tx.tx_batch_i st))).
  { unfold at_index.
    assert ((Tx.tx_batch_i st <? 0) = false) as -> by (apply Z.ltb_ge; lia).
    apply lookup_lt_is_Some. lia. }
  destruct Hsome as [old Hold]. rewrite Hold, deref_Some, bind_Ok.
  set (item2 :=
         if kCcRTT txc
         then tx_burst_item.set_tx_ts
                (tx_burst_item.set_packet old (remote_routing_info session)
                   msg_buffer pkt_idx) tx_ts
         else tx_burst_item.set_packet old (remote_routing_info session)
                msg_buffer pkt_idx).
  assert (Hitem2 : tx_burst_item.msg_buffer item2 = msg_buffer /\
                   tx_burst_item.pkt_idx item2 = pkt_idx /\
                   tx_burst_item.routing_info item2
                     = remote_routing_info session /\
                   (kCcRTT txc = true -> tx_burst_item.tx_ts item2 = tx_ts))
    by (unfold item2; destruct (kCcRTT txc); done).
  destruct Hitem2 as (Hm & Hp & Hr & Ht).
  set (st1 :=
         if kTesting cfg
         then Tx.set_testing st (S (Tx.rand_reads st))
                (queue_push (Tx.pkthdr_tx_queue st)
                   (get_pkthdr_n (default garbage_msgbuf msg_buffer) pkt_idx))
         else st).
  set (item3 :=
         if kTesting cfg
         then tx_burst_item.set_drop item2
                (roll_pkt_drop (next_u32 (Tx.rand_reads st))
                   (Tx.pkt_drop_thresh_billion st))
         else item2).
  assert (Hstep :
    (if kTesting cfg then
       m ← deref msg_buffer ;
       Ok (tx_burst_item.set_drop item2
             (roll_pkt_drop (next_u32 (Tx.rand_reads st))
                (Tx.pkt_drop_thresh_billion st)),
           Tx.set_testing st (S (Tx.rand_reads st))
             (queue_push (Tx.pkthdr_tx_queue st) (get_pkthdr_n m pkt_idx)))
     else Ok (item2, st)) = Ok (item3, st1)).
  { unfold item3, st1. destruct (kTesting cfg); [| done].
    destruct (Hbuf eq_refl) as [m ->]. done. }
  rewrite Hstep, bind_Ok.
  assert (Hst1 : Tx.tx_burst_arr st1 = Tx.tx_burst_arr st /\
                 Tx.tx_batch_i st1 = Tx.tx_batch_i st /\
                 Tx.transport_calls st1 = Tx.transport_calls st /\
                 Tx.pkt_drop_thresh_billion st1
                   = Tx.pkt_drop_thresh_billion st)
    by (unfold st1; destruct (kTesting cfg); done).
  destruct Hst1 as (Harr1 & Hi1 & Hcalls1 & Hth1).
  assert (Hok1 : batch_ok txc st1) by (unfold batch_ok; by rewrite Harr1, Hi1).
  assert (Hacc1 : Tx.accepted st1 = Tx.accepted st)
    by (unfold Tx.accepted; by rewrite Harr1, Hi1, Hcalls1).
  assert (Hitem3 : tx_burst_item.msg_buffer item3 = msg_buffer /\
                   tx_burst_item.pkt_idx item3 = pkt_idx /\
                   tx_burst_item.routing_info item3
                     = remote_routing_info session /\
                   (kCcRTT txc = true -> tx_burst_item.tx_ts item3 = tx_ts) /\
                   (kTesting cfg = true ->
                    tx_burst_item.drop item3
                    = roll_pkt_drop (next_u32 (Tx.rand_reads st))
                        (Tx.pkt_drop_thresh_billion st))).
  { unfold item3. destruct (kTesting cfg); simpl; [| done].
    repeat split; done. }
  destruct Hitem3 as (Hm3 & Hp3 & Hr3 & Ht3 & Hd3).
  assert (Hadd : SizeT.add (Tx.tx_batch_i st1) 1 = Tx.tx_batch_i st1 + 1)
    by (apply wrap_small; unfold SizeT.in_range, SizeT.modulus; lia).
  rewrite Hadd.
  set (st2 := Tx.set_batch st1
                (set_index (Tx.tx_burst_arr st1) (Tx.tx_batch_i st1) item3)
                (Tx.tx_batch_i st1 + 1)).
  assert (Hacc2 : Tx.accepted st2 = Tx.accepted st ++ [item3])
    by (unfold st2; rewrite accepted_after_fill by done; by rewrite Hacc1).
  assert (Hlen2 : Z.of_nat (length (Tx.tx_burst_arr st2)) = kPostlist txc).
  { unfold st2, set_index. simpl.
    destruct (Tx.tx_batch_i st1 <? 0); [by rewrite Harr1 |].
    by rewrite length_insert, Harr1. }
  change (Tx.tx_batch_i st2) with (Tx.tx_batch_i st1 + 1). rewrite Hi1.
  destruct (Z.eqb_spec (Tx.tx_batch_i st + 1) (kPostlist txc)) as [Hfull | Hnot].
  - destruct (do_tx_burst_st_ok st2 ltac:(unfold st2; simpl; lia))
      as (st' & Hrun & Harr' & Hi' & Hcalls' & _ & _ & Hth').
    exists st', item3. split; [exact Hrun |].
    split; [unfold batch_ok; rewrite Harr', Hi'; split; [done | lia] |].
    split; [by rewrite (accepted_after_burst st2 st') |].
    repeat split; try done. rewrite Hth'. by unfold st2.
  - exists st2, item3. split; [done |].
    split; [unfold batch_ok; split; [done | unfold st2; simpl; lia] |].
    repeat split; try done; unfold st2; simpl; congruence.
Qed.
End TxBatchFacts.

Section TxBatchTheorems.
Variable cfg : Config.
Variable txc : TxConfig.
Variable dpath_rdtsc : nat -> Z.
Variable next_u32 : nat -> Z.
Variable is_req is_resp is_expl_cr is_rfr : MsgBuffer.t -> bool.
Variable get_pkthdr_n : MsgBuffer.t -> Z -> pkthdr.t.
Variable remote_routing_info : Session.t -> Z.
Variable queue_push : list pkthdr.t -> pkthdr.t -> list pkthdr.t.
Variable dpath_stat_inc : Z -> Z -> Z.

(** Called in the dispatch thread with a batch index inside the array, both
    enqueue functions succeed, keep the index inside the array (a full batch
    is sent at once), and add exactly one item, for the given buffer and
    packet index ([0] for a control packet) and with the session's routing
    info, behind everything accepted before: no packet is lost, repeated or
    overtaken on its way to the transport. *)
Theorem enqueue_tx_burst_keeps_order st sslot session pkt_idx tx_ts m ctrl :
  batch_ok txc st ->
  kPostlist txc < SizeT.modulus ->
  SSlot.tx_msgbuf sslot = Some m ->
  is_req m || is_resp m = true ->
  is_expl_cr ctrl || is_rfr ctrl = true ->
  (exists st' item,
     enqueue_pkt_tx_burst_st cfg txc dpath_rdtsc next_u32 is_req is_resp
       get_pkthdr_n remote_routing_info queue_push dpath_stat_inc
       true sslot session pkt_idx tx_ts st = Ok st' /\
     batch_ok txc st' /\
     Tx.accepted st' = Tx.accepted st ++ [item] /\
     tx_burst_item.msg_buffer item = Some m /\
     tx_burst_item.pkt_idx item = pkt_idx /\
     tx_burst_item.routing_info item = remote_routing_info session /\
     (kCcRTT txc = true -> tx_burst_item.tx_ts item = tx_ts)) /\
  (exists st' item,
     enqueue_hdr_tx_burst_st cfg txc dpath_rdtsc next_u32 is_expl_cr is_rfr
       get_pkthdr_n remote_routing_info queue_push dpath_stat_inc
       true session (Some ctrl) tx_ts st = Ok st' /\
     batch_ok txc st' /\
     Tx.accepted st' = Tx.accepted st ++ [item] /\
     tx_burst_item.msg_buffer item = Some ctrl /\
     tx_burst_item.pkt_idx item = 0 /\
     tx_burst_item.routing_info item = remote_routing_info session /\
     (kCcRTT txc = true -> tx_burst_item.tx_ts item = tx_ts)).
Proof.
  intros Hok Hmax Htx Hkind Hctrl. split.
  - unfold enqueue_pkt_tx_burst_st, assert_kind.
    rewrite assert_true, bind_Ok, Htx.
    destruct (fill_item_ok cfg txc dpath_rdtsc next_u32 get_pkthdr_n
                remote_routing_info queue_push dpath_stat_inc st (Some m)
                pkt_idx tx_ts session Hok Hmax ltac:(eauto))
      as (st' & item & Hrun & Hok' & Hacc & Hm & Hp & Hr & Ht & _).
    exists st', item. split; [| done].
    destruct (NDEBUG cfg); simpl; [done |]. by rewrite Hkind.
  - unfold enqueue_hdr_tx_burst_st, assert_kind.
    rewrite assert_true, bind_Ok.
    destruct (fill_item_ok cfg txc dpath_rdtsc next_u32 get_pkthdr_n
                remote_routing_info queue_push dpath_stat_inc st (Some ctrl)
                0 tx_ts session Hok Hmax ltac:(eauto))
      as (st' & item & Hrun & Hok' & Hacc & Hm & Hp & Hr & Ht & _).
    exists st', item. split; [| done].
    destruct (NDEBUG cfg); simpl; [done |]. by rewrite Hctrl.
Qed.

(** [drain_tx_batch_and_dma_queue] in the dispatch thread leaves the batch
    empty: the packets that were waiting are given to the transport in one
    burst, in their order, then the transport is flushed; the sequence of
    accepted packets is unchanged and all of it has reached the transport.
    With an empty batch only the flush is made. *)
Theorem drain_tx_batch_hands_over st :
  batch_ok txc st ->
  exists st',
    drain_tx_batch_and_dma_queue cfg txc dpath_rdtsc dpath_stat_inc true st
      = Ok st' /\
    Tx.tx_batch_i st' = 0 /\
    Tx.tx_burst_arr st' = Tx.tx_burst_arr st /\
    Tx.accepted st' = Tx.accepted st /\
    concat (map Tx.burst_items (Tx.transport_calls st')) = Tx.accepted st /\
    Tx.transport_calls st' =
      Tx.transport_calls st
      ++ (if Tx.tx_batch_i st =? 0 then []
          else [tx_burst (take (Z.to_nat (Tx.tx_batch_i st))
                            (Tx.tx_burst_arr st))])
      ++ [tx_flush].
Proof.
  intros [Hlen Hi]. unfold drain_tx_batch_and_dma_queue.
  destruct (Z.ltb_spec 0 (Tx.tx_batch_i st)) as [Hpos | Hzero].
  - destruct (do_tx_burst_st_ok cfg txc dpath_rdtsc dpath_stat_inc st Hpos)
      as (st1 & Hrun & Harr & Hi1 & Hcalls & _).
    rewrite Hrun, bind_Ok. eexists. split; [done |]. simpl.
    pose proof (accepted_after_burst st st1 Harr Hi1 Hcalls) as Hacc.
    assert ((Tx.tx_batch_i st =? 0) = false) as -> by (apply Z.eqb_neq; lia).
    split; [done |]. split; [done |].
    unfold Tx.accepted in *. simpl. rewrite Hi1 in *.
    rewrite take_0, app_nil_r in *.
    rewrite map_app, concat_app. simpl. rewrite !app_nil_r.
    rewrite Hacc. split; [done |]. split; [done |].
    by rewrite Hcalls, <- app_assoc.
  - assert (Tx.tx_batch_i st = 0) as Hz by lia.
    rewrite bind_Ok. eexists. split; [done |]. simpl. rewrite Hz. simpl.
    split; [done |]. split; [done |].
    unfold Tx.accepted. simpl. rewrite Hz. simpl.
    rewrite take_0, !app_nil_r, map_app, concat_app. simpl.
    by rewrite !app_nil_r.
Qed.
End TxBatchTheorems.

Lemma enqueue_tx_burst_keeps_order_witness :
  exists st' item,
    enqueue_pkt_tx_burst_st sample_config sample_txc (fun k => Z.of_nat k)
      (fun _ => 0) (fun _ => true) (fun _ => false)
      (fun _ _ => blank_pkthdr) (fun _ => 9) (fun q h => q ++ [h])
      (fun a b => a + b) true
      (start_request sample_config (sample_args 41) (sample_sslot 0))
      (sample_session 100 [] []) 0 64 sample_tx = Ok st' /\
    Tx.accepted st' = [item] /\
    tx_burst_item.pkt_idx item = 0.
Proof.
  destruct (enqueue_tx_burst_keeps_order sample_config sample_txc
              (fun k => Z.of_nat k) (fun _ => 0)
              (fun _ => true) (fun _ => false) (fun _ => true) (fun _ => false)
              (fun _ _ => blank_pkthdr) (fun _ => 9) (fun q h => q ++ [h])
              (fun a b => a + b) sample_tx
              (start_request sample_config (sample_args 41) (sample_sslot 0))
              (sample_session 100 [] []) 0 64 garbage_msgbuf garbage_msgbuf
              ltac:(vm_compute; intuition discriminate)
              eq_refl eq_refl eq_refl eq_refl)
    as [(st' & item & Hrun & _ & Hacc & _ & Hidx & _) _].
  exists st', item. exact (conj Hrun (conj Hacc Hidx)).
Defined.

Lemma drain_tx_batch_hands_over_witness :
  exists st',
    drain_tx_batch_and_dma_queue sample_config sample_txc
      (fun k => Z.of_nat k) (fun a b => a + b) true sample_tx_waiting
      = Ok st' /\
    Tx.tx_batch_i st' = 0.
Proof.
  destruct (drain_tx_batch_hands_over sample_config sample_txc
              (fun k => Z.of_nat k) (fun a b => a + b) sample_tx_waiting
              ltac:(vm_compute; intuition discriminate))
    as (st' & Hrun & Hi & _).
  exists st'. exact (conj Hrun Hi).
Defined.

Section TxTimestamps.
Variable cfg : Config.
Variable txc : TxConfig.
Variable dpath_rdtsc : nat -> Z.
Variable dpath_stat_inc : Z -> Z -> Z.


End TxTimestamps.


(** [roll_pkt_drop] never drops while [pkt_drop_thresh_billion] is zero, its
    initial value, always drops once the threshold reaches one billion, and a
    packet dropped at one threshold is dropped at every larger one. *)
Theorem roll_pkt_drop_thresholds next_u32 thresh :
  0 <= next_u32 ->
  (thresh <= 0 -> roll_pkt_drop next_u32 thresh = false) /\
  (1000000000 <= thresh -> roll_pkt_drop next_u32 thresh = true) /\
  (forall thresh',
     thresh <= thresh' -> roll_pkt_drop next_u32 thresh = true ->
     roll_pkt_drop next_u32 thresh' = true).
Proof.
  intros Hr. unfold roll_pkt_drop, SizeT.rem.
  pose proof (Z.mod_pos_bound next_u32 1000000000 ltac:(lia)) as Hm.
  split; [| split].
  - intros ?. apply Z.ltb_ge. lia.
  - intros ?. apply Z.ltb_lt. lia.
  - intros thresh' Hle Hdrop%Z.ltb_lt. apply Z.ltb_lt. lia.
Qed.

Lemma roll_pkt_drop_thresholds_witness :
  roll_pkt_drop 4000000123 0 = false.
Proof.
  apply (roll_pkt_drop_thresholds 4000000123 0
           ltac:(vm_compute; discriminate)).
  vm_compute; discriminate.
Defined.

(** ** The active-RPC list in memory *)

Module ActiveListFacts.
Import ActiveList.

Lemma nxt_set_next h a v h' b :
  set_next h a v = Ok h' ->
  nxt h' b = if decide (b = a) then Some v else nxt h b.
Proof.
  unfold set_next, nxt. destruct (h !! a) as [l |] eqn:Hl; [| done].
  intros [= <-]. case_decide as Hb.
  - subst. by rewrite lookup_insert_eq.
  - by rewrite lookup_insert_ne.
Qed.

Lemma prv_set_next h a v h' b :
  set_next h a v = Ok h' -> prv h' b = prv h b.
Proof.
  unfold set_next, prv. destruct (h !! a) as [l |] eqn:Hl; [| done].
  intros [= <-]. destruct (decide (b = a)) as [-> | Hb].
  - by rewrite lookup_insert_eq, Hl.
  - by rewrite lookup_insert_ne.
Qed.

Lemma prv_set_prev h a v h' b :
  set_prev h a v = Ok h' ->
  prv h' b = if decide (b = a) then Some v else prv h b.
Proof.
  unfold set_prev, prv. destruct (h !! a) as [l |] eqn:Hl; [| done].
  intros [= <-]. case_decide as Hb.
  - subst. by rewrite lookup_insert_eq.
  - by rewrite lookup_insert_ne.
Qed.

Lemma nxt_set_prev h a v h' b :
  set_prev h a v = Ok h' -> nxt h' b = nxt h b.
Proof.
  unfold set_prev, nxt. destruct (h !! a) as [l |] eqn:Hl; [| done].
  intros [= <-]. destruct (decide (b = a)) as [-> | Hb].
  - by rewrite lookup_insert_eq, Hl.
  - by rewrite lookup_insert_ne.
Qed.

Lemma lookup_set_next_ne h a v h' b :
  set_next h a v = Ok h' -> b <> a -> h' !! b = h !! b.
Proof.
  unfold set_next. destruct (h !! a); [| done].
  intros [= <-] Hb. by rewrite lookup_insert_ne.
Qed.

Lemma lookup_set_prev_ne h a v h' b :
  set_prev h a v = Ok h' -> b <> a -> h' !! b = h !! b.
Proof.
  unfold set_prev. destruct (h !! a); [| done].
  intros [= <-] Hb. by rewrite lookup_insert_ne.
Qed.

Lemma set_next_ok h a v :
  is_Some (h !! a) -> exists h', set_next h a v = Ok h'.
Proof. intros [l Hl]. unfold set_next. rewrite Hl. eauto. Qed.

Lemma set_prev_ok h a v :
  is_Some (h !! a) -> exists h', set_prev h a v = Ok h'.
Proof. intros [l Hl]. unfold set_prev. rewrite Hl. eauto. Qed.

Lemma is_Some_nxt h a : is_Some (nxt h a) <-> is_Some (h !! a).
Proof. unfold nxt. by rewrite fmap_is_Some. Qed.

Lemma is_Some_prv h a : is_Some (prv h a) <-> is_Some (h !! a).
Proof. unfold prv. by rewrite fmap_is_Some. Qed.

Lemma is_Some_set_next h a v h' b :
  set_next h a v = Ok h' -> is_Some (h' !! b) <-> is_Some (h !! b).
Proof.
  intros Hset. rewrite <- !is_Some_prv. by rewrite (prv_set_next _ _ _ _ _ Hset).
Qed.

Lemma is_Some_set_prev h a v h' b :
  set_prev h a v = Ok h' -> is_Some (h' !! b) <-> is_Some (h !! b).
Proof.
  intros Hset. rewrite <- !is_Some_nxt. by rewrite (nxt_set_prev _ _ _ _ _ Hset).
Qed.

Lemma get_prev_prv h a v : prv h a = Some v -> get_prev h a = Ok v.
Proof.
  unfold prv, get_prev. destruct (h !! a); simpl; [| done].
  by intros [= <-].
Qed.

Lemma get_next_nxt h a v : nxt h a = Some v -> get_next h a = Ok v.
Proof.
  unfold nxt, get_next. destruct (h !! a); simpl; [| done].
  by intros [= <-].
Qed.

(** A chain only depends on the [next] of its nodes but the last and on the
    [prev] of its nodes but the first. *)
Lemma chain_frame h h' a l t :
  (forall y, y ∈ a :: l -> nxt h' y = nxt h y) ->
  (forall y, y ∈ l ++ [t] -> prv h' y = prv h y) ->
  chain h a l t -> chain h' a l t.
Proof.
  revert a. induction l as [| b l IH]; intros a Hn Hp; simpl.
  - intros [H1 H2]. split.
    + rewrite Hn; [done | by left].
    + rewrite Hp; [done | by left].
  - intros [[H1 H2] Hc]. split; [split |].
    + rewrite Hn; [done | by left].
    + rewrite Hp; [done | by left].
    + apply IH; [| | done].
      * intros y Hy. apply Hn. by right.
      * intros y Hy. apply Hp. by right.
Qed.
Lemma add_effect h t x p :
  prv h t = Some p -> is_Some (h !! p) -> is_Some (h !! x) ->
  exists h',
    add_to_active_rpc_list t x h = Ok h' /\
    (forall y, nxt h' y = if decide (y = x) then Some t
                          else if decide (y = p) then Some x else nxt h y) /\
    (forall y, prv h' y = if decide (y = t) then Some x
                          else if decide (y = x) then Some p else prv h y) /\
    (forall y, y <> p -> y <> x -> y <> t -> h' !! y = h !! y).
Proof.
  intros Hprev Hp Hx.
  assert (Ht : is_Some (h !! t)) by (apply is_Some_prv; by rewrite Hprev).
  unfold add_to_active_rpc_list. rewrite (get_prev_prv _ _ _ Hprev), bind_Ok.
  destruct (set_next_ok h p x Hp) as [h1 H1]. rewrite H1, bind_Ok.
  destruct (set_prev_ok h1 x p) as [h2 H2];
    [by apply (is_Some_set_next _ _ _ _ x H1) |]. rewrite H2, bind_Ok.
  destruct (set_next_ok h2 x t) as [h3 H3];
    [apply (is_Some_set_prev _ _ _ _ x H2);
     by apply (is_Some_set_next _ _ _ _ x H1) |]. rewrite H3, bind_Ok.
  destruct (set_prev_ok h3 t x) as [h4 H4];
    [apply (is_Some_set_next _ _ _ _ t H3);
     apply (is_Some_set_prev _ _ _ _ t H2);
     by apply (is_Some_set_next _ _ _ _ t H1) |].
  exists h4. split; [done |]. split; [| split].
  - intros y. rewrite (nxt_set_prev _ _ _ _ y H4), (nxt_set_next _ _ _ _ y H3),
      (nxt_set_prev _ _ _ _ y H2), (nxt_set_next _ _ _ _ y H1). done.
  - intros y. rewrite (prv_set_prev _ _ _ _ y H4), (prv_set_next _ _ _ _ y H3),
      (prv_set_prev _ _ _ _ y H2), (prv_set_next _ _ _ _ y H1). done.
  - intros y Hyp Hyx Hyt.
    rewrite (lookup_set_prev_ne _ _ _ _ y H4 Hyt),
      (lookup_set_next_ne _ _ _ _ y H3 Hyx),
      (lookup_set_prev_ne _ _ _ _ y H2 Hyx),
      (lookup_set_next_ne _ _ _ _ y H1 Hyp). done.
Qed.

Lemma add_chain h a l t x :
  chain h a l t ->
  NoDup (a :: l ++ [t]) ->
  x ∉ a :: l ++ [t] ->
  is_Some (h !! x) ->
  exists h',
    add_to_active_rpc_list t x h = Ok h' /\
    chain h' a (l ++ [x]) t /\
    (forall y, y <> x -> y <> t -> prv h' y = prv h y) /\
    (forall y, y <> x -> y ∉ a :: l -> nxt h' y = nxt h y) /\
    (forall y, y <> x -> y ∉ a :: l ++ [t] -> h' !! y = h !! y).
Proof.
  revert a. induction l as [| b l IH]; intros a Hchain Hnodup Hfresh Hx.
  - destruct Hchain as [Hn Hp]. simpl in *.
    apply NoDup_cons in Hnodup as [Hat _].
    assert (a <> t) by set_solver. assert (x <> a) by set_solver.
    assert (x <> t) by set_solver.
    destruct (add_effect h t x a Hp) as (h' & Hrun & Hnxt & Hprv & Hframe);
      [apply is_Some_nxt; by rewrite Hn | done |].
    exists h'. split; [done |]. split; [| split; [| split]].
    + unfold linked. rewrite !Hnxt, !Hprv.
      repeat case_decide; try done; congruence.
    + intros y ? ?. rewrite Hprv. by repeat case_decide.
    + intros y ? Hy. rewrite Hnxt. repeat case_decide; try done. set_solver.
    + intros y ? Hy. apply Hframe; set_solver.
  - destruct Hchain as [[Hn Hp] Hchain]. simpl in Hnodup, Hfresh.
    pose proof Hnodup as [Ha Hnodup']%NoDup_cons.
    pose proof Hnodup' as [Hb _]%NoDup_cons.
    destruct (IH b Hchain Hnodup') as (h' & Hrun & Hc & Hprv & Hnxt & Hframe);
      [set_solver | done |].
    exists h'. split; [done |]. split; [| split; [| split]].
    + simpl. split; [split |]; [| | done].
      * rewrite Hnxt; [done | set_solver | set_solver].
      * rewrite Hprv; [done | set_solver | set_solver].
    + done.
    + intros y ? Hy. apply Hnxt; set_solver.
    + intros y ? Hy. apply Hframe; set_solver.
Qed.

Lemma delete_effect h x p n :
  prv h x = Some p -> nxt h x = Some n -> p <> x -> n <> x ->
  is_Some (h !! p) -> is_Some (h !! n) ->
  exists h',
    delete_from_active_rpc_list x h = Ok h' /\
    (forall y, nxt h' y = if decide (y = p) then Some n else nxt h y) /\
    (forall y, prv h' y = if decide (y = n) then Some p else prv h y) /\
    (forall y, y <> p -> y <> n -> h' !! y = h !! y).
Proof.
  intros Hprev Hnext Hpx Hnx Hp Hn. unfold delete_from_active_rpc_list.
  rewrite (get_prev_prv _ _ _ Hprev), bind_Ok,
    (get_next_nxt _ _ _ Hnext), bind_Ok.
  destruct (set_next_ok h p n Hp) as [h1 H1]. rewrite H1, bind_Ok.
  assert (Hnext1 : nxt h1 x = Some n).
  { rewrite (nxt_set_next _ _ _ _ x H1). by rewrite decide_False. }
  assert (Hprev1 : prv h1 x = Some p)
    by (by rewrite (prv_set_next _ _ _ _ x H1)).
  rewrite (get_next_nxt _ _ _ Hnext1), bind_Ok,
    (get_prev_prv _ _ _ Hprev1), bind_Ok.
  destruct (set_prev_ok h1 n p) as [h2 H2];
    [by apply (is_Some_set_next _ _ _ _ n H1) |].
  exists h2. split; [done |]. split; [| split].
  - intros y. by rewrite (nxt_set_prev _ _ _ _ y H2),
      (nxt_set_next _ _ _ _ y H1).
  - intros y. by rewrite (prv_set_prev _ _ _ _ y H2),
      (prv_set_next _ _ _ _ y H1).
  - intros y Hyp Hyn.
    by rewrite (lookup_set_prev_ne _ _ _ _ y H2 Hyn),
      (lookup_set_next_ne _ _ _ _ y H1 Hyp).
Qed.

Lemma delete_chain h a l1 x l2 t :
  chain h a (l1 ++ x :: l2) t ->
  NoDup (a :: l1 ++ x :: l2 ++ [t]) ->
  exists h',
    delete_from_active_rpc_list x h = Ok h' /\
    chain h' a (l1 ++ l2) t /\
    (forall y, y ∉ l2 ++ [t] -> prv h' y = prv h y) /\
    (forall y, y ∉ a :: l1 -> nxt h' y = nxt h y) /\
    (forall y, y ∉ a :: l1 -> y ∉ l2 ++ [t] -> h' !! y = h !! y).
Proof.
  revert a. induction l1 as [| b l1 IH]; intros a Hchain Hnodup.
  - simpl in *. destruct Hchain as [[Hn Hp] Hchain].
    pose proof Hnodup as [Ha [Hx Hnodup2]%NoDup_cons]%NoDup_cons.
    assert (a <> x) by set_solver.
    destruct l2 as [| n l2].
    + destruct Hchain as [Hxn Hxp]. simpl in *.
      assert (t <> x) by set_solver. assert (a <> t) by set_solver.
      destruct (delete_effect h x a t Hp Hxn)
        as (h' & Hrun & Hnxt & Hprv & Hframe);
        [done | done | apply is_Some_nxt; by rewrite Hn
        | apply is_Some_prv; by rewrite Hxp |].
      exists h'. split; [done |]. split; [| split; [| split]].
      * unfold linked. rewrite Hnxt, Hprv. by rewrite !decide_True.
      * intros y Hy. rewrite Hprv. rewrite decide_False; [done | set_solver].
      * intros y Hy. rewrite Hnxt. rewrite decide_False; [done | set_solver].
      * intros y Hy1 Hy2. apply Hframe; set_solver.
    + destruct Hchain as [[Hxn Hxp] Hchain]. simpl in *.
      assert (n <> x) by set_solver. assert (a <> n) by set_solver.
      pose proof Hnodup2 as [Hn2 _]%NoDup_cons.
      destruct (delete_effect h x a n Hp Hxn)
        as (h' & Hrun & Hnxt & Hprv & Hframe);
        [done | done | apply is_Some_nxt; by rewrite Hn
        | apply is_Some_prv; by rewrite Hxp |].
      exists h'. split; [done |]. split; [| split; [| split]].
      * split.
        -- unfold linked. rewrite Hnxt, Hprv. by rewrite !decide_True.
        -- apply (chain_frame h); [| | done].
           ++ intros y Hy. rewrite Hnxt. rewrite decide_False; [done |].
              set_solver.
           ++ intros y Hy. rewrite Hprv. rewrite decide_False; [done |].
              set_solver.
      * intros y Hy. rewrite Hprv. rewrite decide_False; [done | set_solver].
      * intros y Hy. rewrite Hnxt. rewrite decide_False; [done | set_solver].
      * intros y Hy1 Hy2. apply Hframe; set_solver.
  - simpl in *. destruct Hchain as [[Hn Hp] Hchain].
    pose proof Hnodup as [Ha Hnodup']%NoDup_cons.
    pose proof Hnodup' as [Hb Hnodup'']%NoDup_cons.
    destruct (IH b Hchain Hnodup') as (h' & Hrun & Hc & Hprv & Hnxt & Hframe).
    exists h'. split; [done |]. split; [| split; [| split]].
    + split; [split |]; [| | done].
      * rewrite Hnxt; [done | set_solver].
      * rewrite Hprv; [done | set_solver].
    + done.
    + intros y Hy. apply Hnxt; set_solver.
    + intros y Hy1 Hy2. apply Hframe; set_solver.
Qed.
End ActiveListFacts.


Lemma sample_links_is_active_list :
  ActiveList.is_active_list sample_links 1 2 [].
Proof.
  split; [| by split].
  apply NoDup_cons. split; [set_solver | apply NoDup_singleton].
Qed.

Lemma sample_links_busy_is_active_list :
  ActiveList.is_active_list sample_links_busy 1 2 ([10] ++ 11 :: []).
Proof.
  split; [| by repeat split].
  repeat (apply NoDup_cons; split; [set_solver |]). apply NoDup_nil_2.
Qed.

(** X15 (rpc.h, add_to_active_rpc_list): on a well-formed active list, that
    is a chain of slots from the root sentinel to the tail sentinel in which
    every [next] is answered by the matching [prev], the four pointer writes
    for a slot that is not yet in the list succeed, leave a well-formed list
    with the slot appended just before the tail sentinel, and touch no
    object outside the list other than the slot itself. *)
Theorem add_to_active_rpc_list_appends
  (h : ActiveList.heap) (root tail : Z) (l : list Z) (sslot : Z) :
  ActiveList.is_active_list h root tail l ->
  sslot ∉ root :: l ++ [tail] ->
  is_Some (h !! sslot) ->
  exists h',
    ActiveList.add_to_active_rpc_list tail sslot h = Ok h' /\
    ActiveList.is_active_list h' root tail (l ++ [sslot]) /\
    (forall y, y <> sslot -> y ∉ root :: l ++ [tail] -> h' !! y = h !! y).
Proof.
  intros [Hnodup Hchain] Hfresh Hx.
  destruct (ActiveListFacts.add_chain h root l tail sslot Hchain Hnodup
              Hfresh Hx) as (h' & Hrun & Hc & _ & _ & Hframe).
  exists h'. split; [done |]. split; [| done]. split; [| done].
  rewrite <- app_assoc. simpl.
  change (NoDup ((root :: l) ++ sslot :: [tail])).
  change (NoDup ((root :: l) ++ [tail])) in Hnodup.
  apply NoDup_app in Hnodup as (Hl & Hdisj & Ht).
  apply NoDup_app. split; [done |]. split.
  - intros y Hy. specialize (Hdisj y Hy). set_solver.
  - apply NoDup_cons. split; [set_solver | done].
Qed.

Lemma add_to_active_rpc_list_appends_witness :
  exists h',
    ActiveList.add_to_active_rpc_list 2 10 sample_links = Ok h' /\
    ActiveList.is_active_list h' 1 2 ([] ++ [10]) /\
    (forall y, y <> 10 -> y ∉ 1 :: [] ++ [2] -> h' !! y = sample_links !! y).
Proof.
  apply (add_to_active_rpc_list_appends sample_links 1 2 [] 10).
  - exact sample_links_is_active_list.
  - set_solver.
  - by eexists.
Defined.

(** X16 (rpc.h, delete_from_active_rpc_list): deleting a slot of a
    well-formed active list succeeds and leaves a well-formed list without
    that slot, the other slots in their order; the deleted slot keeps its
    own, now stale, [prev] and [next], and no object outside the list is
    touched. *)
Theorem delete_from_active_rpc_list_removes
  (h : ActiveList.heap) (root tail : Z) (l1 l2 : list Z) (sslot : Z) :
  ActiveList.is_active_list h root tail (l1 ++ sslot :: l2) ->
  exists h',
    ActiveList.delete_from_active_rpc_list sslot h = Ok h' /\
    ActiveList.is_active_list h' root tail (l1 ++ l2) /\
    h' !! sslot = h !! sslot /\
    (forall y, y ∉ root :: (l1 ++ sslot :: l2) ++ [tail] ->
               h' !! y = h !! y).
Proof.
  intros [Hnodup Hchain]. rewrite <- app_assoc in Hnodup. simpl in Hnodup.
  destruct (ActiveListFacts.delete_chain h root l1 sslot l2 tail Hchain Hnodup)
    as (h' & Hrun & Hc & _ & _ & Hframe).
  assert (Hparts : NoDup (root :: l1) /\ NoDup (l2 ++ [tail]) /\
                   (sslot ∉ root :: l1) /\ (sslot ∉ l2 ++ [tail]) /\
                   forall y, y ∈ root :: l1 -> y ∉ l2 ++ [tail]).
  { change (NoDup ((root :: l1) ++ sslot :: l2 ++ [tail])) in Hnodup.
    apply NoDup_app in Hnodup as (Hl & Hdisj & [Hx Hr]%NoDup_cons).
    split; [done |]. split; [done |]. split; [| split; [done |]].
    - intros Hin. specialize (Hdisj _ Hin). set_solver.
    - intros y Hy. specialize (Hdisj y Hy). set_solver. }
  destruct Hparts as (Hl & Hr & Hxl & Hxr & Hdisj).
  exists h'. split; [done |]. split; [| split].
  - split; [| done].
    rewrite <- app_assoc. change (NoDup ((root :: l1) ++ l2 ++ [tail])).
    apply NoDup_app. by repeat split.
  - by apply Hframe.
  - intros y Hy. apply Hframe; set_solver.
Qed.

Lemma delete_from_active_rpc_list_removes_witness :
  exists h',
    ActiveList.delete_from_active_rpc_list 11 sample_links_busy = Ok h' /\
    ActiveList.is_active_list h' 1 2 ([10] ++ []) /\
    h' !! 11 = sample_links_busy !! 11 /\
    (forall y, y ∉ 1 :: ([10] ++ 11 :: []) ++ [2] ->
               h' !! y = sample_links_busy !! y).
Proof.
  apply (delete_from_active_rpc_list_removes sample_links_busy 1 2 [10] [] 11).
  exact sample_links_busy_is_active_list.
Defined.

Lemma chain_last h a l t :
  ActiveList.chain h a l t ->
  exists p, p ∈ a :: l /\ ActiveList.prv h t = Some p /\
            ActiveList.nxt h p = Some t.
Proof.
  revert a. induction l as [| b l IH]; intros a.
  - intros [Hn Hp]. exists a. split; [set_solver | done].
  - intros [_ Hc]. destruct (IH b Hc) as (p & Hin & Hp & Hn).
    exists p. split; [set_solver | done].
Qed.

Lemma links_ext (h1 h2 : ActiveList.heap) y :
  ActiveList.nxt h1 y = ActiveList.nxt h2 y ->
  ActiveList.prv h1 y = ActiveList.prv h2 y ->
  h1 !! y = h2 !! y.
Proof.
  unfold ActiveList.nxt, ActiveList.prv.
  destruct (h1 !! y) as [[p1 n1] |], (h2 !! y) as [[p2 n2] |]; simpl;
    congruence.
Qed.

(** X17 (rpc.h, add_to_active_rpc_list and delete_from_active_rpc_list):
    adding a slot to a well-formed active list and deleting it again both
    succeed and put every other object, the sentinels and the slots of the
    list included, back as it was: the last slot's [next] and the tail
    sentinel's [prev] are restored. *)
Theorem add_then_delete_restores
  (h : ActiveList.heap) (root tail : Z) (l : list Z) (sslot : Z) :
  ActiveList.is_active_list h root tail l ->
  sslot ∉ root :: l ++ [tail] ->
  is_Some (h !! sslot) ->
  exists h' h'',
    ActiveList.add_to_active_rpc_list tail sslot h = Ok h' /\
    ActiveList.delete_from_active_rpc_list sslot h' = Ok h'' /\
    (forall y, y <> sslot -> h'' !! y = h !! y).
Proof.
  intros [Hnodup Hchain] Hfresh Hx.
  destruct (chain_last _ _ _ _ Hchain) as (p & Hin & Hp & Hn).
  assert (Hpx : p <> sslot) by set_solver.
  assert (Htx : tail <> sslot) by set_solver.
  assert (Hps : is_Some (h !! p))
    by (apply ActiveListFacts.is_Some_nxt; by rewrite Hn).
  destruct (ActiveListFacts.add_effect h tail sslot p Hp Hps Hx)
    as (h' & Hadd & Hnxt & Hprv & _).
  assert (Hsome : forall y, is_Some (h !! y) -> is_Some (h' !! y)).
  { intros y Hy. apply ActiveListFacts.is_Some_nxt. rewrite Hnxt.
    repeat case_decide; try done. by apply ActiveListFacts.is_Some_nxt. }
  destruct (ActiveListFacts.delete_effect h' sslot p tail)
    as (h'' & Hdel & Hnxt' & Hprv' & _).
  - rewrite Hprv. rewrite decide_False by done. by rewrite decide_True.
  - rewrite Hnxt. by rewrite decide_True.
  - done.
  - done.
  - by apply Hsome.
  - apply Hsome, ActiveListFacts.is_Some_prv. by rewrite Hp.
  - exists h', h''. split; [done |]. split; [done |].
    intros y Hy. apply links_ext.
    + rewrite Hnxt', Hnxt. repeat case_decide; subst; try done.
    + rewrite Hprv', Hprv. repeat case_decide; subst; try done.
Qed.

Lemma add_then_delete_restores_witness :
  exists h' h'',
    ActiveList.add_to_active_rpc_list 2 10 sample_links = Ok h' /\
    ActiveList.delete_from_active_rpc_list 10 h' = Ok h'' /\
    (forall y, y <> 10 -> h'' !! y = sample_links !! y).
Proof.
  apply (add_then_delete_restores sample_links 1 2 [] 10).
  - exact sample_links_is_active_list.
  - set_solver.
  - by eexists.
Defined.


Lemma find_existing_release cfg sessions pkt :
  NDEBUG cfg = true ->
  exists found,
    ERpc.find_existing cfg sessions pkt = Ok found /\
    (is_Some found <->
     existsb (fun s => ERpc.is_existing s pkt) sessions = true).
Proof.
  intros Hrel. induction sessions as [| s rest IH]; simpl.
  - exists None. split; [done |]. split; [by intros [] | done].
  - destruct (ERpc.is_existing s pkt); simpl.
    + exists (Some s). unfold assert. rewrite Hrel. split; [done |].
      split; [done | by eexists].
    + exact IH.
Qed.

Lemma handle_sm_pkts_release cfg pkts rpc freed :
  NDEBUG cfg = true ->
  exists rpc',
    handle_sm_pkts cfg (Some <$> pkts) (rpc, freed)
    = Ok (rpc', freed ++ pkts) /\
    ERpc.session_vec rpc' = ERpc.session_vec rpc /\
    ERpc.sm_pkts_sent rpc' = ERpc.sm_pkts_sent rpc /\
    ERpc.new_sessions rpc'
    = ERpc.new_sessions rpc
      ++ (session_of <$> List.filter (starts_session (ERpc.session_vec rpc))
                                     pkts).
Proof.
  intros Hrel. revert rpc freed.
  induction pkts as [| pkt pkts IH]; intros rpc freed.
  - exists rpc. simpl. by rewrite !app_nil_r.
  - assert (Hstep : exists rpc1,
      handle_sm_pkt cfg (rpc, freed) (Some pkt) = Ok (rpc1, freed ++ [pkt]) /\
      ERpc.session_vec rpc1 = ERpc.session_vec rpc /\
      ERpc.sm_pkts_sent rpc1 = ERpc.sm_pkts_sent rpc /\
      ERpc.new_sessions rpc1
      = ERpc.new_sessions rpc
        ++ (if starts_session (ERpc.session_vec rpc) pkt
            then [session_of pkt] else [])).
    { unfold handle_sm_pkt, starts_session. rewrite deref_Some, bind_Ok.
      destruct (ERpc.pkt_type pkt) eqn:Hty;
        try (exists rpc; simpl; by rewrite app_nil_r).
      unfold ERpc.handle_session_connect_req, assert. rewrite Hrel. simpl.
      destruct (find_existing_release cfg (ERpc.session_vec rpc) pkt Hrel)
        as (found & -> & Hfound). simpl.
      destruct found as [s |].
      - exists (ERpc.add_dup_notice rpc s). simpl.
        rewrite (proj1 Hfound) by by eexists. simpl.
        by rewrite app_nil_r.
      - exists (ERpc.add_new_session rpc (session_of pkt)). simpl.
        destruct (existsb _ _) eqn:Hex; [| done].
        by destruct (proj2 Hfound eq_refl). }
    destruct Hstep as (rpc1 & Hstep & Hvec & Hsent & Hnew).
    destruct (IH rpc1 (freed ++ [pkt])) as (rpc' & Hrun & Hvec' & Hsent' & Hnew').
    exists rpc'. rewrite fmap_cons.
    change (handle_sm_pkts cfg (Some pkt :: (Some <$> pkts)) (rpc, freed))
      with (handle_sm_pkt cfg (rpc, freed) (Some pkt)
              ≫= handle_sm_pkts cfg (Some <$> pkts)).
    rewrite Hstep, bind_Ok, Hrun, <- app_assoc. split; [done |].
    split; [congruence |]. split; [congruence |].
    rewrite Hnew', Hnew, Hvec, <- app_assoc. f_equal. simpl.
    by destruct (starts_session _ _).
Qed.

(** X18 (rpc.h, handle_session_management with handle_session_connect_req
    and handle_session_connect_resp): in a build without assertions, a batch
    of session management packets is always processed to the end.  The list
    is then empty, the event counter zero and the mutex released, and every
    packet has been given to [free] once, in order.  No packet is answered
    and no session is stored in [session_vec]; each connect request that
    meets no session of its client in the unchanged [session_vec] allocates
    one new session, so a request that arrives twice allocates two. *)
Theorem handle_session_management_release
  (cfg : Config) (rpc : ERpc.Rpc) (sm_hook : SmHook.t)
  (pkts freed : list ERpc.SessionMgmtPkt) :
  NDEBUG cfg = true ->
  SmHook.session_mgmt_mutex sm_hook = false ->
  SmHook.session_mgmt_pkt_list sm_hook = Some <$> pkts ->
  exists rpc',
    handle_session_management cfg (rpc, sm_hook, freed)
    = Ok (rpc',
          {| SmHook.session_mgmt_ev_counter := 0;
             SmHook.session_mgmt_mutex := false;
             SmHook.session_mgmt_pkt_list := [] |},
          freed ++ pkts) /\
    ERpc.session_vec rpc' = ERpc.session_vec rpc /\
    ERpc.sm_pkts_sent rpc' = ERpc.sm_pkts_sent rpc /\
    ERpc.new_sessions rpc'
    = ERpc.new_sessions rpc
      ++ (session_of <$> List.filter (starts_session (ERpc.session_vec rpc))
                                     pkts).
Proof.
  intros Hrel Hmutex Hlist.
  destruct (handle_sm_pkts_release cfg pkts rpc freed Hrel)
    as (rpc' & Hrun & Hrest).
  exists rpc'. split; [| done].
  unfold handle_session_management, assert, SmHook.lock.
  rewrite Hrel, Hmutex. simpl. rewrite Hlist, Hrun. reflexivity.
Qed.

Lemma handle_session_management_release_witness :
  exists rpc',
    handle_session_management release_config
      (fresh_beta_rpc,
       {| SmHook.session_mgmt_ev_counter := 2;
          SmHook.session_mgmt_mutex := false;
          SmHook.session_mgmt_pkt_list :=
            Some <$> [repeated_connect_req; repeated_connect_req] |}, [])
    = Ok (rpc',
          {| SmHook.session_mgmt_ev_counter := 0;
             SmHook.session_mgmt_mutex := false;
             SmHook.session_mgmt_pkt_list := [] |},
          [] ++ [repeated_connect_req; repeated_connect_req]) /\
    ERpc.session_vec rpc' = ERpc.session_vec fresh_beta_rpc /\
    ERpc.sm_pkts_sent rpc' = ERpc.sm_pkts_sent fresh_beta_rpc /\
    ERpc.new_sessions rpc'
    = ERpc.new_sessions fresh_beta_rpc
      ++ (session_of <$>
            List.filter (starts_session (ERpc.session_vec fresh_beta_rpc))
              [repeated_connect_req; repeated_connect_req]).
Proof.
  apply (handle_session_management_release release_config fresh_beta_rpc
           _ [repeated_connect_req; repeated_connect_req] []); reflexivity.
Defined.


(** X19 (rpc.h, bury_req_msgbuf_server_st): burying a server slot's request
    MsgBuffer leaves it invalid and without a backing allocation, so that
    burying it again changes neither the slot nor the allocator: a backing
    allocation is given back once. *)
Theorem bury_req_msgbuf_server_st_idempotent
  {H : Type} `{HugeAlloc H} (sslot : ServerSSlot.t) (huge_alloc : H) :
  bury_req_msgbuf_server_st
    (bury_req_msgbuf_server_st sslot huge_alloc).1
    (bury_req_msgbuf_server_st sslot huge_alloc).2
  = bury_req_msgbuf_server_st sslot huge_alloc /\
  MsgBuffer.is_valid
    (ServerSSlot.req_msgbuf (bury_req_msgbuf_server_st sslot huge_alloc).1)
  = false /\
  is_dynamic
    (ServerSSlot.req_msgbuf (bury_req_msgbuf_server_st sslot huge_alloc).1)
  = false /\
  (bury_req_msgbuf_server_st sslot huge_alloc).2
  = (if is_dynamic (ServerSSlot.req_msgbuf sslot)
     then free_buf huge_alloc (MsgBuffer.buffer (ServerSSlot.req_msgbuf sslot))
     else huge_alloc).
Proof.
  unfold bury_req_msgbuf_server_st.
  destruct (is_dynamic (ServerSSlot.req_msgbuf sslot)) eqn:Hdyn; simpl.
  - done.
  - change (is_dynamic (MsgBuffer.set_buf (ServerSSlot.req_msgbuf sslot) 0))
      with (is_dynamic (ServerSSlot.req_msgbuf sslot)).
    rewrite Hdyn. done.
Qed.

(** X20 (rpc.h, bury_resp_msgbuf_server_st): a successful bury leaves the
    slot's [tx_msgbuf] null.  Burying the same slot again is harmless when
    the response was preallocated, and dereferences the null pointer when it
    was not. *)
Theorem bury_resp_msgbuf_server_st_twice
  {H : Type} `{HugeAlloc H} (cfg : Config) (in_dispatch : bool)
  (sslot sslot' : ServerSSlot.t) (huge_alloc huge_alloc' : H) :
  bury_resp_msgbuf_server_st cfg in_dispatch sslot huge_alloc
  = Ok (sslot', huge_alloc') ->
  ServerSSlot.tx_msgbuf sslot' = None /\
  bury_resp_msgbuf_server_st cfg in_dispatch sslot' huge_alloc'
  = (if ServerSSlot.prealloc_used sslot then Ok (sslot', huge_alloc')
     else Undefined).
Proof.
  unfold bury_resp_msgbuf_server_st. intros Hrun.
  destruct (assert cfg in_dispatch) as [[] | | |] eqn:Hassert;
    simpl in Hrun; try done.
  destruct (ServerSSlot.prealloc_used sslot) eqn:Hpre; simpl in Hrun.
  - injection Hrun as <- <-. simpl. by rewrite Hpre.
  - destruct (ServerSSlot.tx_msgbuf sslot); simpl in Hrun; [| done].
    injection Hrun as <- <-. simpl. by rewrite Hpre.
Qed.

Lemma bury_resp_msgbuf_server_st_twice_witness :
  ServerSSlot.tx_msgbuf
    (ServerSSlot.set_tx_msgbuf (sample_server_sslot false) None) = None /\
  bury_resp_msgbuf_server_st sample_config true
    (ServerSSlot.set_tx_msgbuf (sample_server_sslot false) None)
    {| freed_bufs := [MsgBuffer.buffer sample_dynamic_msgbuf] |}
  = (if ServerSSlot.prealloc_used (sample_server_sslot false)
     then Ok (ServerSSlot.set_tx_msgbuf (sample_server_sslot false) None,
              {| freed_bufs := [MsgBuffer.buffer sample_dynamic_msgbuf] |})
     else Undefined).
Proof.
  apply (bury_resp_msgbuf_server_st_twice sample_config true
           (sample_server_sslot false) _ {| freed_bufs := [] |}).
  reflexivity.
Defined.

Lemma int_to_size_t_nonneg n : 0 <= n -> is_int n -> int_to_size_t n = n.
Proof.
  unfold is_int, int_to_size_t. intros. apply wrap_small.
  unfold SizeT.in_range, SizeT.modulus. lia.
Qed.

Lemma int_to_size_t_neg n :
  n < 0 -> is_int n -> 2 ^ 63 < int_to_size_t n.
Proof.
  unfold is_int, int_to_size_t, SizeT.wrap, SizeT.modulus. intros Hneg Hint.
  rewrite <- (Z.mod_add n 1 (2 ^ 64)) by lia.
  rewrite Z.mod_small by lia. lia.
Qed.

(** X21 (rpc.h, is_usr_session_num_in_range_st with is_connected,
    get_num_re_tx and reset_num_re_tx): for an [int] session number, the
    range check answers true exactly when the vector access of the three
    accessors is inside [session_vec]; a negative number is cast to an index
    far past the end.  When it answers false the accessors have no defined
    result. *)
Theorem is_usr_session_num_in_range_st_guards
  (cfg : Config) (rpc : Rpc.t) (etid session_num : Z) (b : bool) :
  is_int session_num ->
  Z.of_nat (length (Rpc.session_vec rpc)) <= 2 ^ 63 ->
  is_usr_session_num_in_range_st cfg rpc etid session_num = Ok b ->
  (b = true <->
   is_Some (at_index (Rpc.session_vec rpc) (int_to_size_t session_num))) /\
  (b = false ->
   is_connected rpc session_num = Undefined /\
   get_num_re_tx rpc session_num = Undefined /\
   reset_num_re_tx rpc session_num = Undefined).
Proof.
  intros Hint Hlen. unfold is_usr_session_num_in_range_st. intros Hrun.
  destruct (assert cfg (Rpc.in_dispatch rpc etid)) as [[] | | |];
    simpl in Hrun; try done.
  injection Hrun as <-.
  assert (Hiff : (0 <=? session_num) &&
            (int_to_size_t session_num
             <? Z.of_nat (length (Rpc.session_vec rpc))) = true <->
          is_Some (at_index (Rpc.session_vec rpc)
                     (int_to_size_t session_num))).
  { unfold at_index. rewrite andb_true_iff, Z.leb_le, Z.ltb_lt.
    destruct (Z.le_gt_cases 0 session_num) as [Hpos | Hneg].
    - rewrite (int_to_size_t_nonneg _ Hpos Hint).
      destruct (Z.ltb_spec session_num 0); [lia |].
      rewrite lookup_lt_is_Some. lia.
    - pose proof (int_to_size_t_neg _ Hneg Hint) as Hbig.
      destruct (Z.ltb_spec (int_to_size_t session_num) 0); [lia |].
      rewrite lookup_lt_is_Some. lia. }
  split; [done |]. intros Hfalse.
  assert (Hnone : at_index (Rpc.session_vec rpc) (int_to_size_t session_num)
                  = None).
  { apply eq_None_not_Some. rewrite <- Hiff. by rewrite Hfalse. }
  unfold is_connected, get_num_re_tx, reset_num_re_tx, session_at.
  by rewrite Hnone.
Qed.

Lemma is_usr_session_num_in_range_st_guards_witness :
  (false = true <->
   is_Some (at_index (Rpc.session_vec sample_rpc_retx) (int_to_size_t (-1))))
  /\
  (false = false ->
   is_connected sample_rpc_retx (-1) = Undefined /\
   get_num_re_tx sample_rpc_retx (-1) = Undefined /\
   reset_num_re_tx sample_rpc_retx (-1) = Undefined).
Proof.
  apply (is_usr_session_num_in_range_st_guards sample_config sample_rpc_retx
           0 (-1) false).
  - unfold is_int. lia.
  - simpl. lia.
  - reflexivity.
Defined.

Lemma session_at_get_session rpc n s :
  session_at rpc n = Ok s ->
  Rpc.get_session rpc (int_to_size_t n) = Some s.
Proof.
  unfold session_at, Rpc.get_session.
  destruct (at_index _ _) as [[s0 |] |]; simpl; try done. by intros [= ->].
Qed.

(** X22 (rpc.h, reset_num_re_tx with get_num_re_tx and is_connected): after
    a reset of one session's retransmission count, that session reads zero,
    every other session reads what it read before, and no session's
    connection state has changed. *)
Theorem reset_num_re_tx_then_get
  (rpc rpc' : Rpc.t) (session_num other : Z) :
  reset_num_re_tx rpc session_num = Ok rpc' ->
  get_num_re_tx rpc' other
  = (if decide (int_to_size_t other = int_to_size_t session_num) then Ok 0
     else get_num_re_tx rpc other) /\
  is_connected rpc' other = is_connected rpc other.
Proof.
  unfold reset_num_re_tx. intros Hrun.
  destruct (session_at rpc session_num) as [s | | |] eqn:Hs;
    simpl in Hrun; try done.
  injection Hrun as <-.
  pose proof (session_at_get_session _ _ _ Hs) as Hget.
  unfold get_num_re_tx, is_connected.
  assert (Hat : forall r n, session_at r n
                = deref (Rpc.get_session r (int_to_size_t n))).
  { intros r n. unfold session_at, Rpc.get_session.
    by destruct (at_index _ _) as [[?|]|]. }
  rewrite !Hat. case_decide as Hidx.
  - rewrite Hidx, (get_session_put_session_eq _ _ _ _ Hget), Hget. done.
  - rewrite get_session_put_session_ne by done. done.
Qed.

Lemma reset_num_re_tx_then_get_witness :
  get_num_re_tx
    (Rpc.put_session sample_rpc_retx 0 (sample_session 100 [] [])) 0
  = (if decide (int_to_size_t 0 = int_to_size_t 0) then Ok 0
     else get_num_re_tx sample_rpc_retx 0) /\
  is_connected
    (Rpc.put_session sample_rpc_retx 0 (sample_session 100 [] [])) 0
  = is_connected sample_rpc_retx 0.
Proof.
  apply (reset_num_re_tx_then_get sample_rpc_retx _ 0 0). reflexivity.
Defined.
